(** * MoonTV-Plus: credential reader and token refresh manager

    A shallow embedding of [lib/auth] (the credential reader) and of the
    [TokenRefreshManager] component of [WatchRoomProvider.tsx], with the
    properties of the session-renewal design checked against them.

    Conventions.
    - A JavaScript string is the sequence of its UTF-16 code units, and a
      [string] holds one code unit per character: the strings modelled are
      those whose code units are below 256.  That is every value of a request
      header ([Headers.get] returns a byte string), and every URL, marker and
      cookie text written in that range.  The whitespace class of [trim] and
      of the regular expression atom [\s] is taken whole within the range:
      TAB, LF, VT, FF, CR, SPACE and NO-BREAK SPACE.
    - Epoch-millisecond numbers are integers ([Z]).
    - [undefined]/[null] are [None]; a promise that rejects, or a call that
      throws, is an explicit error result. *)

From Stdlib Require Import String Ascii List ZArith Lia Bool Arith DecimalString.
Import ListNotations.
Open Scope string_scope.

(** ** JavaScript string primitives *)

Module JS.

(** [s.startsWith(t)] *)
Fixpoint startsWith (s t : string) {struct t} : bool :=
  match t with
  | EmptyString => true
  | String b t' =>
      match s with
      | EmptyString => false
      | String a s' => Ascii.eqb a b && startsWith s' t'
      end
  end.

(** [s.includes(t)] *)
Fixpoint includes (s t : string) : bool :=
  if startsWith s t then true
  else match s with
       | EmptyString => false
       | String _ s' => includes s' t
       end.

(** The WhiteSpace and LineTerminator classes of [trim] and of the regular
    expression atom [\s], among the code units below 256: TAB, LF, VT, FF,
    CR, SPACE and NO-BREAK SPACE (U+00A0).  The other members of the classes
    (U+1680, U+2000 to U+200A, U+2028, U+2029, U+202F, U+205F, U+3000 and
    U+FEFF) are code units above 255. *)
Definition isWhiteSpace (c : ascii) : bool :=
  let n := nat_of_ascii c in
  (((9 <=? n) && (n <=? 13)) || (n =? 32) || (n =? 160))%nat.

(** The text made of one NO-BREAK SPACE. *)
Definition noBreakSpace : string := String (ascii_of_nat 160) EmptyString.

(** LF and CR: the characters the regular expression atom [.] refuses (the
    other two line terminators, U+2028 and U+2029, are above 255). *)
Definition isLineTerminator (c : ascii) : bool :=
  let n := nat_of_ascii c in
  ((n =? 10) || (n =? 13))%nat.

Fixpoint trimStart (s : string) : string :=
  match s with
  | EmptyString => EmptyString
  | String c s' => if isWhiteSpace c then trimStart s' else s
  end.

Fixpoint trimEnd (s : string) : string :=
  match s with
  | EmptyString => EmptyString
  | String c s' =>
      match trimEnd s' with
      | EmptyString => if isWhiteSpace c then EmptyString else String c EmptyString
      | t => String c t
      end
  end.

(** [s.trim()] *)
Definition trim (s : string) : string := trimEnd (trimStart s).

(** Truthiness of a string: [undefined], [null] and the empty string are
    falsy. *)
Definition truthy_string (v : option string) : bool :=
  match v with
  | None => false
  | Some s => negb (s =? "")
  end.

(** Truthiness of a number: [undefined] and [0] are falsy. *)
Definition truthy_number (v : option Z) : bool :=
  match v with
  | None => false
  | Some z => negb (z =? 0)%Z
  end.

Definition toLowerAscii (c : ascii) : ascii :=
  let n := nat_of_ascii c in
  if ((65 <=? n) && (n <=? 90))%nat then ascii_of_nat (n + 32) else c.

(** The keyword of a case-insensitive pattern, consumed at the start of the
    input; the rest of the input is returned. *)
Fixpoint stripKeyword (kw s : string) : option string :=
  match kw with
  | EmptyString => Some s
  | String a kw' =>
      match s with
      | EmptyString => None
      | String b s' =>
          if Ascii.eqb (toLowerAscii a) (toLowerAscii b)
          then stripKeyword kw' s'
          else None
      end
  end.

(** [(.+)$]: the rest of the input is not empty and has no line terminator. *)
Fixpoint dotsToEnd (s : string) : bool :=
  match s with
  | EmptyString => false
  | String c EmptyString => negb (isLineTerminator c)
  | String c s' => negb (isLineTerminator c) && dotsToEnd s'
  end.

(** After one whitespace character has been consumed: greedy [\s+] takes more
    whitespace first and gives it back when [(.+)$] fails further on. *)
Fixpoint captureAfterWs (s : string) : option string :=
  let here := if dotsToEnd s then Some s else None in
  match s with
  | EmptyString => here
  | String c s' =>
      if isWhiteSpace c
      then match captureAfterWs s' with
           | Some g => Some g
           | None => here
           end
      else here
  end.

(** [s.match(/^kw\s+(.+)$/i)]: capture group 1 of the match, if any. *)
Definition matchScheme (kw s : string) : option string :=
  match stripKeyword kw s with
  | Some (String c rest) => if isWhiteSpace c then captureAfterWs rest else None
  | _ => None
  end.

(** The letters A to Z lowered: two words with the same image are the same
    word up to the case of these letters, which is how the flag [i] compares
    the keyword of a pattern with the input. *)
Fixpoint lowerString (s : string) : string :=
  match s with
  | EmptyString => EmptyString
  | String c s' => String (toLowerAscii c) (lowerString s')
  end.

(** A run of whitespace. *)
Fixpoint allWhiteSpace (s : string) : bool :=
  match s with
  | EmptyString => true
  | String c s' => isWhiteSpace c && allWhiteSpace s'
  end.

(** A text that does not start with whitespace; the empty text does not. *)
Definition startsClean (s : string) : bool :=
  match s with
  | EmptyString => false
  | String c _ => negb (isWhiteSpace c)
  end.

End JS.

(** ** lib/auth: the credential reader *)

Module Auth.

Inductive Role := owner | admin | user.

Record AuthInfo := mkAuthInfo {
  password : option string;
  username : option string;
  signature : option string;
  timestamp : option Z;
  role : option Role;
  tokenId : option string;
  refreshToken : option string;
  refreshExpires : option Z
}.

Definition emptyAuthInfo : AuthInfo :=
  mkAuthInfo None None None None None None None None.

Definition getAuthTokenFromHeader (value : string) : string :=
  let trimmed := JS.trim value in
  if trimmed =? "" then ""
  else match JS.matchScheme "Bearer" trimmed with
       | Some g => JS.trim g
       | None =>
           match JS.matchScheme "Token" trimmed with
           | Some g => JS.trim g
           | None => trimmed
           end
       end.

(** The interface of [NextRequest] the reader uses: [headers.get(name)] and
    the value of [cookies.get(name)]. *)
Record NextRequest := mkNextRequest {
  headers_get : string -> option string;
  cookies_get : string -> option string
}.

Section Reader.

(** The platform functions.  [decodeURIComponent] answers [None] when it
    throws [URIError]; [JSON_parse] answers [None] when [JSON.parse] throws
    or yields [null], and otherwise the value read at type [AuthInfo]. *)
Variable decodeURIComponent : string -> option string.
Variable JSON_parse : string -> option AuthInfo.

Definition parseAuthInfo (value : option string) : option AuthInfo :=
  match value with
  | None => None
  | Some value =>
      if value =? "" then None
      else
        let decoded :=
          match decodeURIComponent value with
          | Some d => d
          | None => value
          end in
        let decoded :=
          if JS.includes decoded "%"
          then match decodeURIComponent decoded with
               | Some d => d
               | None => value
               end
          else decoded in
        JSON_parse decoded
  end.

Definition getAuthInfoFromCookie (request : NextRequest) : option AuthInfo :=
  let fromCookie :=
    match cookies_get request "auth" with
    | None => None
    | Some v => parseAuthInfo (Some v)
    end in
  let authHeader := headers_get request "authorization" in
  match authHeader with
  | Some h =>
      if JS.truthy_string authHeader
      then match parseAuthInfo (Some (getAuthTokenFromHeader h)) with
           | Some headerAuthInfo => Some headerAuthInfo
           | None => fromCookie
           end
      else fromCookie
  | None => fromCookie
  end.

End Reader.

End Auth.

(** ** An instance of the platform functions

    [encodeURIComponent] and [decodeURIComponent] on the strings modelled,
    and [JSON.parse] on the flat objects of strings and integers that
    [AuthInfo] serialises to.  They serve the concrete instances of the
    theorems, which are stated for any platform functions.

    [encodeURIComponent] escapes the UTF-8 bytes of a code unit: one byte
    below 128, two from 128 to 255.  [decodeURIComponent] reads the escapes
    back and refuses what the JavaScript function throws on (a percent sign
    without two hexadecimal digits, a byte that cannot start a character, a
    missing or wrong continuation byte); it also refuses the escapes of a
    character above 255, which no string modelled holds.  [JSON_parse] reads
    string members with the escapes of the quote, the backslash and the
    slash, and integer members; it refuses every other text, so it reads
    less than [JSON.parse] does. *)

Module Platform.

Definition hexDigit (n : nat) : ascii :=
  if (n <? 10)%nat then ascii_of_nat (48 + n) else ascii_of_nat (55 + n).

Definition hexValue (c : ascii) : option nat :=
  let n := nat_of_ascii c in
  if ((48 <=? n) && (n <=? 57))%nat then Some (n - 48)%nat
  else if ((65 <=? n) && (n <=? 70))%nat then Some (n - 55)%nat
  else if ((97 <=? n) && (n <=? 102))%nat then Some (n - 87)%nat
  else None.

(** The characters [encodeURIComponent] leaves alone: letters, digits and
    [- _ . ! ~ * ' ( )]. *)
Definition isUnreserved (c : ascii) : bool :=
  let n := nat_of_ascii c in
  (((65 <=? n) && (n <=? 90)) || ((97 <=? n) && (n <=? 122)) ||
   ((48 <=? n) && (n <=? 57)) ||
   (n =? 45) || (n =? 95) || (n =? 46) || (n =? 33) || (n =? 126) ||
   (n =? 42) || (n =? 39) || (n =? 40) || (n =? 41))%nat.

(** The escape [%XX] of a byte. *)
Definition escape (n : nat) : string :=
  String "%" (String (hexDigit (n / 16)) (String (hexDigit (n mod 16)) EmptyString)).

Definition encodeCodeUnit (c : ascii) : string :=
  if isUnreserved c then String c EmptyString
  else
    let n := nat_of_ascii c in
    if (n <? 128)%nat then escape n
    else (escape (192 + n / 64) ++ escape (128 + n mod 64))%string.

Fixpoint encodeURIComponent (s : string) : string :=
  match s with
  | EmptyString => EmptyString
  | String c s' => encodeCodeUnit c ++ encodeURIComponent s'
  end.

(** The byte two hexadecimal digits stand for. *)
Definition escaped (h l : ascii) : option nat :=
  match hexValue h, hexValue l with
  | Some a, Some b => Some (16 * a + b)%nat
  | _, _ => None
  end.

Fixpoint decodeURIComponent (s : string) : option string :=
  match s with
  | EmptyString => Some EmptyString
  | String c s1 =>
      if Ascii.eqb c "%"
      then match s1 with
           | String h (String l s2) =>
               match escaped h l with
               | Some b =>
                   if (b <? 128)%nat
                   then option_map (String (ascii_of_nat b)) (decodeURIComponent s2)
                   else if ((b =? 194) || (b =? 195))%nat
                   then match s2 with
                        | String p (String h2 (String l2 s3)) =>
                            if Ascii.eqb p "%"
                            then match escaped h2 l2 with
                                 | Some b2 =>
                                     if ((128 <=? b2) && (b2 <=? 191))%nat
                                     then option_map
                                            (String (ascii_of_nat
                                                       ((b - 192) * 64 + (b2 - 128))))
                                            (decodeURIComponent s3)
                                     else None
                                 | None => None
                                 end
                            else None
                        | _ => None
                        end
                   else None
               | None => None
               end
           | _ => None
           end
      else option_map (String c) (decodeURIComponent s1)
  end.

Inductive JValue := JStr (s : string) | JNum (z : Z).

Definition dquote : ascii := ascii_of_nat 34.

Definition isJsonWs (c : ascii) : bool :=
  let n := nat_of_ascii c in
  ((n =? 32) || (n =? 9) || (n =? 10) || (n =? 13))%nat.

Fixpoint skipWs (s : string) : string :=
  match s with
  | EmptyString => EmptyString
  | String c s' => if isJsonWs c then skipWs s' else s
  end.

(** The text of a string literal after its opening quote, and what follows
    the closing quote.  Escapes other than those of the quote, the backslash
    and the slash are not read. *)
Fixpoint readString (s : string) : option (string * string) :=
  match s with
  | EmptyString => None
  | String c s1 =>
      if Ascii.eqb c dquote then Some (EmptyString, s1)
      else if Ascii.eqb c "\"
      then match s1 with
           | String e s2 =>
               if Ascii.eqb e dquote || Ascii.eqb e "\" || Ascii.eqb e "/"
               then match readString s2 with
                    | Some (t, r) => Some (String e t, r)
                    | None => None
                    end
               else None
           | EmptyString => None
           end
      else match readString s1 with
           | Some (t, r) => Some (String c t, r)
           | None => None
           end
  end.

Definition digitValue (c : ascii) : option Z :=
  let n := nat_of_ascii c in
  if ((48 <=? n) && (n <=? 57))%nat then Some (Z.of_nat (n - 48)) else None.

Fixpoint readDigits (s : string) (acc : Z) : Z * string :=
  match s with
  | EmptyString => (acc, s)
  | String c s' =>
      match digitValue c with
      | Some d => readDigits s' (10 * acc + d)%Z
      | None => (acc, s)
      end
  end.

(** An integer literal: no leading zero, no fraction, no exponent. *)
Definition readNatural (s : string) : option (Z * string) :=
  match s with
  | String c s' =>
      match digitValue c with
      | Some d =>
          let '(z, rest) := readDigits s' d in
          let leadingZero :=
            match s' with
            | String c' _ =>
                (d =? 0)%Z && match digitValue c' with Some _ => true | None => false end
            | EmptyString => false
            end in
          let continues :=
            match rest with
            | String x _ => Ascii.eqb x "." || Ascii.eqb x "e" || Ascii.eqb x "E"
            | EmptyString => false
            end in
          if leadingZero || continues then None else Some (z, rest)
      | None => None
      end
  | EmptyString => None
  end.

Definition readValue (s : string) : option (JValue * string) :=
  match s with
  | String c s' =>
      if Ascii.eqb c dquote
      then match readString s' with
           | Some (t, r) => Some (JStr t, r)
           | None => None
           end
      else if Ascii.eqb c "-"
      then match readNatural s' with
           | Some (z, r) => Some (JNum (- z), r)
           | None => None
           end
      else match readNatural s with
           | Some (z, r) => Some (JNum z, r)
           | None => None
           end
  | EmptyString => None
  end.

Definition readRole (s : string) : option Auth.Role :=
  if s =? "owner" then Some Auth.owner
  else if s =? "admin" then Some Auth.admin
  else if s =? "user" then Some Auth.user
  else None.

(** One member stored in the record; a later member of the same name
    replaces an earlier one, members outside the type are dropped, and a
    value of the wrong kind for its member is refused. *)
Definition setMember (k : string) (v : JValue) (a : Auth.AuthInfo) : option Auth.AuthInfo :=
  let '(Auth.mkAuthInfo pw un sg ts rl ti rt re) := a in
  match v with
  | JStr t =>
      if k =? "password" then Some (Auth.mkAuthInfo (Some t) un sg ts rl ti rt re)
      else if k =? "username" then Some (Auth.mkAuthInfo pw (Some t) sg ts rl ti rt re)
      else if k =? "signature" then Some (Auth.mkAuthInfo pw un (Some t) ts rl ti rt re)
      else if k =? "role" then
        match readRole t with
        | Some r => Some (Auth.mkAuthInfo pw un sg ts (Some r) ti rt re)
        | None => None
        end
      else if k =? "tokenId" then Some (Auth.mkAuthInfo pw un sg ts rl (Some t) rt re)
      else if k =? "refreshToken" then Some (Auth.mkAuthInfo pw un sg ts rl ti (Some t) re)
      else if (k =? "timestamp") || (k =? "refreshExpires") then None
      else Some a
  | JNum z =>
      if k =? "timestamp" then Some (Auth.mkAuthInfo pw un sg (Some z) rl ti rt re)
      else if k =? "refreshExpires" then Some (Auth.mkAuthInfo pw un sg ts rl ti rt (Some z))
      else if (k =? "password") || (k =? "username") || (k =? "signature") ||
              (k =? "role") || (k =? "tokenId") || (k =? "refreshToken") then None
      else Some a
  end.

(** The members of an object after its opening brace. *)
Fixpoint readMembers (fuel : nat) (s : string) (a : Auth.AuthInfo) : option Auth.AuthInfo :=
  match fuel with
  | O => None
  | S fuel' =>
      match skipWs s with
      | String q s1 =>
          if Ascii.eqb q dquote
          then match readString s1 with
               | Some (k, s2) =>
                   match skipWs s2 with
                   | String colon s3 =>
                       if Ascii.eqb colon ":"
                       then match readValue (skipWs s3) with
                            | Some (v, s4) =>
                                match setMember k v a with
                                | Some a' =>
                                    match skipWs s4 with
                                    | String sep s5 =>
                                        if Ascii.eqb sep ","
                                        then readMembers fuel' s5 a'
                                        else if Ascii.eqb sep "}"
                                        then match skipWs s5 with
                                             | EmptyString => Some a'
                                             | _ => None
                                             end
                                        else None
                                    | EmptyString => None
                                    end
                                | None => None
                                end
                            | None => None
                            end
                       else None
                   | EmptyString => None
                   end
               | None => None
               end
          else None
      | EmptyString => None
      end
  end.

Definition JSON_parse (s : string) : option Auth.AuthInfo :=
  match skipWs s with
  | String b s1 =>
      if Ascii.eqb b "{"
      then match skipWs s1 with
           | String c s2 =>
               if Ascii.eqb c "}"
               then match skipWs s2 with
                    | EmptyString => Some Auth.emptyAuthInfo
                    | _ => None
                    end
               else readMembers (String.length s) s1 Auth.emptyAuthInfo
           | EmptyString => None
           end
      else None
  | EmptyString => None
  end.

(** [JSON.stringify] of a record: its members in the order of the type. *)
Fixpoint escapeString (s : string) : string :=
  match s with
  | EmptyString => EmptyString
  | String c s' =>
      if Ascii.eqb c dquote || Ascii.eqb c "\"
      then String "\" (String c (escapeString s'))
      else String c (escapeString s')
  end.

Definition quoted (s : string) : string :=
  String dquote (escapeString s ++ String dquote EmptyString).

Definition roleName (r : Auth.Role) : string :=
  match r with
  | Auth.owner => "owner"
  | Auth.admin => "admin"
  | Auth.user => "user"
  end.

Definition stringMember (k : string) (v : option string) : list string :=
  match v with
  | Some t => [quoted k ++ ":" ++ quoted t]
  | None => []
  end.

Definition numberMember (k : string) (v : option Z) : list string :=
  match v with
  | Some z => [quoted k ++ ":" ++ NilZero.string_of_int (Z.to_int z)]
  | None => []
  end.

Definition JSON_stringify (a : Auth.AuthInfo) : string :=
  "{" ++ String.concat ","
    (stringMember "password" (Auth.password a) ++
     stringMember "username" (Auth.username a) ++
     stringMember "signature" (Auth.signature a) ++
     numberMember "timestamp" (Auth.timestamp a) ++
     stringMember "role" (option_map roleName (Auth.role a)) ++
     stringMember "tokenId" (Auth.tokenId a) ++
     stringMember "refreshToken" (Auth.refreshToken a) ++
     numberMember "refreshExpires" (Auth.refreshExpires a)) ++ "}".

Definition parseAuthInfo : option string -> option Auth.AuthInfo :=
  Auth.parseAuthInfo decodeURIComponent JSON_parse.

Definition getAuthInfoFromCookie : Auth.NextRequest -> option Auth.AuthInfo :=
  Auth.getAuthInfoFromCookie decodeURIComponent JSON_parse.

End Platform.


(** ** components/WatchRoomProvider.tsx: TokenRefreshManager

    The effect of the component runs when [STORAGE_TYPE] is not
    [localstorage]; what follows is the body of that effect. *)

Module TokenRefreshManager.

(** [TOKEN_CONFIG] of [lib/refresh-token], which the component imports. *)
Record TokenConfig := mkTokenConfig {
  ACCESS_TOKEN_AGE : Z;
  RENEWAL_THRESHOLD : Z
}.

(** The first argument of [fetch]: a string, a [URL] or a [Request]. *)
Inductive RequestInfo :=
| InputString (s : string)
| InputURL (href : string)
| InputRequest (url : string).

Record RequestInit := mkRequestInit {
  method : string;
  credentials : string
}.

Record Response := mkResponse {
  status : Z;
  (** [await response.clone().text()]; [None] when reading the body throws *)
  text : option string
}.

(** [response.ok] *)
Definition ok (r : Response) : bool :=
  ((200 <=? status r) && (status r <=? 299))%Z.

(** How the promise of a [fetch] call settles. *)
Inductive FetchResult :=
| Fulfilled (r : Response)
| Rejected.

(** What the body of the effect asks of the browser.  [AwaitRefreshToken] is
    [await refreshToken()] seen from the request wrapper; [SetLocationHref]
    is the assignment of the login address, with the current path as its
    [redirect] parameter, to [window.location.href]. *)
Inductive Eff : Type -> Type :=
| GetAuthInfoFromBrowserCookie : Eff (option Auth.AuthInfo)
| DateNow : Eff Z
| LocationPathname : Eff string
| OriginalFetch (input : RequestInfo) (init : option RequestInit) : Eff FetchResult
| AwaitRefreshToken : Eff bool
| ClearAuthCookie : Eff unit
| SetLocationHref : Eff unit.

Inductive Prog (A : Type) : Type :=
| Ret (a : A)
| Do {X : Type} (e : Eff X) (k : X -> Prog A).

Arguments Ret {A} a.
Arguments Do {A X} e k.

Fixpoint bind {A B : Type} (p : Prog A) (f : A -> Prog B) : Prog B :=
  match p with
  | Ret a => f a
  | Do e k => Do e (fun x => bind (k x) f)
  end.

Definition perform {X : Type} (e : Eff X) : Prog X := Do e Ret.

Declare Scope prog_scope.
Delimit Scope prog_scope with prog.
Notation "x <- p ;; q" := (bind p (fun x => q))
  (at level 61, p at next level, right associativity) : prog_scope.
Notation "p ;; q" := (bind p (fun _ => q))
  (at level 61, right associativity) : prog_scope.
Open Scope prog_scope.

(** An effect that was performed, with the answer it got, and a network call
    that was sent and whose answer is still to come. *)
Inductive Event :=
| Ev {X : Type} (e : Eff X) (x : X)
| Issued (input : RequestInfo) (init : option RequestInit).

(** The browser: it answers each effect and moves on. *)
Definition Handler (W : Type) : Type := forall X : Type, Eff X -> W -> X * W.

(** A program run to its end, every await answered in turn. *)
Fixpoint run {W A : Type} (h : Handler W) (p : Prog A) (w : W) : A * W * list Event :=
  match p with
  | Ret a => (a, w, [])
  | Do e k =>
      let '(x, w1) := h _ e w in
      let '(a, w2, tr) := run h (k x) w1 in
      (a, w2, Ev e x :: tr)
  end.

Definition result {W A : Type} (o : A * W * list Event) : A := fst (fst o).
Definition trace {W A : Type} (o : A * W * list Event) : list Event := snd o.

Definition urlOf (input : RequestInfo) : string :=
  match input with
  | InputString s => s
  | InputURL href => href
  | InputRequest url => url
  end.

Definition postWithCredentials : option RequestInit :=
  Some (mkRequestInit "POST" "include").

Definition refreshInput : RequestInfo := InputString "/api/auth/refresh".
Definition logoutInput : RequestInfo := InputString "/api/logout".

Definition Fetch : Type := RequestInfo -> option RequestInit -> Prog FetchResult.

Definition originalFetch : Fetch :=
  fun input init => perform (OriginalFetch input init).

(** Logout, then the local clearing when the logout call fails, then the
    redirect to the login page.  [fetchFn] is the function the call goes
    through: [window.fetch] or [originalFetch]. *)
Definition logoutAndRedirect (fetchFn : Fetch) : Prog unit :=
  r <- fetchFn logoutInput postWithCredentials ;;
  match r with
  | Fulfilled _ => perform SetLocationHref
  | Rejected => perform ClearAuthCookie ;; perform SetLocationHref
  end.

(** The asynchronous function whose promise [refreshPromise] holds.  Its
    [finally] block writes the shared variables and belongs to the
    coordinator below. *)
Definition refreshBody (windowFetch : Fetch) : Prog bool :=
  r <- windowFetch refreshInput postWithCredentials ;;
  match r with
  | Rejected => Ret false
  | Fulfilled response =>
      if ok response then Ret true
      else if ((status response =? 401) || (status response =? 403))%Z
      then
        path <- perform LocationPathname ;;
        if path =? "/login" then Ret false
        else logoutAndRedirect windowFetch ;; Ret false
      else Ret false
  end.

Section Config.

Variable TOKEN_CONFIG : TokenConfig.

(** The chain [fetch(..).catch(..).finally(..)] of the expired branch is not
    awaited: the check returns [false] once the logout call is sent, and the
    callbacks of the chain (the local clearing and the redirect) run when
    that call settles, which is after the wrapper has sent the request.  The
    trace records the chain where it is built, as one block: for this branch
    the place of the clearing and of the redirect in a trace is the place
    where they were started, not their place in time.  Results, and which
    effects a run has and how many, do not depend on that. *)
Definition shouldRefreshToken (windowFetch : Fetch) : Prog bool :=
  authInfo <- perform GetAuthInfoFromBrowserCookie ;;
  match authInfo with
  | None => Ret false
  | Some a =>
      if negb (JS.truthy_number (Auth.timestamp a)) ||
         negb (JS.truthy_number (Auth.refreshExpires a))
      then Ret false
      else
        match Auth.timestamp a, Auth.refreshExpires a with
        | Some timestamp, Some refreshExpires =>
            now <- perform DateNow ;;
            if (now >=? refreshExpires)%Z
            then logoutAndRedirect windowFetch ;; Ret false
            else
              let age := (now - timestamp)%Z in
              let remaining := (ACCESS_TOKEN_AGE TOKEN_CONFIG - age)%Z in
              Ret (remaining <? RENEWAL_THRESHOLD TOKEN_CONFIG)%Z
        | _, _ => Ret false
        end
  end.

Definition isExcluded (url : string) : bool :=
  JS.includes url "/api/auth/refresh" ||
  JS.includes url "/api/login" ||
  JS.includes url "/api/logout" ||
  JS.includes url "/api/register" ||
  JS.includes url "/api/auth/oidc".

Definition isAuthError (responseText : string) : bool :=
  JS.includes responseText "Unauthorized" ||
  JS.includes responseText "Refresh token expired" ||
  JS.includes responseText "Access token expired".

(** Lines 447-501: what the wrapper does with the response of the request. *)
Definition handleResponse (input : RequestInfo) (init : option RequestInit)
    (response : Response) : Prog FetchResult :=
  if (status response =? 401)%Z
  then
    path <- perform LocationPathname ;;
    if path =? "/login" then Ret (Fulfilled response)
    else
      match text response with
      | None => Ret (Fulfilled response)
      | Some responseText =>
          if isAuthError responseText
          then
            refreshed <- perform AwaitRefreshToken ;;
            if (refreshed : bool)
            then
              retried <- originalFetch input init ;;
              match retried with
              | Rejected => Ret (Fulfilled response)
              | Fulfilled response' =>
                  if (status response' =? 401)%Z
                  then
                    path' <- perform LocationPathname ;;
                    if path' =? "/login" then Ret (Fulfilled response')
                    else logoutAndRedirect originalFetch ;; Ret (Fulfilled response')
                  else Ret (Fulfilled response')
              end
            else Ret (Fulfilled response)
          else Ret (Fulfilled response)
      end
  else Ret (Fulfilled response).

(** Lines 437-441: the check before the request. *)
Definition refreshProactively (windowFetch : Fetch) : Prog unit :=
  due <- shouldRefreshToken windowFetch ;;
  if (due : bool) then perform AwaitRefreshToken ;; Ret tt else Ret tt.

(** The function assigned to [window.fetch], given the function that
    [window.fetch] names when the body runs. *)
Definition wrapFetch (windowFetch : Fetch) : Fetch :=
  fun input init =>
    let url := urlOf input in
    if isExcluded url then originalFetch input init
    else
      refreshProactively windowFetch ;;
      r <- originalFetch input init ;;
      match r with
      | Rejected => Ret Rejected
      | Fulfilled response => handleResponse input init response
      end.

(** [window.fetch] after the assignment: the wrapper, whose own calls of
    [window.fetch] reach the wrapper again. *)
Definition windowFetch : Fetch := wrapFetch (wrapFetch originalFetch).

End Config.

(** *** The renewal coordinator

    [isRefreshing] and [refreshPromise] are shared by every call of
    [refreshToken].  Tasks are cooperative: a task runs from one await to the
    next without interruption, and the only awaits of [refreshBody] are its
    network calls.  A promise is named by its position in [promises]; the
    promise an [async] call of [refreshToken] returns settles as the promise
    it names. *)

Inductive Task :=
| Awaiting {X : Type} (e : Eff X) (k : X -> Prog bool)
| Settled (b : bool).

Definition isAwait {X : Type} (e : Eff X) : bool :=
  match e with
  | OriginalFetch _ _ => true
  | _ => false
  end.

Definition issuedBy {X : Type} (e : Eff X) : list Event :=
  match e with
  | OriginalFetch input init => [Issued input init]
  | _ => []
  end.

(** The answer of the network, at the type the awaited effect expects. *)
Definition answerTo {X : Type} (e : Eff X) (r : FetchResult) : option X :=
  match e in Eff X return option X with
  | OriginalFetch _ _ => Some r
  | _ => None
  end.

(** A task run up to its next await, or to its end. *)
Fixpoint runToAwait {W : Type} (h : Handler W) (p : Prog bool) (w : W)
    : Task * W * list Event :=
  match p with
  | Ret b => (Settled b, w, [])
  | Do e k =>
      if isAwait e then (Awaiting e k, w, issuedBy e)
      else
        let '(x, w1) := h _ e w in
        let '(t, w2, tr) := runToAwait h (k x) w1 in
        (t, w2, Ev e x :: tr)
  end.

Fixpoint setNth {A : Type} (n : nat) (x : A) (l : list A) : list A :=
  match l with
  | [] => []
  | y :: t =>
      match n with
      | O => x :: t
      | S n' => y :: setNth n' x t
      end
  end.

Record Coordinator (W : Type) := mkCoordinator {
  isRefreshing : bool;
  refreshPromise : option nat;
  promises : list Task;
  browser : W;
  log : list Event
}.

Arguments mkCoordinator {W}.
Arguments isRefreshing {W}.
Arguments refreshPromise {W}.
Arguments promises {W}.
Arguments browser {W}.
Arguments log {W}.

Definition start {W : Type} (w : W) : Coordinator W :=
  mkCoordinator false None [] w [].

Section Coordinate.

Variable TOKEN_CONFIG : TokenConfig.
Context {W : Type}.
Variable h : Handler W.

(** One call of [refreshToken]: the promise handed to the caller and the
    state the call leaves.  The asynchronous function runs to its first await
    before [refreshPromise] is assigned; were it to end before any await, its
    [finally] block would have run before that assignment. *)
Definition refreshToken (s : Coordinator W) : nat * Coordinator W :=
  match isRefreshing s, refreshPromise s with
  | true, Some p => (p, s)
  | _, _ =>
      let p := List.length (promises s) in
      let '(t, w, tr) :=
        runToAwait h (refreshBody (windowFetch TOKEN_CONFIG)) (browser s) in
      match t with
      | Awaiting _ _ =>
          (p, mkCoordinator true (Some p) (promises s ++ [t]) w (log s ++ tr))
      | Settled _ =>
          (p, mkCoordinator false (Some p) (promises s ++ [t]) w (log s ++ tr))
      end
  end.

(** The network call that promise [p] awaits settles with [r]: the task goes
    on to its next await, or ends, and then its [finally] block clears the
    shared variables before the promise settles. *)
Definition deliver (p : nat) (r : FetchResult) (s : Coordinator W) : Coordinator W :=
  match nth_error (promises s) p with
  | Some (Awaiting e k) =>
      match answerTo e r with
      | Some x =>
          let '(t, w, tr) := runToAwait h (k x) (browser s) in
          match t with
          | Awaiting _ _ =>
              mkCoordinator (isRefreshing s) (refreshPromise s)
                (setNth p t (promises s)) w (log s ++ Ev e x :: tr)
          | Settled _ =>
              mkCoordinator false None
                (setNth p t (promises s)) w (log s ++ Ev e x :: tr)
          end
      | None => s
      end
  | _ => s
  end.

Inductive Step :=
| Call
| Deliver (p : nat) (r : FetchResult).

(** A schedule run from a state: the state reached and the promises handed
    to the callers, in the order of their calls. *)
Fixpoint exec (steps : list Step) (s : Coordinator W) : Coordinator W * list nat :=
  match steps with
  | [] => (s, [])
  | Call :: rest =>
      let '(p, s1) := refreshToken s in
      let '(s2, ps) := exec rest s1 in
      (s2, p :: ps)
  | Deliver p r :: rest => exec rest (deliver p r s)
  end.

End Coordinate.

(** What a caller that holds promise [p] observes once it has settled. *)
Definition outcome {W : Type} (s : Coordinator W) (p : nat) : option bool :=
  match nth_error (promises s) p with
  | Some (Settled b) => Some b
  | _ => None
  end.

Definition isPending {W : Type} (s : Coordinator W) (p : nat) : bool :=
  match nth_error (promises s) p with
  | Some (Awaiting _ _) => true
  | _ => false
  end.

(** *** Counting in traces *)

Definition requestInfo_eqb (a b : RequestInfo) : bool :=
  match a, b with
  | InputString x, InputString y => x =? y
  | InputURL x, InputURL y => x =? y
  | InputRequest x, InputRequest y => x =? y
  | _, _ => false
  end.

Definition requestInit_eqb (a b : option RequestInit) : bool :=
  match a, b with
  | None, None => true
  | Some x, Some y => (method x =? method y) && (credentials x =? credentials y)
  | _, _ => false
  end.

(** An invocation of the original request function on [input], [init]. *)
Definition isRequest (input : RequestInfo) (init : option RequestInit) (ev : Event) : bool :=
  match ev with
  | Ev e _ =>
      match e with
      | OriginalFetch i n => requestInfo_eqb i input && requestInit_eqb n init
      | _ => false
      end
  | Issued _ _ => false
  end.

(** An invocation of the original request function, whatever its arguments. *)
Definition isOriginalFetch (ev : Event) : bool :=
  match ev with
  | Ev e _ => isAwait e
  | Issued _ _ => false
  end.

Definition isRenewal (ev : Event) : bool :=
  match ev with
  | Ev e _ => match e with AwaitRefreshToken => true | _ => false end
  | Issued _ _ => false
  end.

Definition isRedirect (ev : Event) : bool :=
  match ev with
  | Ev e _ => match e with SetLocationHref => true | _ => false end
  | Issued _ _ => false
  end.

Definition isLogoutCall (ev : Event) : bool :=
  match ev with
  | Ev e _ =>
      match e with
      | OriginalFetch i _ => urlOf i =? "/api/logout"
      | _ => false
      end
  | Issued _ _ => false
  end.

Definition isPathnameRead (ev : Event) : bool :=
  match ev with
  | Ev e _ => match e with LocationPathname => true | _ => false end
  | Issued _ _ => false
  end.

(** A renewal network call that was sent. *)
Definition isRenewalCall (ev : Event) : bool :=
  match ev with
  | Issued input _ => urlOf input =? "/api/auth/refresh"
  | Ev _ _ => false
  end.

Definition count (f : Event -> bool) (tr : list Event) : nat :=
  List.length (filter f tr).

(** The events of the termination sequence: the logout call, the local
    clearing when that call failed, the redirect. *)
Definition terminationEvents (r : FetchResult) : list Event :=
  Ev (OriginalFetch logoutInput postWithCredentials) r ::
  match r with
  | Rejected => [Ev ClearAuthCookie tt; Ev SetLocationHref tt]
  | Fulfilled _ => [Ev SetLocationHref tt]
  end.

(** *** A scripted browser

    The cookie and the clock are fixed; the successive values of
    [location.pathname], the successive answers of the network and the
    successive outcomes of [refreshToken] are read off lists. *)

Record Browser := mkBrowser {
  cookieAuth : option Auth.AuthInfo;
  clock : Z;
  pathnames : list string;
  answers : list FetchResult;
  renewals : list bool
}.

Definition browse : Handler Browser :=
  fun X e =>
    match e in Eff X return Browser -> X * Browser with
    | GetAuthInfoFromBrowserCookie => fun w => (cookieAuth w, w)
    | DateNow => fun w => (clock w, w)
    | LocationPathname => fun w =>
        match pathnames w with
        | [] => ("/", w)
        | p :: ps => (p, mkBrowser (cookieAuth w) (clock w) ps (answers w) (renewals w))
        end
    | OriginalFetch _ _ => fun w =>
        match answers w with
        | [] => (Rejected, w)
        | r :: rs => (r, mkBrowser (cookieAuth w) (clock w) (pathnames w) rs (renewals w))
        end
    | AwaitRefreshToken => fun w =>
        match renewals w with
        | [] => (false, w)
        | b :: bs => (b, mkBrowser (cookieAuth w) (clock w) (pathnames w) (answers w) bs)
        end
    | ClearAuthCookie => fun w => (tt, w)
    | SetLocationHref => fun w => (tt, w)
    end.

(** The scripted browser while the page shown is the login page. *)
Definition browseOnLogin : Handler Browser :=
  fun X e =>
    match e in Eff X return Browser -> X * Browser with
    | LocationPathname => fun w => ("/login", w)
    | GetAuthInfoFromBrowserCookie => browse _ GetAuthInfoFromBrowserCookie
    | DateNow => browse _ DateNow
    | OriginalFetch input init => browse _ (OriginalFetch input init)
    | AwaitRefreshToken => browse _ AwaitRefreshToken
    | ClearAuthCookie => browse _ ClearAuthCookie
    | SetLocationHref => browse _ SetLocationHref
    end.

End TokenRefreshManager.

(** ** The statements of the design *)

Module Design.

Import TokenRefreshManager.

(** Renewal is due, in the words of the expiry policy: the record is there,
    it carries both instants, the long-lived credential has not lapsed, and
    the remaining lifetime of the access credential is under the threshold. *)
Definition renewalDue (cfg : TokenConfig) (authInfo : option Auth.AuthInfo) (now : Z) : Prop :=
  exists a timestamp refreshExpires,
    authInfo = Some a /\
    Auth.timestamp a = Some timestamp /\
    Auth.refreshExpires a = Some refreshExpires /\
    (now < refreshExpires)%Z /\
    (ACCESS_TOKEN_AGE cfg - (now - timestamp) < RENEWAL_THRESHOLD cfg)%Z.

(** The same with the test the code makes of the two instants: a member that
    is [0] counts as a member that is not there. *)
Definition renewalDueNonZero (cfg : TokenConfig) (authInfo : option Auth.AuthInfo) (now : Z) : Prop :=
  exists a timestamp refreshExpires,
    authInfo = Some a /\
    Auth.timestamp a = Some timestamp /\
    Auth.refreshExpires a = Some refreshExpires /\
    timestamp <> 0%Z /\
    refreshExpires <> 0%Z /\
    (now < refreshExpires)%Z /\
    (ACCESS_TOKEN_AGE cfg - (now - timestamp) < RENEWAL_THRESHOLD cfg)%Z.

(** The configuration of the scenarios of the design: an access credential
    of fifteen minutes, renewed when under ten minutes remain. *)
Definition scenarioConfig : TokenConfig := mkTokenConfig 900000 600000.

Definition credential (timestamp refreshExpires : Z) : Auth.AuthInfo :=
  Auth.mkAuthInfo None (Some "viewer") None (Some timestamp)
    (Some Auth.user) None None (Some refreshExpires).

(** A program that sends no renewal call. *)
Fixpoint noRenewalCall (p : Prog bool) : Prop :=
  match p with
  | Ret _ => True
  | Do e k => count isRenewalCall (issuedBy e) = 0 /\ forall x, noRenewalCall (k x)
  end.

Definition quietTask (t : Task) : Prop :=
  match t with
  | Settled _ => True
  | Awaiting e k => forall x, noRenewalCall (k x)
  end.

(** The invariant of the coordinator: a promise that has not settled is the
    one [refreshPromise] holds, with [isRefreshing] set; and what is left of
    a renewal in flight sends no second renewal call. *)
Definition coherent {W : Type} (s : Coordinator W) : Prop :=
  (forall q, isPending s q = true ->
             isRefreshing s = true /\ refreshPromise s = Some q) /\
  Forall quietTask (promises s).



(** Promise [p] has settled with [b] and the shared variables are cleared. *)
Definition settledAndCleared {W : Type} (s : Coordinator W) (p : nat) (b : bool) : Prop :=
  outcome s p = Some b /\ isRefreshing s = false /\ refreshPromise s = None.

(** What a renewal resolves to, from the answer of the renewal call. *)
Definition renewalOutcome (r : FetchResult) : bool :=
  match r with
  | Fulfilled response => ok response
  | Rejected => false
  end.

(** How the task goes on from the answer of its renewal call: it ends with
    [renewalOutcome], or it was refused, awaits the logout call and ends
    with [false] whatever that call answers. *)
Definition goesOn (k : FetchResult -> Prog bool) : Prop :=
  forall (W : Type) (h : Handler W) (r : FetchResult) (w : W),
    fst (fst (runToAwait h (k r) w)) = Settled (renewalOutcome r) \/
    (renewalOutcome r = false /\
     exists k',
       fst (fst (runToAwait h (k r) w)) =
         Awaiting (OriginalFetch logoutInput postWithCredentials) k' /\
       forall (r' : FetchResult) (w' : W),
         fst (fst (runToAwait h (k' r') w')) = Settled false).

(** A request with the given Authorization header and [auth] cookie. *)
Definition requestWith (authorization cookie : option string) : Auth.NextRequest :=
  Auth.mkNextRequest
    (fun name => if name =? "authorization" then authorization else None)
    (fun name => if name =? "auth" then cookie else None).

End Design.

(** ** lib/auth: the reader of the browser cookie *)

Module AuthClient.

Fixpoint allChars (f : ascii -> bool) (s : string) : bool :=
  match s with
  | EmptyString => true
  | String c s' => f c && allChars f s'
  end.

(** A text without whitespace. *)
Definition noWhiteSpace (s : string) : bool :=
  allChars (fun c => negb (JS.isWhiteSpace c)) s.

(** A text without a semicolon. *)
Definition semicolonFree (s : string) : bool :=
  allChars (fun c => negb (Ascii.eqb c ";")) s.

(** [s.split(sep)] for a separator of one character. *)
Fixpoint split (sep : ascii) (s : string) : list string :=
  match s with
  | EmptyString => [EmptyString]
  | String c s' =>
      if Ascii.eqb c sep then EmptyString :: split sep s'
      else match split sep s' with
           | x :: xs => String c x :: xs
           | [] => [String c EmptyString]
           end
  end.

(** [s.indexOf(c)]: the first position of [c], or [-1]. *)
Fixpoint indexOf (c : ascii) (s : string) : Z :=
  match s with
  | EmptyString => (-1)%Z
  | String d s' =>
      if Ascii.eqb d c then 0%Z
      else let i := indexOf c s' in
           if (i <? 0)%Z then (-1)%Z else (i + 1)%Z
  end.

(** [s.substring(start, finish)]: both ends are brought into the text and
    put in order. *)
Definition substring (s : string) (start finish : Z) : string :=
  let len := Z.of_nat (String.length s) in
  let a := Z.max 0 (Z.min start len) in
  let b := Z.max 0 (Z.min finish len) in
  let lo := Z.min a b in
  let hi := Z.max a b in
  String.substring (Z.to_nat lo) (Z.to_nat (hi - lo)) s.

(** [s.substring(start)] *)
Definition substringFrom (s : string) (start : Z) : string :=
  substring s start (Z.of_nat (String.length s)).

(** The object the cookies are gathered in, as its assignments, the latest
    first; only the member [auth] is ever read. *)
Definition Cookies : Type := list (string * string).

Fixpoint get (key : string) (acc : Cookies) : option string :=
  match acc with
  | [] => None
  | (k, v) :: rest => if k =? key then Some v else get key rest
  end.

(** The function given to [reduce] (lines 89-101). *)
Definition addCookie (acc : Cookies) (cookie : string) : Cookies :=
  let trimmed := JS.trim cookie in
  let firstEqualIndex := indexOf "=" trimmed in
  if (firstEqualIndex >? 0)%Z
  then
    let key := substring trimmed 0 firstEqualIndex in
    let value := substringFrom trimmed (firstEqualIndex + 1) in
    if negb (key =? "") && negb (value =? "") then (key, value) :: acc else acc
  else acc.

Section Reader.

Variable decodeURIComponent : string -> option string.
Variable JSON_parse : string -> option Auth.AuthInfo.

(** [documentCookie] is [document.cookie]; it is [None] where there is no
    [window] and where reading the cookie throws. *)
Definition getAuthInfoFromBrowserCookie (documentCookie : option string)
    : option Auth.AuthInfo :=
  match documentCookie with
  | None => None
  | Some text =>
      let cookies := fold_left addCookie (split ";" text) [] in
      match get "auth" cookies with
      | None => None
      | Some authCookie =>
          if authCookie =? "" then None
          else Auth.parseAuthInfo decodeURIComponent JSON_parse (Some authCookie)
      end
  end.

(** [checkLoginStatus] of the provider (lines 124-128): the value it gives
    to [setIsLoggedIn]. *)
Definition checkLoginStatus (documentCookie : option string) : bool :=
  match getAuthInfoFromBrowserCookie documentCookie with
  | Some authInfo => JS.truthy_string (Auth.username authInfo)
  | None => false
  end.

End Reader.

(** The text a browser gives for a list of cookies: [name=value] pairs
    joined by a semicolon and a space. *)
Definition renderCookies (pairs : list (string * string)) : string :=
  String.concat "; " (map (fun p => fst p ++ "=" ++ snd p) pairs).

(** The value of the last pair of that name. *)
Fixpoint lastValue (name : string) (pairs : list (string * string)) : option string :=
  match pairs with
  | [] => None
  | (k, v) :: rest =>
      match lastValue name rest with
      | Some x => Some x
      | None => if k =? name then Some v else None
      end
  end.

(** The characters of cookie names and values: no whitespace and no
    semicolon; a name holds no equals sign either; neither is empty. *)
Definition cookieValue (v : string) : bool :=
  negb (v =? "") &&
  allChars (fun c => negb (JS.isWhiteSpace c) && negb (Ascii.eqb c ";")) v.

Definition cookieName (k : string) : bool :=
  cookieValue k && allChars (fun c => negb (Ascii.eqb c "=")) k.

Definition cookiePair (p : string * string) : bool :=
  cookieName (fst p) && cookieValue (snd p).

(** A cookie as it stands in a cookie text, with the whitespace before and
    after it. *)
Record Segment := mkSegment {
  padBefore : string;
  namedValue : string * string;
  padAfter : string
}.

Definition segmentText (s : Segment) : string :=
  padBefore s ++ fst (namedValue s) ++ "=" ++ snd (namedValue s) ++ padAfter s.

(** A cookie text: cookies joined by semicolons. *)
Definition renderSegments (segs : list Segment) : string :=
  String.concat ";" (map segmentText segs).

Definition segmentOk (s : Segment) : bool :=
  JS.allWhiteSpace (padBefore s) && cookiePair (namedValue s) &&
  JS.allWhiteSpace (padAfter s).

(** The segments of the text a browser gives: a space after each
    semicolon. *)
Definition browserSegments (pairs : list (string * string)) : list Segment :=
  match pairs with
  | [] => []
  | p :: ps => mkSegment "" p "" :: map (fun q => mkSegment " " q "") ps
  end.

End AuthClient.

(** ** components/WatchRoomProvider.tsx: the provider

    [loadConfig] and [manualReconnect] each ask every question they ask at
    most once, so a run is given by the answers and yields the list of what
    was done. *)

Module WatchRoom.

(** [WatchRoomConfig] of [types/watch-room], from the members the provider
    reads and writes. *)
Record WatchRoomConfig := mkWatchRoomConfig {
  enabled : bool;
  serverType : string;
  externalServerUrl : option string;
  externalServerAuth : option string
}.

(** The member [WatchRoom] of the data of [/api/server-config]. *)
Record WatchRoomData := mkWatchRoomData {
  dataEnabled : option bool;
  dataServerType : option string;
  dataExternalServerUrl : option string
}.

(** [await response.json()] and the first member read off it: [JsonFails]
    when parsing throws or the data is [null], so that reading a member
    throws. *)
Inductive Json (A : Type) : Type :=
| JsonFails
| JsonData (a : A).

Arguments JsonFails {A}.
Arguments JsonData {A} a.

Record Reply (A : Type) : Type := mkReply {
  replyStatus : Z;
  replyJson : Json A
}.

Arguments mkReply {A}.
Arguments replyStatus {A}.
Arguments replyJson {A}.

Definition replyOk {A : Type} (r : Reply A) : bool :=
  ((200 <=? replyStatus r) && (replyStatus r <=? 299))%Z.

Inductive Fetched (A : Type) : Type :=
| Answered (r : Reply A)
| Failed.

Arguments Answered {A} r.
Arguments Failed {A}.

(** What the environment answers to [loadConfig]: the two requests, the
    dynamic import of the socket manager, and [watchRoom.connect]. *)
Record Answers := mkAnswers {
  serverConfig : Fetched (option WatchRoomData);
  watchRoomAuth : Fetched (option string);
  importSucceeds : bool;
  connectSucceeds : bool
}.

Inductive Action :=
| RequestServerConfig
| RequestWatchRoomAuth
| ImportSocketManager
| SetReconnectCallbacks
| Connect (c : WatchRoomConfig)
| SetConfig (c : WatchRoomConfig)
| SetIsEnabled (b : bool).

Definition defaultConfig : WatchRoomConfig :=
  mkWatchRoomConfig false "internal" None None.

(** Both [catch] blocks and the branch of a refused configuration request. *)
Definition giveUp : list Action :=
  [SetConfig defaultConfig; SetIsEnabled false].

Definition configOfData (data : option WatchRoomData) : WatchRoomConfig :=
  match data with
  | Some d =>
      mkWatchRoomConfig
        (match dataEnabled d with Some b => b | None => false end)
        (match dataServerType d with Some t => t | None => "internal" end)
        (dataExternalServerUrl d)
        None
  | None => mkWatchRoomConfig false "internal" None None
  end.

Definition disable (c : WatchRoomConfig) : WatchRoomConfig :=
  mkWatchRoomConfig false (serverType c) (externalServerUrl c) (externalServerAuth c).

Definition withAuth (c : WatchRoomConfig) (auth : option string) : WatchRoomConfig :=
  mkWatchRoomConfig (enabled c) (serverType c) (externalServerUrl c) auth.

(** Lines 186-208: the request for the credentials of an external server. *)
Definition loadExternalAuth (isLoggedIn : bool) (env : Answers) (c : WatchRoomConfig)
    : list Action * WatchRoomConfig :=
  if (serverType c =? "external") && enabled c
  then
    if negb isLoggedIn then ([], c)
    else
      ([RequestWatchRoomAuth],
       match watchRoomAuth env with
       | Failed => disable c
       | Answered authResponse =>
           if replyOk authResponse
           then match replyJson authResponse with
                | JsonFails => disable c
                | JsonData auth => withAuth c auth
                end
           else disable c
       end)
  else ([], c).

(** Lines 213-232: the connection, made when the configuration enables the
    watch room. *)
Definition connectIfEnabled (env : Answers) (c : WatchRoomConfig) : list Action :=
  if enabled c
  then
    ImportSocketManager ::
    (if importSucceeds env
     then SetReconnectCallbacks :: Connect c ::
          (if connectSucceeds env then [] else giveUp)
     else giveUp)
  else [].

Definition loadConfig (isLoggedIn : bool) (env : Answers) : list Action :=
  RequestServerConfig ::
  match serverConfig env with
  | Failed => giveUp
  | Answered response =>
      if replyOk response
      then match replyJson response with
           | JsonFails => giveUp
           | JsonData data =>
               let '(asked, watchRoomConfig) :=
                 loadExternalAuth isLoggedIn env (configOfData data) in
               (asked ++
                [SetConfig watchRoomConfig; SetIsEnabled (enabled watchRoomConfig)] ++
                connectIfEnabled env watchRoomConfig)%list
           end
      else giveUp
  end.

(** The state [isEnabled] and the state [config] after the actions. *)
Fixpoint lastIsEnabled (acts : list Action) : option bool :=
  match acts with
  | [] => None
  | a :: rest =>
      match lastIsEnabled rest with
      | Some b => Some b
      | None => match a with SetIsEnabled b => Some b | _ => None end
      end
  end.

Fixpoint lastConfig (acts : list Action) : option WatchRoomConfig :=
  match acts with
  | [] => None
  | a :: rest =>
      match lastConfig rest with
      | Some c => Some c
      | None => match a with SetConfig c => Some c | _ => None end
      end
  end.

Definition isConnect (a : Action) : bool :=
  match a with
  | Connect _ => true
  | _ => false
  end.

Definition isAuthRequest (a : Action) : bool :=
  match a with
  | RequestWatchRoomAuth => true
  | _ => false
  end.

(** *** manualReconnect (lines 140-168) *)






End WatchRoom.

(** ** TokenRefreshManager: putting the wrapper in place and taking it out *)

Module Install.

(** What [window.fetch] names: the function found at the first mount, or a
    wrapper that has captured what [window.fetch] named when it was made. *)
Inductive FetchSlot :=
| Native
| Wrapper (captured : FetchSlot).

Record Window := mkWindow {
  (** [RUNTIME_CONFIG?.STORAGE_TYPE] *)
  storageTypeSetting : option string;
  fetchSlot : FetchSlot
}.

(** [RUNTIME_CONFIG?.STORAGE_TYPE || 'localstorage'] *)
Definition storageType (w : Window) : string :=
  if JS.truthy_string (storageTypeSetting w)
  then match storageTypeSetting w with Some t => t | None => "localstorage" end
  else "localstorage".

(** The function the effect returns: it puts back what it had captured. *)
Definition Cleanup : Type := FetchSlot.

Definition runCleanup (c : Cleanup) (w : Window) : Window :=
  mkWindow (storageTypeSetting w) c.

(** The effect of the component (lines 315-320, 419-422, 505-507): the
    window it leaves and the cleanup it returns, if any. *)
Definition mount (w : Window) : Window * option Cleanup :=
  if storageType w =? "localstorage" then (w, None)
  else (mkWindow (storageTypeSetting w) (Wrapper (fetchSlot w)), Some (fetchSlot w)).

(** Mounting [n] times: the window and the cleanups, the latest first. *)
Fixpoint mountTimes (n : nat) (w : Window) : Window * list Cleanup :=
  match n with
  | O => (w, [])
  | S n' =>
      let '(w1, cs) := mountTimes n' w in
      match mount w1 with
      | (w2, Some c) => (w2, c :: cs)
      | (w2, None) => (w2, cs)
      end
  end.

Definition runCleanups (cs : list Cleanup) (w : Window) : Window :=
  fold_left (fun w c => runCleanup c w) cs w.

End Install.

(** ** The ways through the response handler *)

Module Paths.

Import TokenRefreshManager.

(** What the handler of lines 447-501 gives back and what it does, way by
    way: [Handled input init response res tr] reads "on [response] the
    handler can return [res] after the events [tr]". *)
Inductive Handled (input : RequestInfo) (init : option RequestInit) (response : Response)
    : FetchResult -> list Event -> Prop :=
| handled_other :
    status response <> 401%Z ->
    Handled input init response (Fulfilled response) []
| handled_on_login :
    status response = 401%Z ->
    Handled input init response (Fulfilled response) [Ev LocationPathname "/login"]
| handled_unreadable (path : string) :
    status response = 401%Z -> path <> "/login" ->
    text response = None ->
    Handled input init response (Fulfilled response) [Ev LocationPathname path]
| handled_unrecognized (path body : string) :
    status response = 401%Z -> path <> "/login" ->
    text response = Some body -> isAuthError body = false ->
    Handled input init response (Fulfilled response) [Ev LocationPathname path]
| handled_not_renewed (path body : string) :
    status response = 401%Z -> path <> "/login" ->
    text response = Some body -> isAuthError body = true ->
    Handled input init response (Fulfilled response)
      [Ev LocationPathname path; Ev AwaitRefreshToken false]
| handled_replay_failed (path body : string) :
    status response = 401%Z -> path <> "/login" ->
    text response = Some body -> isAuthError body = true ->
    Handled input init response (Fulfilled response)
      [Ev LocationPathname path; Ev AwaitRefreshToken true;
       Ev (OriginalFetch input init) Rejected]
| handled_replayed (path body : string) (response' : Response) :
    status response = 401%Z -> path <> "/login" ->
    text response = Some body -> isAuthError body = true ->
    status response' <> 401%Z ->
    Handled input init response (Fulfilled response')
      [Ev LocationPathname path; Ev AwaitRefreshToken true;
       Ev (OriginalFetch input init) (Fulfilled response')]
| handled_replay_on_login (path body : string) (response' : Response) :
    status response = 401%Z -> path <> "/login" ->
    text response = Some body -> isAuthError body = true ->
    status response' = 401%Z ->
    Handled input init response (Fulfilled response')
      [Ev LocationPathname path; Ev AwaitRefreshToken true;
       Ev (OriginalFetch input init) (Fulfilled response');
       Ev LocationPathname "/login"]
| handled_terminated (path body : string) (response' : Response) (path' : string)
    (r : FetchResult) :
    status response = 401%Z -> path <> "/login" ->
    text response = Some body -> isAuthError body = true ->
    status response' = 401%Z -> path' <> "/login" ->
    Handled input init response (Fulfilled response')
      (Ev LocationPathname path :: Ev AwaitRefreshToken true ::
       Ev (OriginalFetch input init) (Fulfilled response') ::
       Ev LocationPathname path' :: terminationEvents r).

(** The shared variables and the promises agree: [refreshPromise] holds a
    promise exactly while [isRefreshing] is set, and that promise has not
    settled. *)
Definition inFlight {W : Type} (s : Coordinator W) : Prop :=
  match refreshPromise s with
  | Some p => isRefreshing s = true /\ isPending s p = true
  | None => isRefreshing s = false
  end.

(** The five fragments of lines 428-432. *)
Definition excludedFragments : list string :=
  ["/api/auth/refresh"; "/api/login"; "/api/logout"; "/api/register"; "/api/auth/oidc"].

End Paths.

(** * Properties *)

Import TokenRefreshManager Design.

(** ** Running programs *)

Lemma run_bind :
  forall (W A B : Type) (h : Handler W) (p : Prog A) (f : A -> Prog B) (w : W),
    run h (bind p f) w =
    let '(a, w1, t1) := run h p w in
    let '(b, w2, t2) := run h (f a) w1 in
    (b, w2, (t1 ++ t2)%list).
Proof.
  intros W A B h p f. induction p as [a | X e k IH]; intro w; simpl.
  - destruct (run h (f a) w) as [[b w2] t2]. reflexivity.
  - destruct (h X e w) as [x w1]. rewrite IH.
    destruct (run h (k x) w1) as [[a w2] t1].
    destruct (run h (f a) w2) as [[b w3] t2]. reflexivity.
Qed.

Lemma run_perform :
  forall (W X : Type) (h : Handler W) (e : Eff X) (w : W),
    run h (perform e) w = (fst (h X e w), snd (h X e w), [Ev e (fst (h X e w))]).
Proof.
  intros. unfold perform. simpl. destruct (h X e w). reflexivity.
Qed.

Lemma count_app :
  forall (f : Event -> bool) (a b : list Event),
    count f (a ++ b)%list = count f a + count f b.
Proof.
  intros. unfold count. rewrite filter_app, length_app. reflexivity.
Qed.

Lemma count_cons :
  forall (f : Event -> bool) (a : Event) (l : list Event),
    count f (a :: l) = (if f a then 1 else 0) + count f l.
Proof.
  intros. unfold count. simpl. destruct (f a); reflexivity.
Qed.

(** [window.fetch] on the logout and renewal addresses is the original
    function: both addresses are excluded. *)
Lemma windowFetch_logout :
  forall cfg init, windowFetch cfg logoutInput init = originalFetch logoutInput init.
Proof. reflexivity. Qed.

Lemma windowFetch_refresh :
  forall cfg init, windowFetch cfg refreshInput init = originalFetch refreshInput init.
Proof. reflexivity. Qed.

(** ** The expiry policy *)

Lemma truthy_number_some :
  forall v, JS.truthy_number v = true <-> exists z, v = Some z /\ z <> 0%Z.
Proof.
  intros [z |]; simpl.
  - rewrite negb_true_iff, Z.eqb_neq. split.
    + intro Hz. exists z. split; [reflexivity | exact Hz].
    + intros [z' [Hz' Hne]]. injection Hz' as ->. exact Hne.
  - split; [discriminate | intros [z [Hz _]]; discriminate].
Qed.

Lemma run_then_ret :
  forall (W A B : Type) (h : Handler W) (p : Prog A) (b : B) (w : W),
    result (run h (bind p (fun _ => Ret b)) w) = b.
Proof.
  intros. rewrite run_bind. destruct (run h p w) as [[a w1] t1]. reflexivity.
Qed.

(** The value [shouldRefreshToken] returns, from the cookie and the clock it
    reads. *)
Lemma shouldRefreshToken_result :
  forall cfg (W : Type) (h : Handler W) (wf : Fetch) (w w1 w2 : W) authInfo now,
    h _ GetAuthInfoFromBrowserCookie w = (authInfo, w1) ->
    h _ DateNow w1 = (now, w2) ->
    result (run h (shouldRefreshToken cfg wf) w) =
    match authInfo with
    | Some a =>
        match Auth.timestamp a, Auth.refreshExpires a with
        | Some ts, Some re =>
            negb (ts =? 0)%Z && negb (re =? 0)%Z && (now <? re)%Z &&
            (ACCESS_TOKEN_AGE cfg - (now - ts) <? RENEWAL_THRESHOLD cfg)%Z
        | _, _ => false
        end
    | None => false
    end.
Proof.
  intros cfg W h wf w w1 w2 authInfo now Hc Hn.
  unfold shouldRefreshToken. rewrite run_bind, run_perform, Hc. simpl.
  destruct authInfo as [a |]; [| reflexivity].
  destruct (Auth.timestamp a) as [ts |], (Auth.refreshExpires a) as [re |];
    simpl; try reflexivity;
    try (destruct (ts =? 0)%Z; reflexivity).
  destruct (ts =? 0)%Z; simpl; [reflexivity |].
  destruct (re =? 0)%Z; simpl; [reflexivity |].
  rewrite Hn.
  destruct (now >=? re)%Z eqn:Hge.
  - replace (now <? re)%Z with false by (symmetry; apply Z.ltb_ge; apply Z.geb_le in Hge; lia).
    simpl.
    pose proof (run_then_ret W unit bool h (logoutAndRedirect wf) false w2) as Hr.
    unfold result in Hr.
    destruct (run h (logoutAndRedirect wf;; Ret false) w2) as [[b w3] t]. simpl in *. exact Hr.
  - replace (now <? re)%Z with true by (symmetry; apply Z.ltb_lt; rewrite Z.geb_leb in Hge; apply Z.leb_gt in Hge; lia).
    reflexivity.
Qed.

(** C3, as the design words it, fails on a record whose [timestamp] is [0]:
    every condition of the design holds and the check answers [false]. *)
Lemma shouldRefreshToken_zero_timestamp :
  ~ (forall (cfg : TokenConfig) (w : Browser),
       result (run browse (shouldRefreshToken cfg (windowFetch cfg)) w) = true <->
       renewalDue cfg (cookieAuth w) (clock w)).
Proof.
  intro H.
  specialize (H scenarioConfig (mkBrowser (Some (credential 0 2000000)) 1000000 [] [] [])).
  destruct H as [_ H].
  assert (Hdue : renewalDue scenarioConfig (Some (credential 0 2000000)) 1000000).
  { exists (credential 0 2000000), 0%Z, 2000000%Z. simpl. repeat split; lia. }
  specialize (H Hdue). vm_compute in H. discriminate H.
Qed.

(** C3, amended: [shouldRefreshToken] answers [true] exactly when the record
    is there, carries a [timestamp] and a [refreshExpires] that are not [0],
    the clock is before [refreshExpires], and the remaining lifetime is under
    the threshold; it answers [false] for no record and for a record that
    lacks either member. *)
Theorem shouldRefreshToken_true_iff :
  forall cfg (W : Type) (h : Handler W) (wf : Fetch) (w w1 w2 : W) authInfo now,
    h _ GetAuthInfoFromBrowserCookie w = (authInfo, w1) ->
    h _ DateNow w1 = (now, w2) ->
    (result (run h (shouldRefreshToken cfg wf) w) = true <->
     renewalDueNonZero cfg authInfo now) /\
    (authInfo = None -> result (run h (shouldRefreshToken cfg wf) w) = false) /\
    (forall a, authInfo = Some a ->
       Auth.timestamp a = None \/ Auth.refreshExpires a = None ->
       result (run h (shouldRefreshToken cfg wf) w) = false).
Proof.
  intros cfg W h wf w w1 w2 authInfo now Hc Hn.
  rewrite (shouldRefreshToken_result cfg W h wf w w1 w2 authInfo now Hc Hn).
  split; [| split].
  - unfold renewalDueNonZero. split.
    + destruct authInfo as [a |]; [| discriminate].
      destruct (Auth.timestamp a) as [ts |] eqn:Hts; [| discriminate].
      destruct (Auth.refreshExpires a) as [re |] eqn:Hre; [| discriminate].
      rewrite !andb_true_iff, !negb_true_iff, !Z.eqb_neq, !Z.ltb_lt.
      intros [[[H1 H2] H3] H4].
      exists a, ts, re. repeat split; assumption.
    + intros [a [ts [re [Ha [Hts [Hre [H1 [H2 [H3 H4]]]]]]]]].
      subst authInfo. rewrite Hts, Hre.
      rewrite !andb_true_iff, !negb_true_iff, !Z.eqb_neq, !Z.ltb_lt.
      repeat split; assumption.
  - intros ->. reflexivity.
  - intros a -> [Hm | Hm]; rewrite Hm; [reflexivity |].
    destruct (Auth.timestamp a); reflexivity.
Qed.

Lemma shouldRefreshToken_true_iff_witness :
  result (run browse
            (shouldRefreshToken scenarioConfig (windowFetch scenarioConfig))
            (mkBrowser (Some (credential 1000000 605800000)) 1360000 [] [] [])) = true <->
  renewalDueNonZero scenarioConfig (Some (credential 1000000 605800000)) 1360000.
Proof.
  refine (proj1 (shouldRefreshToken_true_iff scenarioConfig Browser browse
                   (windowFetch scenarioConfig)
                   (mkBrowser (Some (credential 1000000 605800000)) 1360000 [] [] [])
                   _ _ _ _ _ _)); reflexivity.
Defined.

(** ** Session termination *)

Lemma logoutAndRedirect_window :
  forall cfg, logoutAndRedirect (windowFetch cfg) = logoutAndRedirect originalFetch.
Proof. reflexivity. Qed.

Lemma run_logoutAndRedirect :
  forall (W : Type) (h : Handler W) (w w1 : W) (r : FetchResult),
    h _ (OriginalFetch logoutInput postWithCredentials) w = (r, w1) ->
    trace (run h (logoutAndRedirect originalFetch) w) = terminationEvents r.
Proof.
  intros W h w w1 r Hr. unfold logoutAndRedirect, originalFetch, perform, terminationEvents.
  simpl. rewrite Hr. destruct r as [resp |]; simpl.
  - destruct (h unit SetLocationHref w1) as [[] w2]. reflexivity.
  - destruct (h unit ClearAuthCookie w1) as [[] w2].
    destruct (h unit SetLocationHref w2) as [[] w3]. reflexivity.
Qed.

Lemma terminationEvents_counts :
  forall r,
    count isLogoutCall (terminationEvents r) = 1 /\
    count isRedirect (terminationEvents r) = 1 /\
    count isRenewal (terminationEvents r) = 0 /\
    count isPathnameRead (terminationEvents r) = 0.
Proof. intros [resp |]; repeat split; reflexivity. Qed.

(** The run of the check before the request on a credential whose
    [refreshExpires] has passed. *)
Lemma shouldRefreshToken_expired :
  forall cfg (W : Type) (h : Handler W) (w w1 w2 w3 : W) a ts re now r,
    h _ GetAuthInfoFromBrowserCookie w = (Some a, w1) ->
    Auth.timestamp a = Some ts ->
    Auth.refreshExpires a = Some re ->
    ts <> 0%Z -> re <> 0%Z ->
    h _ DateNow w1 = (now, w2) ->
    (now >= re)%Z ->
    h _ (OriginalFetch logoutInput postWithCredentials) w2 = (r, w3) ->
    result (run h (shouldRefreshToken cfg (windowFetch cfg)) w) = false /\
    trace (run h (shouldRefreshToken cfg (windowFetch cfg)) w) =
      Ev GetAuthInfoFromBrowserCookie (Some a) :: Ev DateNow now :: terminationEvents r.
Proof.
  intros cfg W h w w1 w2 w3 a ts re now r Hc Hts Hre Hz1 Hz2 Hn Hge Hr.
  unfold shouldRefreshToken. rewrite run_bind, run_perform, Hc. simpl.
  rewrite Hts, Hre. simpl.
  apply Z.eqb_neq in Hz1. apply Z.eqb_neq in Hz2. rewrite Hz1, Hz2. simpl.
  rewrite Hn.
  replace (now >=? re)%Z with true by (symmetry; rewrite Z.geb_leb; apply Z.leb_le; lia).
  simpl. rewrite Hr. unfold terminationEvents. destruct r as [resp |]; simpl.
  - destruct (h unit SetLocationHref w3) as [[] w4]. split; reflexivity.
  - destruct (h unit ClearAuthCookie w3) as [[] w4].
    destruct (h unit SetLocationHref w4) as [[] w5]. split; reflexivity.
Qed.

(** C5, as the design words it, fails on a record whose [refreshExpires] is
    [0]: the clock is past it and the check ends the session not at all. *)
Lemma refreshExpires_zero_no_termination :
  ~ (forall (cfg : TokenConfig) (w : Browser) a ts re,
       cookieAuth w = Some a ->
       Auth.timestamp a = Some ts ->
       Auth.refreshExpires a = Some re ->
       (clock w >= re)%Z ->
       count isRedirect
         (trace (run browse (shouldRefreshToken cfg (windowFetch cfg)) w)) = 1).
Proof.
  intro H.
  specialize (H scenarioConfig (mkBrowser (Some (credential 1000000 0)) 5000 [] [] [])
                (credential 1000000 0) 1000000%Z 0%Z eq_refl eq_refl eq_refl).
  simpl in H. specialize (H ltac:(lia)). vm_compute in H. discriminate H.
Qed.

(** C5, amended: for a record whose [timestamp] and [refreshExpires] are
    there and not [0], once the clock has reached [refreshExpires] the check
    before the request calls the logout address, clears the cookie locally
    when that call fails, redirects to the login page, answers [false], and
    the wrapper awaits no renewal. *)
Theorem expired_credential_terminates :
  forall cfg (W : Type) (h : Handler W) (w w1 w2 w3 : W) a ts re now r,
    h _ GetAuthInfoFromBrowserCookie w = (Some a, w1) ->
    Auth.timestamp a = Some ts ->
    Auth.refreshExpires a = Some re ->
    ts <> 0%Z -> re <> 0%Z ->
    h _ DateNow w1 = (now, w2) ->
    (now >= re)%Z ->
    h _ (OriginalFetch logoutInput postWithCredentials) w2 = (r, w3) ->
    result (run h (shouldRefreshToken cfg (windowFetch cfg)) w) = false /\
    trace (run h (refreshProactively cfg (windowFetch cfg)) w) =
      Ev GetAuthInfoFromBrowserCookie (Some a) :: Ev DateNow now :: terminationEvents r /\
    count isRenewal (trace (run h (refreshProactively cfg (windowFetch cfg)) w)) = 0 /\
    count isRenewalCall (trace (run h (refreshProactively cfg (windowFetch cfg)) w)) = 0.
Proof.
  intros cfg W h w w1 w2 w3 a ts re now r Hc Hts Hre Hz1 Hz2 Hn Hge Hr.
  destruct (shouldRefreshToken_expired cfg W h w w1 w2 w3 a ts re now r
              Hc Hts Hre Hz1 Hz2 Hn Hge Hr) as [Hres Htr].
  split; [exact Hres |].
  assert (Ht : trace (run h (refreshProactively cfg (windowFetch cfg)) w) =
               Ev GetAuthInfoFromBrowserCookie (Some a) :: Ev DateNow now :: terminationEvents r).
  { unfold refreshProactively. rewrite run_bind.
    unfold result, trace in *.
    destruct (run h (shouldRefreshToken cfg (windowFetch cfg)) w) as [[b w4] t].
    simpl in *. subst b t. simpl. rewrite app_nil_r. reflexivity. }
  rewrite Ht. split; [reflexivity |].
  destruct r as [resp |]; split; reflexivity.
Qed.

Lemma expired_credential_terminates_witness :
  trace (run browse
           (refreshProactively scenarioConfig (windowFetch scenarioConfig))
           (mkBrowser (Some (credential 1000000 605800000)) 692200000 [] [Rejected] [])) =
  [Ev GetAuthInfoFromBrowserCookie (Some (credential 1000000 605800000));
   Ev DateNow 692200000%Z;
   Ev (OriginalFetch logoutInput postWithCredentials) Rejected;
   Ev ClearAuthCookie tt;
   Ev SetLocationHref tt].
Proof.
  refine (proj1 (proj2 (expired_credential_terminates scenarioConfig Browser browse
            (mkBrowser (Some (credential 1000000 605800000)) 692200000 [] [Rejected] [])
            _ _ _ (credential 1000000 605800000) 1000000%Z 605800000%Z 692200000%Z Rejected
            eq_refl eq_refl eq_refl _ _ eq_refl _ eq_refl)));
    lia.
Defined.

(** ** The login page and the termination sequence *)

Ltac on_login_page Hlogin h w :=
  let p := fresh "p" in
  let w' := fresh "w" in
  let E := fresh "E" in
  destruct (h string LocationPathname w) as [p w'] eqn:E;
  let Hp := fresh "Hp" in
  pose proof (Hlogin w) as Hp; rewrite E in Hp; simpl in Hp; subst p; simpl.

(** The coordinator, refused by the server while the login page is shown:
    it answers [false] and neither logs out nor redirects. *)
Lemma refreshBody_rejected_on_login :
  forall cfg (W : Type) (h : Handler W) (w w1 : W) response,
    (forall w', fst (h _ LocationPathname w') = "/login") ->
    h _ (OriginalFetch refreshInput postWithCredentials) w = (Fulfilled response, w1) ->
    status response = 401%Z \/ status response = 403%Z ->
    run h (refreshBody (windowFetch cfg)) w =
      (false, snd (h _ LocationPathname w1),
       [Ev (OriginalFetch refreshInput postWithCredentials) (Fulfilled response);
        Ev LocationPathname "/login"]).
Proof.
  intros cfg W h w w1 response Hlogin Hr Hs.
  unfold refreshBody. rewrite windowFetch_refresh. simpl. rewrite Hr.
  assert (Hok : ok response = false).
  { unfold ok. destruct Hs as [-> | ->]; reflexivity. }
  assert (Hst : ((status response =? 401) || (status response =? 403))%Z = true).
  { destruct Hs as [-> | ->]; reflexivity. }
  rewrite Hok, Hst. simpl.
  on_login_page Hlogin h w1. reflexivity.
Qed.

(** The wrapper, answered 401 while the login page is shown: the response
    goes back as it came. *)
Lemma handleResponse_on_login :
  forall (W : Type) (h : Handler W) (w : W) input init response,
    (forall w', fst (h _ LocationPathname w') = "/login") ->
    status response = 401%Z ->
    run h (handleResponse input init response) w =
      (Fulfilled response, snd (h _ LocationPathname w), [Ev LocationPathname "/login"]).
Proof.
  intros W h w input init response Hlogin Hs.
  unfold handleResponse. rewrite Hs. simpl.
  on_login_page Hlogin h w. reflexivity.
Qed.

(** The check before the request never reads the address of the page. *)
Lemma shouldRefreshToken_reads_no_pathname :
  forall cfg (W : Type) (h : Handler W) (w : W),
    count isPathnameRead (trace (run h (shouldRefreshToken cfg (windowFetch cfg)) w)) = 0.
Proof.
  intros cfg W h w. unfold shouldRefreshToken. simpl.
  destruct (h _ GetAuthInfoFromBrowserCookie w) as [[a |] w1]; [| reflexivity].
  destruct (JS.truthy_number (Auth.timestamp a)); [| reflexivity].
  destruct (JS.truthy_number (Auth.refreshExpires a)); [| reflexivity].
  simpl.
  destruct (Auth.timestamp a) as [ts |]; [| reflexivity].
  destruct (Auth.refreshExpires a) as [re |]; [| reflexivity].
  simpl. destruct (h _ DateNow w1) as [now w2].
  destruct (now >=? re)%Z; [| reflexivity].
  simpl.
  destruct (h _ (OriginalFetch logoutInput postWithCredentials) w2) as [[resp |] w3]; simpl.
  - destruct (h unit SetLocationHref w3) as [[] w4]. reflexivity.
  - destruct (h unit ClearAuthCookie w3) as [[] w4].
    destruct (h unit SetLocationHref w4) as [[] w5]. reflexivity.
Qed.

(** C9: while the page shown is the login page, the check before the request
    still ends a session whose [refreshExpires] has passed (one logout call,
    one redirect, the address of the page never read), whereas a renewal the
    server refuses and a 401 response end nothing. *)
Theorem expired_check_not_suppressed_on_login :
  forall cfg (W : Type) (h : Handler W) (w w1 w2 w3 : W) a ts re now r,
    (forall w', fst (h _ LocationPathname w') = "/login") ->
    h _ GetAuthInfoFromBrowserCookie w = (Some a, w1) ->
    Auth.timestamp a = Some ts ->
    Auth.refreshExpires a = Some re ->
    ts <> 0%Z -> re <> 0%Z ->
    h _ DateNow w1 = (now, w2) ->
    (now >= re)%Z ->
    h _ (OriginalFetch logoutInput postWithCredentials) w2 = (r, w3) ->
    (count isLogoutCall (trace (run h (shouldRefreshToken cfg (windowFetch cfg)) w)) = 1 /\
     count isRedirect (trace (run h (shouldRefreshToken cfg (windowFetch cfg)) w)) = 1 /\
     count isPathnameRead (trace (run h (shouldRefreshToken cfg (windowFetch cfg)) w)) = 0) /\
    (forall (v v1 : W) response,
       h _ (OriginalFetch refreshInput postWithCredentials) v = (Fulfilled response, v1) ->
       status response = 401%Z \/ status response = 403%Z ->
       result (run h (refreshBody (windowFetch cfg)) v) = false /\
       count isLogoutCall (trace (run h (refreshBody (windowFetch cfg)) v)) = 0 /\
       count isRedirect (trace (run h (refreshBody (windowFetch cfg)) v)) = 0) /\
    (forall (v : W) input init response,
       status response = 401%Z ->
       result (run h (handleResponse input init response) v) = Fulfilled response /\
       count isLogoutCall (trace (run h (handleResponse input init response) v)) = 0 /\
       count isRedirect (trace (run h (handleResponse input init response) v)) = 0).
Proof.
  intros cfg W h w w1 w2 w3 a ts re now r Hlogin Hc Hts Hre Hz1 Hz2 Hn Hge Hr.
  split; [| split].
  - destruct (shouldRefreshToken_expired cfg W h w w1 w2 w3 a ts re now r
                Hc Hts Hre Hz1 Hz2 Hn Hge Hr) as [_ Htr].
    rewrite Htr. destruct r as [resp |]; repeat split; reflexivity.
  - intros v v1 response Hv Hs.
    rewrite (refreshBody_rejected_on_login cfg W h v v1 response Hlogin Hv Hs).
    repeat split; reflexivity.
  - intros v input init response Hs.
    rewrite (handleResponse_on_login W h v input init response Hlogin Hs).
    repeat split; reflexivity.
Qed.

Lemma expired_check_not_suppressed_on_login_witness :
  count isRedirect
    (trace (run browseOnLogin
              (shouldRefreshToken scenarioConfig (windowFetch scenarioConfig))
              (mkBrowser (Some (credential 1000000 605800000)) 692200000 []
                 [Fulfilled (mkResponse 200 None)] []))) = 1 /\
  count isRedirect
    (trace (run browseOnLogin
              (refreshBody (windowFetch scenarioConfig))
              (mkBrowser (Some (credential 1000000 605800000)) 692200000 []
                 [Fulfilled (mkResponse 401 None)] []))) = 0.
Proof.
  pose proof (expired_check_not_suppressed_on_login scenarioConfig Browser browseOnLogin
            (mkBrowser (Some (credential 1000000 605800000)) 692200000 []
               [Fulfilled (mkResponse 200 None)] [])
            _ _ _ (credential 1000000 605800000) 1000000%Z 605800000%Z 692200000%Z
            (Fulfilled (mkResponse 200 None))
            (fun _ => eq_refl) eq_refl eq_refl eq_refl
            ltac:(lia) ltac:(lia) eq_refl ltac:(lia) eq_refl) as [[_ [H1 _]] [H2 _]].
  split; [exact H1 |].
  exact (proj2 (proj2 (H2 (mkBrowser (Some (credential 1000000 605800000)) 692200000 []
                             [Fulfilled (mkResponse 401 None)] [])
                          _ (mkResponse 401 None) eq_refl (or_introl eq_refl)))).
Defined.

(** ** The request wrapper *)

(** The wrapper's own calls of [window.fetch] go to excluded addresses only,
    so the function assigned to [window.fetch] is the wrapper built on
    itself. *)
Lemma windowFetch_unfold :
  forall cfg, wrapFetch cfg (windowFetch cfg) = windowFetch cfg.
Proof. reflexivity. Qed.

Lemma isExcluded_iff :
  forall url,
    isExcluded url = true <->
    JS.includes url "/api/auth/refresh" = true \/
    JS.includes url "/api/login" = true \/
    JS.includes url "/api/logout" = true \/
    JS.includes url "/api/register" = true \/
    JS.includes url "/api/auth/oidc" = true.
Proof.
  intro url. unfold isExcluded. rewrite !orb_true_iff. tauto.
Qed.

(** C4: a request whose address contains one of the five excluded fragments
    goes straight to the original request function: the wrapper is that
    function there, and its run is the one call and nothing else, whatever
    the response, a 401 included. *)
Theorem excluded_endpoint_bypass :
  forall cfg (W : Type) (h : Handler W) (w : W) input init,
    JS.includes (urlOf input) "/api/auth/refresh" = true \/
    JS.includes (urlOf input) "/api/login" = true \/
    JS.includes (urlOf input) "/api/logout" = true \/
    JS.includes (urlOf input) "/api/register" = true \/
    JS.includes (urlOf input) "/api/auth/oidc" = true ->
    windowFetch cfg input init = originalFetch input init /\
    run h (windowFetch cfg input init) w =
      (fst (h _ (OriginalFetch input init) w),
       snd (h _ (OriginalFetch input init) w),
       [Ev (OriginalFetch input init) (fst (h _ (OriginalFetch input init) w))]).
Proof.
  intros cfg W h w input init Hex.
  apply isExcluded_iff in Hex.
  assert (Heq : windowFetch cfg input init = originalFetch input init).
  { unfold windowFetch, wrapFetch. rewrite Hex. reflexivity. }
  split; [exact Heq |].
  rewrite Heq. unfold originalFetch. apply run_perform.
Qed.

Lemma excluded_endpoint_bypass_witness :
  run browse
    (windowFetch scenarioConfig (InputString "https://tv.example/api/login?next=1") None)
    (mkBrowser (Some (credential 1000000 605800000)) 692200000 ["/play"]
       [Fulfilled (mkResponse 401 (Some "Unauthorized"))] [true]) =
  (Fulfilled (mkResponse 401 (Some "Unauthorized")),
   mkBrowser (Some (credential 1000000 605800000)) 692200000 ["/play"] [] [true],
   [Ev (OriginalFetch (InputString "https://tv.example/api/login?next=1") None)
       (Fulfilled (mkResponse 401 (Some "Unauthorized")))]).
Proof.
  exact (proj2 (excluded_endpoint_bypass scenarioConfig Browser browse
                  (mkBrowser (Some (credential 1000000 605800000)) 692200000 ["/play"]
                     [Fulfilled (mkResponse 401 (Some "Unauthorized"))] [true])
                  (InputString "https://tv.example/api/login?next=1") None
                  (or_intror (or_introl eq_refl)))).
Defined.

(** The run of the wrapper on an address that is not excluded: the check
    before the request, the request, the handling of its response. *)
Lemma run_windowFetch :
  forall cfg (W : Type) (h : Handler W) (w w1 : W) tr1 input init,
    isExcluded (urlOf input) = false ->
    run h (refreshProactively cfg (windowFetch cfg)) w = (tt, w1, tr1) ->
    run h (windowFetch cfg input init) w =
    match h _ (OriginalFetch input init) w1 with
    | (Rejected, w2) =>
        (Rejected, w2, (tr1 ++ [Ev (OriginalFetch input init) Rejected])%list)
    | (Fulfilled response, w2) =>
        let '(res, w3, tr3) := run h (handleResponse input init response) w2 in
        (res, w3, (tr1 ++ Ev (OriginalFetch input init) (Fulfilled response) :: tr3)%list)
    end.
Proof.
  intros cfg W h w w1 tr1 input init Hex Hpre.
  rewrite <- windowFetch_unfold. unfold wrapFetch. rewrite Hex.
  rewrite run_bind, Hpre, run_bind. unfold originalFetch. rewrite run_perform.
  destruct (h _ (OriginalFetch input init) w1) as [[response |] w2]; simpl.
  - destruct (run h (handleResponse input init response) w2) as [[res w3] tr3].
    reflexivity.
  - reflexivity.
Qed.

(** C6: a request that is not excluded and is answered 401 with a body that
    holds none of the three markers: the caller gets that response as it
    came, and after the check before the request the wrapper does the
    request and one read of the page address, no renewal and no other
    call. *)
Theorem unrecognized_401_passthrough :
  forall cfg (W : Type) (h : Handler W) (w w1 w2 : W) tr1 input init response body,
    isExcluded (urlOf input) = false ->
    run h (refreshProactively cfg (windowFetch cfg)) w = (tt, w1, tr1) ->
    h _ (OriginalFetch input init) w1 = (Fulfilled response, w2) ->
    status response = 401%Z ->
    text response = Some body ->
    JS.includes body "Unauthorized" = false ->
    JS.includes body "Refresh token expired" = false ->
    JS.includes body "Access token expired" = false ->
    result (run h (windowFetch cfg input init) w) = Fulfilled response /\
    trace (run h (windowFetch cfg input init) w) =
      (tr1 ++ [Ev (OriginalFetch input init) (Fulfilled response);
               Ev LocationPathname (fst (h _ LocationPathname w2))])%list /\
    count isRenewal (trace (run h (windowFetch cfg input init) w)) = count isRenewal tr1 /\
    count isOriginalFetch (trace (run h (windowFetch cfg input init) w)) =
      count isOriginalFetch tr1 + 1.
Proof.
  intros cfg W h w w1 w2 tr1 input init response body Hex Hpre Hr Hs Ht H1 H2 H3.
  rewrite (run_windowFetch cfg W h w w1 tr1 input init Hex Hpre), Hr.
  assert (Hrun : run h (handleResponse input init response) w2 =
                 (Fulfilled response, snd (h _ LocationPathname w2),
                  [Ev LocationPathname (fst (h _ LocationPathname w2))])).
  { unfold handleResponse. rewrite Hs, Ht. simpl.
    destruct (h _ LocationPathname w2) as [path w3]. simpl.
    unfold isAuthError. rewrite H1, H2, H3. simpl.
    destruct (path =? "/login"); reflexivity. }
  rewrite Hrun. unfold result, trace. simpl.
  split; [reflexivity |]. split; [reflexivity |].
  rewrite !count_app. split.
  - simpl. rewrite Nat.add_0_r. reflexivity.
  - reflexivity.
Qed.

Lemma unrecognized_401_passthrough_witness :
  result (run browse
            (windowFetch scenarioConfig (InputString "/api/favorites") None)
            (mkBrowser (Some (credential 1000000 605800000)) 1180000 ["/play"]
               [Fulfilled (mkResponse 401 (Some "Forbidden for this room"))] [true])) =
  Fulfilled (mkResponse 401 (Some "Forbidden for this room")).
Proof.
  refine (proj1 (unrecognized_401_passthrough scenarioConfig Browser browse
            (mkBrowser (Some (credential 1000000 605800000)) 1180000 ["/play"]
               [Fulfilled (mkResponse 401 (Some "Forbidden for this room"))] [true])
            _ _ _ (InputString "/api/favorites") None
            (mkResponse 401 (Some "Forbidden for this room")) "Forbidden for this room"
            eq_refl eq_refl eq_refl eq_refl eq_refl eq_refl eq_refl eq_refl)).
Defined.

(** *** One replay *)

Lemma includes_refl : forall s, JS.includes s s = true.
Proof.
  intro s. assert (Hp : JS.startsWith s s = true).
  { induction s as [| c s IH]; simpl; [reflexivity |].
    rewrite Ascii.eqb_refl, IH. reflexivity. }
  destruct s; simpl in *; [reflexivity |]. rewrite Hp. reflexivity.
Qed.

(** The logout call is not the request of a wrapped call: its address is
    excluded. *)
Lemma logout_is_not_the_request :
  forall input init ev,
    isExcluded (urlOf input) = false ->
    isLogoutCall ev = true ->
    isRequest input init ev = false.
Proof.
  intros input init [X e x | i n] Hex Hl; [| reflexivity].
  destruct e; simpl in *; try discriminate.
  apply String.eqb_eq in Hl.
  destruct (requestInfo_eqb input0 input) eqn:He; [| reflexivity].
  exfalso.
  assert (Hu : urlOf input = "/api/logout").
  { destruct input0, input; simpl in *; try discriminate;
      apply String.eqb_eq in He; congruence. }
  rewrite Hu in Hex. vm_compute in Hex. discriminate.
Qed.

Lemma request_is_not_logout :
  forall input init x,
    isExcluded (urlOf input) = false ->
    isLogoutCall (Ev (OriginalFetch input init) x) = false.
Proof.
  intros input init x Hex. simpl.
  destruct (urlOf input =? "/api/logout") eqn:He; [| reflexivity].
  apply String.eqb_eq in He. rewrite He in Hex. vm_compute in Hex. discriminate.
Qed.

Lemma terminationEvents_no_request :
  forall input init r,
    isExcluded (urlOf input) = false ->
    count (isRequest input init) (terminationEvents r) = 0.
Proof.
  intros input init r Hex.
  assert (H : isRequest input init (Ev (OriginalFetch logoutInput postWithCredentials) r) = false).
  { apply logout_is_not_the_request; [exact Hex | reflexivity]. }
  unfold terminationEvents. rewrite count_cons, H.
  destruct r; reflexivity.
Qed.

(** The three shapes of a run of the check before the request. *)
Lemma refreshProactively_trace :
  forall cfg (W : Type) (h : Handler W) (w : W),
    let tr := trace (run h (refreshProactively cfg (windowFetch cfg)) w) in
    (exists x, tr = [Ev GetAuthInfoFromBrowserCookie x]) \/
    (exists x n, tr = [Ev GetAuthInfoFromBrowserCookie x; Ev DateNow n]) \/
    (exists x n b, tr = [Ev GetAuthInfoFromBrowserCookie x; Ev DateNow n;
                         Ev AwaitRefreshToken b]) \/
    (exists x n r, tr = Ev GetAuthInfoFromBrowserCookie x :: Ev DateNow n ::
                        terminationEvents r).
Proof.
  intros cfg W h w. unfold refreshProactively, shouldRefreshToken. simpl.
  destruct (h _ GetAuthInfoFromBrowserCookie w) as [[a |] w1];
    [| left; eexists; reflexivity].
  destruct (JS.truthy_number (Auth.timestamp a));
    [| left; eexists; reflexivity].
  destruct (JS.truthy_number (Auth.refreshExpires a));
    [| left; eexists; reflexivity].
  simpl.
  destruct (Auth.timestamp a) as [ts |]; [| left; eexists; reflexivity].
  destruct (Auth.refreshExpires a) as [re |]; [| left; eexists; reflexivity].
  simpl. destruct (h _ DateNow w1) as [now w2].
  destruct (now >=? re)%Z.
  - simpl.
    destruct (h _ (OriginalFetch logoutInput postWithCredentials) w2) as [[resp |] w3]; simpl.
    + destruct (h unit SetLocationHref w3) as [[] w4].
      right; right; right. eexists _, _, (Fulfilled resp). reflexivity.
    + destruct (h unit ClearAuthCookie w3) as [[] w4].
      destruct (h unit SetLocationHref w4) as [[] w5].
      right; right; right. eexists _, _, Rejected. reflexivity.
  - simpl.
    destruct (ACCESS_TOKEN_AGE cfg - (now - ts) <? RENEWAL_THRESHOLD cfg)%Z; simpl.
    + destruct (h bool AwaitRefreshToken w2) as [b w3].
      right; right; left. eexists _, _, _. reflexivity.
    + right; left. eexists _, _. reflexivity.
Qed.

Lemma refreshProactively_no_request :
  forall cfg (W : Type) (h : Handler W) (w : W) input init,
    isExcluded (urlOf input) = false ->
    count (isRequest input init)
      (trace (run h (refreshProactively cfg (windowFetch cfg)) w)) = 0.
Proof.
  intros cfg W h w input init Hex.
  destruct (refreshProactively_trace cfg W h w)
    as [[x ->] | [[x [n ->]] | [[x [n [b ->]]] | [x [n [r ->]]]]]];
    try reflexivity.
  change (count (isRequest input init) (terminationEvents r) = 0).
  apply terminationEvents_no_request. exact Hex.
Qed.

Lemma isRequest_refl :
  forall input init x, isRequest input init (Ev (OriginalFetch input init) x) = true.
Proof.
  intros input init x. simpl.
  assert (H1 : requestInfo_eqb input input = true)
    by (destruct input; simpl; apply String.eqb_refl).
  assert (H2 : requestInit_eqb init init = true)
    by (destruct init as [[m c] |]; simpl; [rewrite !String.eqb_refl |]; reflexivity).
  rewrite H1, H2. reflexivity.
Qed.

(** The response handler sends the request again at most once. *)
Lemma handleResponse_at_most_one_replay :
  forall (W : Type) (h : Handler W) (w : W) input init response,
    isExcluded (urlOf input) = false ->
    count (isRequest input init) (trace (run h (handleResponse input init response) w)) <= 1.
Proof.
  intros W h w input init response Hex. unfold handleResponse.
  destruct (status response =? 401)%Z; [| unfold trace, count; simpl; lia].
  simpl. destruct (h _ LocationPathname w) as [path w1].
  destruct (path =? "/login"); [unfold trace, count; simpl; lia |].
  destruct (text response) as [body |]; [| unfold trace, count; simpl; lia].
  destruct (isAuthError body); [| unfold trace, count; simpl; lia].
  simpl. destruct (h bool AwaitRefreshToken w1) as [[] w2]; [| unfold trace, count; simpl; lia].
  simpl. destruct (h _ (OriginalFetch input init) w2) as [[response' |] w3].
  - destruct (status response' =? 401)%Z.
    + simpl. destruct (h _ LocationPathname w3) as [path' w4].
      destruct (path' =? "/login").
      * unfold trace. simpl snd. rewrite !count_cons, isRequest_refl. unfold count. simpl. lia.
      * simpl.
        destruct (h _ (OriginalFetch logoutInput postWithCredentials) w4) as [r w5].
        assert (Hno : isRequest input init
                        (Ev (OriginalFetch logoutInput postWithCredentials) r) = false)
          by (apply logout_is_not_the_request; [exact Hex | reflexivity]).
        destruct r as [resp |]; simpl.
        -- destruct (h unit SetLocationHref w5) as [[] w6].
           unfold trace. simpl snd.
           rewrite !count_cons, isRequest_refl, Hno. unfold count. simpl. lia.
        -- destruct (h unit ClearAuthCookie w5) as [[] w6].
           destruct (h unit SetLocationHref w6) as [[] w7].
           unfold trace. simpl snd.
           rewrite !count_cons, isRequest_refl, Hno. unfold count. simpl. lia.
    + unfold trace. simpl snd. rewrite !count_cons, isRequest_refl. unfold count. simpl. lia.
  - unfold trace. simpl snd. rewrite !count_cons, isRequest_refl. unfold count. simpl. lia.
Qed.

(** C2, as the design words it, fails twice on the request [/api/favorites]
    answered 401 with the marker [Unauthorized], renewed with success and
    answered 401 again.  When the page has become the login page by the time
    the replay is answered, nothing is terminated; when it has not, the
    logout call of the termination is a third invocation of the original
    request function. *)
Lemma replay_401_counterexample :
  let input := InputString "/api/favorites" in
  let unauthorized := Fulfilled (mkResponse 401 (Some "Unauthorized")) in
  let visit (pages : list string) :=
    run browse (windowFetch scenarioConfig input None)
      (mkBrowser (Some (credential 1000000 605800000)) 1180000 pages
         [unauthorized; unauthorized; Fulfilled (mkResponse 200 None)] [true]) in
  (trace (visit ["/play"; "/login"]) =
     [Ev GetAuthInfoFromBrowserCookie (Some (credential 1000000 605800000));
      Ev DateNow 1180000%Z;
      Ev (OriginalFetch input None) unauthorized;
      Ev LocationPathname "/play";
      Ev AwaitRefreshToken true;
      Ev (OriginalFetch input None) unauthorized;
      Ev LocationPathname "/login"] /\
   count isRedirect (trace (visit ["/play"; "/login"])) <> 1) /\
  (trace (visit ["/play"; "/play"]) =
     [Ev GetAuthInfoFromBrowserCookie (Some (credential 1000000 605800000));
      Ev DateNow 1180000%Z;
      Ev (OriginalFetch input None) unauthorized;
      Ev LocationPathname "/play";
      Ev AwaitRefreshToken true;
      Ev (OriginalFetch input None) unauthorized;
      Ev LocationPathname "/play";
      Ev (OriginalFetch logoutInput postWithCredentials) (Fulfilled (mkResponse 200 None));
      Ev SetLocationHref tt] /\
   ~ count isOriginalFetch (trace (visit ["/play"; "/play"])) <= 2).
Proof.
  split; split; try reflexivity.
  - vm_compute. discriminate.
  - vm_compute. lia.
Qed.

(** C2, amended.  For a request that is not excluded: the wrapper passes the
    request to the original request function at most twice; when the
    response is 401 with a marker, the page is not the login page and the
    renewal succeeds, the response handler passes the request to the
    original function exactly once more; and when that replay is answered
    401 as well, the replay's response goes to the caller and the session is
    terminated exactly once (one logout call through the original function,
    one redirect) unless the page is then the login page, in which case
    nothing is terminated. *)
Theorem one_replay_bound :
  forall cfg (W : Type) (h : Handler W) input init,
    isExcluded (urlOf input) = false ->
    (forall w,
       count (isRequest input init) (trace (run h (windowFetch cfg input init) w)) <= 2) /\
    (forall (w w1 w2 w3 : W) response body path retried,
       status response = 401%Z ->
       text response = Some body ->
       isAuthError body = true ->
       h _ LocationPathname w = (path, w1) ->
       path <> "/login" ->
       h _ AwaitRefreshToken w1 = (true, w2) ->
       h _ (OriginalFetch input init) w2 = (retried, w3) ->
       count (isRequest input init)
         (trace (run h (handleResponse input init response) w)) = 1 /\
       forall (w4 w5 : W) response' path' r,
         retried = Fulfilled response' ->
         status response' = 401%Z ->
         h _ LocationPathname w3 = (path', w4) ->
         h _ (OriginalFetch logoutInput postWithCredentials) w4 = (r, w5) ->
         result (run h (handleResponse input init response) w) = Fulfilled response' /\
         trace (run h (handleResponse input init response) w) =
           ([Ev LocationPathname path; Ev AwaitRefreshToken true;
             Ev (OriginalFetch input init) (Fulfilled response');
             Ev LocationPathname path'] ++
            (if path' =? "/login" then [] else terminationEvents r))%list /\
         count isRedirect (trace (run h (handleResponse input init response) w)) =
           (if path' =? "/login" then 0 else 1) /\
         count isLogoutCall (trace (run h (handleResponse input init response) w)) =
           (if path' =? "/login" then 0 else 1)).
Proof.
  intros cfg W h input init Hex. split.
  - intro w.
    destruct (run h (refreshProactively cfg (windowFetch cfg)) w) as [[[] w1] tr1] eqn:Hpre.
    pose proof (refreshProactively_no_request cfg W h w input init Hex) as Hno.
    rewrite Hpre in Hno. unfold trace in Hno. simpl in Hno.
    rewrite (run_windowFetch cfg W h w w1 tr1 input init Hex Hpre).
    destruct (h _ (OriginalFetch input init) w1) as [[response |] w2].
    + pose proof (handleResponse_at_most_one_replay W h w2 input init response Hex) as H1.
      destruct (run h (handleResponse input init response) w2) as [[res w3] tr3].
      unfold trace in *. simpl in *.
      rewrite count_app, count_cons, isRequest_refl, Hno. lia.
    + unfold trace. simpl.
      rewrite count_app, count_cons, isRequest_refl, Hno. unfold count. simpl. lia.
  - intros w w1 w2 w3 response body path retried Hs Ht Hm Hp Hnl Ha Hr.
    apply String.eqb_neq in Hnl.
    assert (Hrun : run h (handleResponse input init response) w =
              match retried with
              | Rejected =>
                  (Fulfilled response, w3,
                   [Ev LocationPathname path; Ev AwaitRefreshToken true;
                    Ev (OriginalFetch input init) Rejected])
              | Fulfilled response' =>
                  let '(res, w', tr) :=
                    run h
                      (if (status response' =? 401)%Z
                       then
                         path' <- perform LocationPathname ;;
                         if path' =? "/login" then Ret (Fulfilled response')
                         else logoutAndRedirect originalFetch ;; Ret (Fulfilled response')
                       else Ret (Fulfilled response')) w3 in
                  (res, w',
                   Ev LocationPathname path :: Ev AwaitRefreshToken true ::
                   Ev (OriginalFetch input init) (Fulfilled response') :: tr)
              end).
    { unfold handleResponse. rewrite Hs, Ht, Hm. simpl. rewrite Hp, Hnl. simpl.
      rewrite Ha. simpl. rewrite Hr. destruct retried as [response' |]; [| reflexivity].
      match goal with
      | |- context [run h ?p w3] => destruct (run h p w3) as [[res w'] tr]
      end.
      reflexivity. }
    split.
    + rewrite Hrun. destruct retried as [response' |].
      * destruct (status response' =? 401)%Z.
        -- simpl. destruct (h _ LocationPathname w3) as [path' w4].
           destruct (path' =? "/login").
           ++ unfold trace. simpl snd.
              rewrite !count_cons, isRequest_refl. unfold count. reflexivity.
           ++ simpl.
              destruct (h _ (OriginalFetch logoutInput postWithCredentials) w4) as [r w5].
              assert (Hno : isRequest input init
                              (Ev (OriginalFetch logoutInput postWithCredentials) r) = false)
                by (apply logout_is_not_the_request; [exact Hex | reflexivity]).
              destruct r as [resp |]; simpl.
              ** destruct (h unit SetLocationHref w5) as [[] w6].
                 unfold trace. simpl snd.
                 rewrite !count_cons, isRequest_refl, Hno. unfold count. reflexivity.
              ** destruct (h unit ClearAuthCookie w5) as [[] w6].
                 destruct (h unit SetLocationHref w6) as [[] w7].
                 unfold trace. simpl snd.
                 rewrite !count_cons, isRequest_refl, Hno. unfold count. reflexivity.
        -- unfold trace. simpl snd.
           rewrite !count_cons, isRequest_refl. unfold count. reflexivity.
      * unfold trace. simpl snd.
        rewrite !count_cons, isRequest_refl. unfold count. reflexivity.
    + intros w4 w5 response' path' r -> Hs' Hp' Hl.
      pose proof (request_is_not_logout input init (Fulfilled response') Hex) as Hnlg.
      rewrite Hrun, Hs'. simpl run. rewrite Hp'.
      destruct (path' =? "/login").
      * unfold result, trace. simpl fst. simpl snd.
        repeat split; try reflexivity.
        rewrite !count_cons, Hnlg. reflexivity.
      * simpl run. rewrite Hl. unfold terminationEvents.
        destruct r as [resp |]; simpl run.
        -- destruct (h unit SetLocationHref w5) as [[] w6].
           unfold result, trace. simpl fst. simpl snd.
           repeat split; try reflexivity.
           simpl app. rewrite !count_cons, Hnlg. reflexivity.
        -- destruct (h unit ClearAuthCookie w5) as [[] w6].
           destruct (h unit SetLocationHref w6) as [[] w7].
           unfold result, trace. simpl fst. simpl snd.
           repeat split; try reflexivity.
           simpl app. rewrite !count_cons, Hnlg. reflexivity.
Qed.

Lemma one_replay_bound_witness :
  count (isRequest (InputString "/api/favorites") None)
    (trace (run browse
              (windowFetch scenarioConfig (InputString "/api/favorites") None)
              (mkBrowser (Some (credential 1000000 605800000)) 1180000 ["/play"; "/play"]
                 [Fulfilled (mkResponse 401 (Some "Unauthorized"));
                  Fulfilled (mkResponse 401 (Some "Unauthorized"));
                  Fulfilled (mkResponse 200 None)] [true]))) <= 2.
Proof.
  exact (proj1 (one_replay_bound scenarioConfig Browser browse
                  (InputString "/api/favorites") None eq_refl) _).
Defined.

(** ** The renewal coordinator *)

Lemma nth_error_setNth :
  forall (A : Type) (l : list A) (p q : nat) (x : A),
    nth_error (setNth p x l) q =
    if (q =? p)%nat then (if (p <? List.length l)%nat then Some x else None)
    else nth_error l q.
Proof.
  intros A l. induction l as [| y t IH]; intros p q x; simpl.
  - destruct p as [| p'], q as [| q']; simpl; try reflexivity.
    destruct (q' =? p')%nat; reflexivity.
  - destruct p as [| p'], q as [| q']; simpl; try reflexivity.
    rewrite IH. destruct (q' =? p')%nat; [| reflexivity].
    change (S p' <? S (List.length t))%nat with (p' <? List.length t)%nat. reflexivity.
Qed.

Lemma count_renewal_ev :
  forall (X : Type) (e : Eff X) (x : X) tr,
    count isRenewalCall (Ev e x :: tr) = count isRenewalCall tr.
Proof. intros. rewrite count_cons. reflexivity. Qed.

(** A program that sends no renewal call, run to its next await, has sent
    none and leaves a task that sends none. *)
Lemma runToAwait_quiet :
  forall (W : Type) (h : Handler W) (p : Prog bool) (w : W),
    noRenewalCall p ->
    count isRenewalCall (snd (runToAwait h p w)) = 0 /\
    quietTask (fst (fst (runToAwait h p w))).
Proof.
  intros W h p. induction p as [b | X e k IH]; intros w Hq; simpl.
  - split; [reflexivity | exact I].
  - destruct Hq as [He Hk]. destruct (isAwait e).
    + simpl. split; [exact He | exact Hk].
    + destruct (h X e w) as [x w1].
      specialize (IH x w1 (Hk x)).
      destruct (runToAwait h (k x) w1) as [[t w2] tr]. simpl in *.
      rewrite count_renewal_ev. exact IH.
Qed.

(** [refreshBody] is one renewal call and then no other. *)
Lemma refreshBody_first_await :
  forall cfg,
    exists k,
      refreshBody (windowFetch cfg) =
        Do (OriginalFetch refreshInput postWithCredentials) k /\
      (forall x, noRenewalCall (k x)) /\
      goesOn k.
Proof.
  intro cfg. eexists. split; [reflexivity |]. split.
  - intros [response |]; simpl; [| exact I].
    destruct (ok response); simpl; [exact I |].
    destruct ((status response =? 401) || (status response =? 403))%Z; simpl; [| exact I].
    split; [reflexivity |]. intro path.
    destruct (path =? "/login"); simpl; [exact I |].
    split; [reflexivity |].
    intros [resp |]; simpl.
    + split; [reflexivity | intros []; exact I].
    + split; [reflexivity |]. intros []. simpl. split; [reflexivity | intros []; exact I].
  - intros W h [response |] w; simpl; [| left; reflexivity].
    destruct (ok response) eqn:Hok; simpl; [left; reflexivity |].
    destruct ((status response =? 401) || (status response =? 403))%Z; simpl;
      [| left; reflexivity].
    destruct (h _ LocationPathname w) as [path w1].
    destruct (path =? "/login"); simpl; [left; reflexivity |].
    right. split; [reflexivity |]. eexists. split; [reflexivity |].
    intros [resp |] w'; simpl.
    + destruct (h unit SetLocationHref w') as [[] w2]. reflexivity.
    + destruct (h unit ClearAuthCookie w') as [[] w2]. simpl.
      destruct (h unit SetLocationHref w2) as [[] w3]. reflexivity.
Qed.

Lemma refreshToken_join :
  forall cfg (W : Type) (h : Handler W) (s : Coordinator W) p,
    isRefreshing s = true ->
    refreshPromise s = Some p ->
    refreshToken cfg h s = (p, s).
Proof.
  intros cfg W h s p Hf Hp. unfold refreshToken. rewrite Hf, Hp. reflexivity.
Qed.

Lemma refreshToken_fresh :
  forall cfg (W : Type) (h : Handler W) (s : Coordinator W),
    isRefreshing s = false \/ refreshPromise s = None ->
    exists k,
      (forall x, noRenewalCall (k x)) /\
      goesOn k /\
      refreshToken cfg h s =
        (List.length (promises s),
         mkCoordinator true (Some (List.length (promises s)))
           (promises s ++ [Awaiting (OriginalFetch refreshInput postWithCredentials) k])
           (browser s)
           (log s ++ [Issued refreshInput postWithCredentials])).
Proof.
  intros cfg W h s Hidle.
  destruct (refreshBody_first_await cfg) as [k [Hk [Hq Hg]]].
  exists k. split; [exact Hq |]. split; [exact Hg |].
  unfold refreshToken. rewrite Hk. simpl.
  destruct Hidle as [Hf | Hp].
  - rewrite Hf. reflexivity.
  - rewrite Hp. destruct (isRefreshing s); reflexivity.
Qed.

Lemma Forall_setNth :
  forall (A : Type) (P : A -> Prop) (l : list A) (p : nat) (x : A),
    Forall P l -> P x -> Forall P (setNth p x l).
Proof.
  intros A P l. induction l as [| y t IH]; intros p x Hl Hx; simpl.
  - destruct p; constructor.
  - inversion Hl as [| y' t' Hy Ht]; subst.
    destruct p as [| p']; constructor; auto.
Qed.

Lemma coherent_start :
  forall (W : Type) (w : W), coherent (start w).
Proof.
  intros W w. split.
  - intros q Hq. unfold isPending in Hq. simpl in Hq. destruct q; discriminate.
  - constructor.
Qed.

Lemma idle_no_pending :
  forall (W : Type) (s : Coordinator W) q,
    coherent s ->
    isRefreshing s = false \/ refreshPromise s = None ->
    isPending s q = false.
Proof.
  intros W s q [Hc _] Hidle.
  destruct (isPending s q) eqn:Hq; [| reflexivity].
  destruct (Hc q Hq) as [Hf Hp]. destruct Hidle as [Hi | Hi]; congruence.
Qed.

Lemma refreshToken_cases :
  forall (W : Type) (s : Coordinator W),
    (exists p, isRefreshing s = true /\ refreshPromise s = Some p) \/
    (isRefreshing s = false \/ refreshPromise s = None).
Proof.
  intros W s. destruct (isRefreshing s), (refreshPromise s) as [p |]; eauto.
Qed.

Lemma coherent_refreshToken :
  forall cfg (W : Type) (h : Handler W) (s : Coordinator W),
    coherent s -> coherent (snd (refreshToken cfg h s)).
Proof.
  intros cfg W h s Hc.
  destruct (refreshToken_cases W s) as [[p [Hf Hp]] | Hidle].
  - rewrite (refreshToken_join cfg W h s p Hf Hp). exact Hc.
  - destruct (refreshToken_fresh cfg W h s Hidle) as [k [Hq [_ Heq]]].
    rewrite Heq. simpl. split.
    + intros q Hpend. unfold isPending in Hpend. simpl in Hpend.
      destruct (Nat.lt_ge_cases q (List.length (promises s))) as [Hlt | Hge].
      * rewrite nth_error_app1 in Hpend by exact Hlt.
        pose proof (idle_no_pending W s q Hc Hidle) as Hno.
        unfold isPending in Hno. rewrite Hno in Hpend. discriminate.
      * rewrite nth_error_app2 in Hpend by exact Hge.
        destruct (q - List.length (promises s)) as [| d] eqn:Hd.
        -- simpl. split; [reflexivity |]. f_equal. lia.
        -- simpl in Hpend. destruct d; discriminate.
    + simpl. apply Forall_app. split; [exact (proj2 Hc) |].
      constructor; [exact Hq | constructor].
Qed.

(** What a delivery does to a promise that awaits. *)
Lemma deliver_pending :
  forall (W : Type) (h : Handler W) (s : Coordinator W) p r (X : Type) (e : Eff X) k x,
    nth_error (promises s) p = Some (Awaiting e k) ->
    answerTo e r = Some x ->
    deliver h p r s =
    match fst (fst (runToAwait h (k x) (browser s))) with
    | Awaiting e' k' =>
        mkCoordinator (isRefreshing s) (refreshPromise s)
          (setNth p (Awaiting e' k') (promises s))
          (snd (fst (runToAwait h (k x) (browser s))))
          (log s ++ Ev e x :: snd (runToAwait h (k x) (browser s)))
    | Settled b =>
        mkCoordinator false None
          (setNth p (Settled b) (promises s))
          (snd (fst (runToAwait h (k x) (browser s))))
          (log s ++ Ev e x :: snd (runToAwait h (k x) (browser s)))
    end.
Proof.
  intros W h s p r X e k x Hp Ha. unfold deliver. rewrite Hp, Ha.
  destruct (runToAwait h (k x) (browser s)) as [[t w] tr]. simpl.
  destruct t; reflexivity.
Qed.

Lemma deliver_idle :
  forall (W : Type) (h : Handler W) (s : Coordinator W) p r,
    isPending s p = false -> deliver h p r s = s.
Proof.
  intros W h s p r Hp. unfold deliver, isPending in *.
  destruct (nth_error (promises s) p) as [[X e k | b] |]; try reflexivity.
  discriminate.
Qed.

Lemma pending_task :
  forall (W : Type) (s : Coordinator W) p,
    isPending s p = true ->
    exists (X : Type) (e : Eff X) k, nth_error (promises s) p = Some (Awaiting e k).
Proof.
  intros W s p Hp. unfold isPending in Hp.
  destruct (nth_error (promises s) p) as [[X e k | b] |]; try discriminate.
  eauto.
Qed.

Lemma answerTo_some :
  forall (X : Type) (e : Eff X) r, isAwait e = true -> exists x, answerTo e r = Some x.
Proof.
  intros X e r He. destruct e; try discriminate. simpl. eauto.
Qed.

Lemma coherent_deliver :
  forall (W : Type) (h : Handler W) (s : Coordinator W) p r,
    coherent s ->
    coherent (deliver h p r s) /\
    count isRenewalCall (log (deliver h p r s)) = count isRenewalCall (log s).
Proof.
  intros W h s p r Hc.
  destruct (isPending s p) eqn:Hpend;
    [| rewrite (deliver_idle W h s p r Hpend); split; [exact Hc | reflexivity]].
  destruct (pending_task W s p Hpend) as [X [e [k Hp]]].
  destruct (answerTo e r) as [x |] eqn:Ha;
    [| unfold deliver; rewrite Hp, Ha; split; [exact Hc | reflexivity]].
  rewrite (deliver_pending W h s p r X e k x Hp Ha).
  assert (Hk : forall y, noRenewalCall (k y)).
  { destruct Hc as [_ Hall]. rewrite Forall_forall in Hall.
    exact (Hall _ (nth_error_In _ _ Hp)). }
  destruct (runToAwait_quiet W h (k x) (browser s) (Hk x)) as [Hcnt Hquiet].
  assert (Hlen : (p <? List.length (promises s))%nat = true).
  { apply Nat.ltb_lt. apply nth_error_Some. rewrite Hp. discriminate. }
  destruct (runToAwait h (k x) (browser s)) as [[t w] tr]. simpl in *.
  assert (Hlog : count isRenewalCall (log s ++ Ev e x :: tr) = count isRenewalCall (log s)).
  { rewrite count_app, count_renewal_ev, Hcnt. lia. }
  destruct t as [X' e' k' | b]; simpl; (split; [| exact Hlog]).
  - split; simpl.
    + intros q Hq. unfold isPending in Hq. simpl in Hq.
      rewrite nth_error_setNth in Hq.
      destruct (q =? p)%nat eqn:Hqp.
      * apply Nat.eqb_eq in Hqp. subst q. exact (proj1 Hc p Hpend).
      * apply (proj1 Hc q). unfold isPending. exact Hq.
    + apply Forall_setNth; [exact (proj2 Hc) | exact Hquiet].
  - split; simpl.
    + intros q Hq. unfold isPending in Hq. simpl in Hq.
      rewrite nth_error_setNth in Hq.
      destruct (q =? p)%nat eqn:Hqp.
      * rewrite Hlen in Hq. discriminate.
      * exfalso. apply Nat.eqb_neq in Hqp.
        assert (Hq' : isPending s q = true) by (unfold isPending; exact Hq).
        destruct (proj1 Hc q Hq') as [_ H1].
        destruct (proj1 Hc p Hpend) as [_ H2].
        congruence.
    + apply Forall_setNth; [exact (proj2 Hc) | exact I].
Qed.


(** *** Single flight *)




(** *** The shared variables after a renewal *)

Lemma settled_after_delivery :
  forall (W : Type) (h : Handler W) (s : Coordinator W) p r (X : Type) (e : Eff X) k x b,
    nth_error (promises s) p = Some (Awaiting e k) ->
    answerTo e r = Some x ->
    fst (fst (runToAwait h (k x) (browser s))) = Settled b ->
    settledAndCleared (deliver h p r s) p b.
Proof.
  intros W h s p r X e k x b Hp Ha Hs.
  rewrite (deliver_pending W h s p r X e k x Hp Ha), Hs.
  unfold settledAndCleared, outcome. simpl.
  rewrite nth_error_setNth, Nat.eqb_refl.
  assert (Hlen : (p <? List.length (promises s))%nat = true).
  { apply Nat.ltb_lt. apply nth_error_Some. rewrite Hp. discriminate. }
  rewrite Hlen. repeat split; reflexivity.
Qed.

(** A call of [refreshToken] once the shared variables are cleared. *)
Lemma fresh_call_after_settlement :
  forall cfg (W : Type) (h : Handler W) (t : Coordinator W) q b,
    settledAndCleared t q b ->
    fst (refreshToken cfg h t) = List.length (promises t) /\
    fst (refreshToken cfg h t) <> q /\
    isPending (snd (refreshToken cfg h t)) (fst (refreshToken cfg h t)) = true /\
    count isRenewalCall (log (snd (refreshToken cfg h t))) =
      count isRenewalCall (log t) + 1.
Proof.
  intros cfg W h t q b [Ho [Hf Hp]].
  destruct (refreshToken_fresh cfg W h t (or_introl Hf)) as [k [_ [_ Heq]]].
  rewrite Heq. simpl. split; [reflexivity |]. split; [| split].
  - unfold outcome in Ho. intro Hq. subst q.
    assert (Hnone : nth_error (promises t) (List.length (promises t)) = None)
      by (apply nth_error_None; lia).
    rewrite Hnone in Ho. discriminate.
  - unfold isPending. simpl. rewrite nth_error_app2 by lia.
    rewrite Nat.sub_diag. reflexivity.
  - rewrite count_app. reflexivity.
Qed.

(** C7: a renewal started from a reachable state with no renewal pending
    settles with the answer of its renewal call, or, refused by the server
    away from the login page, with the answer of its logout call; it
    resolves [true] on a successful response and [false] on a refusal and on
    a network error; and a promise never settles without [isRefreshing]
    being [false] and [refreshPromise] being [null] in the same step, so
    that the next call of [refreshToken] sends a renewal call of its own. *)
Theorem renewal_clears_in_flight_handle :
  forall cfg (W : Type) (h : Handler W) (w : W) (before : list Step) (r : FetchResult),
    isRefreshing (fst (exec cfg h before (start w))) = false ->
    let s := fst (exec cfg h before (start w)) in
    let p := fst (refreshToken cfg h s) in
    let s1 := snd (refreshToken cfg h s) in
    (settledAndCleared (deliver h p r s1) p (renewalOutcome r) \/
     (renewalOutcome r = false /\
      isPending (deliver h p r s1) p = true /\
      forall r', settledAndCleared (deliver h p r' (deliver h p r s1)) p false)) /\
    (forall (t : Coordinator W) q r',
       isPending t q = true ->
       isPending (deliver h q r' t) q = false ->
       exists b, settledAndCleared (deliver h q r' t) q b) /\
    (forall (t : Coordinator W) q b,
       settledAndCleared t q b ->
       fst (refreshToken cfg h t) <> q /\
       isPending (snd (refreshToken cfg h t)) (fst (refreshToken cfg h t)) = true /\
       count isRenewalCall (log (snd (refreshToken cfg h t))) =
         count isRenewalCall (log t) + 1).
Proof.
  intros cfg W h w before r Hidle s p s1. split; [| split].
  - destruct (refreshToken_fresh cfg W h s (or_introl Hidle)) as [k [_ [Hg Heq]]].
    unfold p, s1. rewrite Heq. simpl.
    set (n := List.length (promises s)).
    set (t1 := mkCoordinator true (Some n)
                 (promises s ++ [Awaiting (OriginalFetch refreshInput postWithCredentials) k])
                 (browser s) (log s ++ [Issued refreshInput postWithCredentials])).
    assert (Hp : nth_error (promises t1) n =
                 Some (Awaiting (OriginalFetch refreshInput postWithCredentials) k)).
    { simpl. unfold n. rewrite nth_error_app2 by lia. rewrite Nat.sub_diag. reflexivity. }
    destruct (Hg W h r (browser t1)) as [Hs | [Hout [k' [Hs Hk']]]].
    + left.
      exact (settled_after_delivery W h t1 n r _ _ k r _ Hp eq_refl Hs).
    + right. split; [exact Hout |].
      pose proof (deliver_pending W h t1 n r _ _ k r Hp eq_refl) as Hd.
      rewrite Hs in Hd.
      assert (Hlen : (n <? List.length (promises t1))%nat = true).
      { apply Nat.ltb_lt. apply nth_error_Some. rewrite Hp. discriminate. }
      assert (Hp2 : nth_error (promises (deliver h n r t1)) n =
                    Some (Awaiting (OriginalFetch logoutInput postWithCredentials) k')).
      { rewrite Hd. cbn [promises].
        rewrite nth_error_setNth, Nat.eqb_refl, Hlen. reflexivity. }
      split.
      * unfold isPending. rewrite Hp2. reflexivity.
      * intro r'.
        exact (settled_after_delivery W h (deliver h n r t1) n r' _ _ k' r' false
                 Hp2 eq_refl (Hk' r' _)).
  - intros t q r' Hq Hafter.
    destruct (pending_task W t q Hq) as [X [e [k Hp]]].
    destruct (answerTo e r') as [x |] eqn:Ha.
    + destruct (fst (fst (runToAwait h (k x) (browser t)))) as [X' e' k' | b] eqn:Hs.
      * exfalso.
        rewrite (deliver_pending W h t q r' X e k x Hp Ha), Hs in Hafter.
        unfold isPending in Hafter. simpl in Hafter.
        rewrite nth_error_setNth, Nat.eqb_refl in Hafter.
        assert (Hlen : (q <? List.length (promises t))%nat = true).
        { apply Nat.ltb_lt. apply nth_error_Some. rewrite Hp. discriminate. }
        rewrite Hlen in Hafter. discriminate.
      * exists b. exact (settled_after_delivery W h t q r' X e k x b Hp Ha Hs).
    + exfalso. unfold deliver in Hafter. rewrite Hp, Ha in Hafter. congruence.
  - intros t q b Hsc.
    destruct (fresh_call_after_settlement cfg W h t q b Hsc) as [_ H]. exact H.
Qed.

Lemma renewal_clears_in_flight_handle_witness :
  let w := mkBrowser None 0 ["/play"] [] [] in
  let s1 := snd (refreshToken scenarioConfig browse (start w)) in
  settledAndCleared (deliver browse 0 Rejected s1) 0 false.
Proof.
  destruct (proj1 (renewal_clears_in_flight_handle scenarioConfig Browser browse
                     (mkBrowser None 0 ["/play"] [] []) [] Rejected eq_refl))
    as [H | [_ [H _]]].
  - exact H.
  - vm_compute in H. discriminate H.
Defined.

(** ** The credential reader *)

(** *** The instance of the platform functions *)

Lemma decode_encodeCodeUnit :
  forall c s,
    Platform.decodeURIComponent (Platform.encodeCodeUnit c ++ s) =
    option_map (String c) (Platform.decodeURIComponent s).
Proof.
  intros c s.
  destruct c as [[] [] [] [] [] [] [] []]; reflexivity.
Qed.

Lemma platform_decode_encode :
  forall s, Platform.decodeURIComponent (Platform.encodeURIComponent s) = Some s.
Proof.
  induction s as [| c s IH]; simpl; [reflexivity |].
  rewrite decode_encodeCodeUnit, IH. reflexivity.
Qed.

Lemma includes_percent_cons :
  forall c s,
    JS.includes (String c s) "%" = false ->
    Ascii.eqb c "%" = false /\ JS.includes s "%" = false.
Proof.
  intros c s H. cbn [JS.includes JS.startsWith] in H.
  destruct (Ascii.eqb c "%"); cbn [andb] in H; [discriminate H |].
  split; [reflexivity | exact H].
Qed.

Lemma platform_decode_plain :
  forall s, JS.includes s "%" = false -> Platform.decodeURIComponent s = Some s.
Proof.
  induction s as [| c s IH]; intro H; [reflexivity |].
  destruct (includes_percent_cons c s H) as [Hc Hs].
  simpl. rewrite Hc, (IH Hs). reflexivity.
Qed.

(** *** Decoding what was encoded *)

Section ReaderRoundTrip.

Variable decodeURIComponent : string -> option string.
Variable encodeURIComponent : string -> string.
Variable JSON_parse : string -> option Auth.AuthInfo.

(** What the reader needs of the platform: decoding undoes encoding, text
    without a percent sign decodes to itself, and the empty text is not
    JSON. *)
Hypothesis decode_encode :
  forall s, decodeURIComponent (encodeURIComponent s) = Some s.
Hypothesis decode_plain :
  forall s, JS.includes s "%" = false -> decodeURIComponent s = Some s.
Hypothesis parse_empty : JSON_parse "" = None.

Local Abbreviation parseAuthInfo := (Auth.parseAuthInfo decodeURIComponent JSON_parse).

Lemma encoded_not_empty :
  forall s, s <> "" -> encodeURIComponent s <> "".
Proof.
  intros s Hs He.
  pose proof (decode_encode s) as H1. rewrite He in H1.
  rewrite (decode_plain "" eq_refl) in H1. injection H1 as H1. congruence.
Qed.

Lemma parseAuthInfo_not_empty :
  forall v,
    v <> "" ->
    parseAuthInfo (Some v) =
    JSON_parse
      (let decoded := match decodeURIComponent v with Some d => d | None => v end in
       if JS.includes decoded "%"
       then match decodeURIComponent decoded with Some d => d | None => v end
       else decoded).
Proof.
  intros v Hv. unfold Auth.parseAuthInfo.
  apply String.eqb_neq in Hv. rewrite Hv. reflexivity.
Qed.

(** C8, amended: for a record [r] with JSON text [j], the reader returns [r]
    from [j] encoded twice; it returns [r] from [j] itself and from [j]
    encoded once when [j] holds no percent sign. *)
Theorem parseAuthInfo_round_trip :
  forall j r,
    JSON_parse j = Some r ->
    parseAuthInfo (Some (encodeURIComponent (encodeURIComponent j))) = Some r /\
    (JS.includes j "%" = false ->
     parseAuthInfo (Some j) = Some r /\
     parseAuthInfo (Some (encodeURIComponent j)) = Some r).
Proof.
  intros j r Hj.
  assert (Hne : j <> "") by (intro He; rewrite He, parse_empty in Hj; discriminate).
  pose proof (encoded_not_empty j Hne) as Hne1.
  pose proof (encoded_not_empty _ Hne1) as Hne2.
  split.
  - rewrite (parseAuthInfo_not_empty _ Hne2), decode_encode. cbv zeta.
    destruct (JS.includes (encodeURIComponent j) "%") eqn:Hp.
    + rewrite decode_encode. exact Hj.
    + pose proof (decode_plain _ Hp) as H1. rewrite decode_encode in H1.
      injection H1 as H1. rewrite <- H1. exact Hj.
  - intro Hplain. split.
    + rewrite (parseAuthInfo_not_empty _ Hne), (decode_plain _ Hplain). cbv zeta.
      rewrite Hplain. exact Hj.
    + rewrite (parseAuthInfo_not_empty _ Hne1), decode_encode. cbv zeta.
      rewrite Hplain. exact Hj.
Qed.

End ReaderRoundTrip.

Lemma parseAuthInfo_round_trip_witness :
  let r := credential 1000000 605800000 in
  let j := Platform.JSON_stringify r in
  Platform.parseAuthInfo
    (Some (Platform.encodeURIComponent (Platform.encodeURIComponent j))) = Some r /\
  (JS.includes j "%" = false ->
   Platform.parseAuthInfo (Some j) = Some r /\
   Platform.parseAuthInfo (Some (Platform.encodeURIComponent j)) = Some r).
Proof.
  exact (parseAuthInfo_round_trip
           Platform.decodeURIComponent Platform.encodeURIComponent Platform.JSON_parse
           platform_decode_encode platform_decode_plain eq_refl
           (Platform.JSON_stringify (credential 1000000 605800000))
           (credential 1000000 605800000) eq_refl).
Defined.

(** C8, as the design words it, fails on a record whose text holds a percent
    sign.  The reader decodes whatever it is given: the text of a record
    with the user name [a%41], not encoded at all, is decoded once and read
    as a record with the user name [aA]. *)
Lemma parseAuthInfo_percent_counterexample :
  ~ (forall j r,
       Platform.JSON_parse j = Some r ->
       Platform.parseAuthInfo (Some j) = Some r /\
       Platform.parseAuthInfo (Some (Platform.encodeURIComponent j)) = Some r /\
       Platform.parseAuthInfo
         (Some (Platform.encodeURIComponent (Platform.encodeURIComponent j))) = Some r).
Proof.
  intro H.
  pose (r := Auth.mkAuthInfo None (Some "a%41") None (Some 1000000%Z)
               (Some Auth.user) None None (Some 605800000%Z)).
  destruct (H (Platform.JSON_stringify r) r eq_refl) as [H0 _].
  vm_compute in H0. discriminate H0.
Qed.

(** The text of a record with the user name [100%], encoded once: the first
    decoding gives the text back, the second one throws on its lone percent
    sign, the reader falls back to the encoded input, and [JSON.parse]
    refuses that. *)
Lemma parseAuthInfo_percent_encoded_once :
  let r := Auth.mkAuthInfo None (Some "100%") None None None None None None in
  Platform.JSON_parse (Platform.JSON_stringify r) = Some r /\
  Platform.parseAuthInfo
    (Some (Platform.encodeURIComponent (Platform.JSON_stringify r))) = None.
Proof. split; reflexivity. Qed.

(** *** The Authorization header *)

Lemma trimStart_clean :
  forall s, JS.startsClean s = true -> JS.trimStart s = s.
Proof.
  intros [| c s] H; [discriminate |]. simpl in *.
  apply negb_true_iff in H. rewrite H. reflexivity.
Qed.

Lemma trimStart_whitespace :
  forall l s, JS.allWhiteSpace l = true -> JS.trimStart (l ++ s) = JS.trimStart s.
Proof.
  induction l as [| c l IH]; intros s H; simpl in *; [reflexivity |].
  apply andb_true_iff in H. destruct H as [Hc Hl]. rewrite Hc. apply IH. exact Hl.
Qed.

Lemma trimEnd_whitespace :
  forall r, JS.allWhiteSpace r = true -> JS.trimEnd r = "".
Proof.
  induction r as [| c r IH]; intro H; simpl in *; [reflexivity |].
  apply andb_true_iff in H. destruct H as [Hc Hr]. rewrite (IH Hr), Hc. reflexivity.
Qed.

Lemma trimEnd_app_whitespace :
  forall s r, JS.allWhiteSpace r = true -> JS.trimEnd (s ++ r) = JS.trimEnd s.
Proof.
  induction s as [| c s IH]; intros r H; simpl.
  - apply trimEnd_whitespace. exact H.
  - rewrite (IH r H). reflexivity.
Qed.

Lemma trimEnd_app_kept :
  forall a t, JS.trimEnd t = t -> t <> "" -> JS.trimEnd (a ++ t) = a ++ t.
Proof.
  induction a as [| c a IH]; intros t Ht Hne; simpl; [exact Ht |].
  rewrite (IH t Ht Hne). destruct (a ++ t) eqn:Hat; [| reflexivity].
  exfalso. destruct a; simpl in Hat; [contradiction | discriminate].
Qed.

Lemma captureAfterWs_token :
  forall ws t,
    JS.allWhiteSpace ws = true ->
    JS.startsClean t = true ->
    JS.dotsToEnd t = true ->
    JS.captureAfterWs (ws ++ t) = Some t.
Proof.
  induction ws as [| c ws IH]; intros t Hws Hc Hd.
  - simpl. destruct t as [| d t]; [discriminate |].
    cbn [JS.captureAfterWs]. rewrite Hd.
    simpl in Hc. apply negb_true_iff in Hc. rewrite Hc. reflexivity.
  - simpl in Hws. apply andb_true_iff in Hws. destruct Hws as [Hw Hws].
    change ((String c ws ++ t)%string) with (String c (ws ++ t)).
    cbn [JS.captureAfterWs]. rewrite Hw, (IH t Hws Hc Hd). reflexivity.
Qed.

Lemma stripKeyword_scheme :
  forall kw scheme rest,
    JS.lowerString scheme = JS.lowerString kw ->
    JS.stripKeyword kw (scheme ++ rest) = Some rest.
Proof.
  induction kw as [| a kw IH]; intros scheme rest H.
  - destruct scheme; [reflexivity | discriminate].
  - destruct scheme as [| b scheme]; [discriminate |].
    simpl in H. injection H as Hb Hs.
    simpl. rewrite Hb, Ascii.eqb_refl. apply IH. exact Hs.
Qed.

Lemma whitespace_is_not_a_letter :
  forall c, JS.isWhiteSpace c = true -> JS.isWhiteSpace (JS.toLowerAscii c) = true.
Proof.
  intro c. destruct c as [[] [] [] [] [] [] [] []]; vm_compute; intro H;
    first [reflexivity | discriminate H].
Qed.

Lemma scheme_starts_clean :
  forall scheme,
    JS.lowerString scheme = "bearer" \/ JS.lowerString scheme = "token" ->
    JS.startsClean scheme = true.
Proof.
  intros [| c scheme] [H | H]; try discriminate; simpl in *;
    injection H as Hc _;
    destruct (JS.isWhiteSpace c) eqn:Hw; try reflexivity;
    apply whitespace_is_not_a_letter in Hw; rewrite Hc in Hw; discriminate Hw.
Qed.

Lemma startsClean_app :
  forall s t, JS.startsClean s = true -> JS.startsClean (s ++ t) = true.
Proof. intros [| c s] t H; [discriminate | exact H]. Qed.

Lemma startsClean_not_empty :
  forall s, JS.startsClean s = true -> s <> "".
Proof. intros [| c s] H; [discriminate | discriminate]. Qed.

Lemma string_app_assoc :
  forall a b c : string, ((a ++ b) ++ c)%string = (a ++ b ++ c)%string.
Proof.
  induction a as [| x a IH]; intros b c; simpl; [reflexivity |].
  rewrite IH. reflexivity.
Qed.

(** The text between the surrounding whitespace of a header with a scheme. *)
Lemma trim_header :
  forall l scheme ws token r,
    JS.allWhiteSpace l = true ->
    JS.allWhiteSpace r = true ->
    JS.startsClean scheme = true ->
    JS.startsClean token = true ->
    JS.trimEnd token = token ->
    JS.trim (l ++ scheme ++ ws ++ token ++ r) = scheme ++ ws ++ token.
Proof.
  intros l scheme ws token r Hl Hr Hs Ht He. unfold JS.trim.
  rewrite (trimStart_whitespace l _ Hl).
  rewrite (trimStart_clean _ (startsClean_app scheme _ Hs)).
  replace (scheme ++ ws ++ token ++ r) with (((scheme ++ ws) ++ token) ++ r)
    by (rewrite !string_app_assoc; reflexivity).
  rewrite (trimEnd_app_whitespace _ r Hr).
  rewrite (trimEnd_app_kept _ token He (startsClean_not_empty _ Ht)).
  rewrite string_app_assoc. reflexivity.
Qed.

Lemma trim_token :
  forall token,
    JS.startsClean token = true -> JS.trimEnd token = token -> JS.trim token = token.
Proof.
  intros token Ht He. unfold JS.trim. rewrite (trimStart_clean _ Ht). exact He.
Qed.

Lemma matchScheme_token :
  forall kw scheme ws token,
    JS.lowerString scheme = JS.lowerString kw ->
    ws <> "" ->
    JS.allWhiteSpace ws = true ->
    JS.startsClean token = true ->
    JS.dotsToEnd token = true ->
    JS.matchScheme kw (scheme ++ ws ++ token) = Some token.
Proof.
  intros kw scheme ws token Hk Hne Hws Ht Hd. unfold JS.matchScheme.
  rewrite (stripKeyword_scheme kw scheme _ Hk).
  destruct ws as [| c ws]; [contradiction |].
  simpl in Hws. apply andb_true_iff in Hws. destruct Hws as [Hc Hws].
  cbn [append]. rewrite Hc. apply captureAfterWs_token; assumption.
Qed.

Lemma matchScheme_bearer_on_token :
  forall scheme rest,
    JS.lowerString scheme = "token" ->
    JS.matchScheme "Bearer" (scheme ++ rest) = None.
Proof.
  intros [| c scheme] rest H; [discriminate |].
  simpl in H. injection H as Hc _.
  unfold JS.matchScheme. simpl. rewrite Hc. reflexivity.
Qed.

(** What [getAuthTokenFromHeader] returns for a header made of a scheme (the
    word Bearer or Token in any letter case), whitespace and a token, with
    whitespace around: the token. *)
Lemma getAuthTokenFromHeader_scheme :
  forall l scheme ws token r,
    JS.allWhiteSpace l = true ->
    JS.allWhiteSpace r = true ->
    JS.lowerString scheme = "bearer" \/ JS.lowerString scheme = "token" ->
    ws <> "" ->
    JS.allWhiteSpace ws = true ->
    JS.startsClean token = true ->
    JS.trimEnd token = token ->
    JS.dotsToEnd token = true ->
    Auth.getAuthTokenFromHeader (l ++ scheme ++ ws ++ token ++ r) = token.
Proof.
  intros l scheme ws token r Hl Hr Hs Hne Hws Ht He Hd.
  pose proof (scheme_starts_clean scheme Hs) as Hsc.
  unfold Auth.getAuthTokenFromHeader.
  rewrite (trim_header l scheme ws token r Hl Hr Hsc Ht He). cbv zeta.
  assert (Hnz : (scheme ++ ws ++ token =? "") = false).
  { apply String.eqb_neq. apply startsClean_not_empty.
    apply startsClean_app. exact Hsc. }
  rewrite Hnz.
  destruct Hs as [Hb | Hk].
  - rewrite (matchScheme_token "Bearer" scheme ws token Hb Hne Hws Ht Hd).
    apply trim_token; assumption.
  - rewrite (matchScheme_bearer_on_token scheme _ Hk).
    rewrite (matchScheme_token "Token" scheme ws token Hk Hne Hws Ht Hd).
    apply trim_token; assumption.
Qed.

(** *** Header before cookie *)

Section HeaderOverCookie.

Variable decodeURIComponent : string -> option string.
Variable JSON_parse : string -> option Auth.AuthInfo.

Local Abbreviation parseAuthInfo := (Auth.parseAuthInfo decodeURIComponent JSON_parse).
Local Abbreviation getAuthInfoFromCookie :=
  (Auth.getAuthInfoFromCookie decodeURIComponent JSON_parse).

Lemma getAuthInfoFromCookie_cases :
  forall request,
    getAuthInfoFromCookie request =
    match Auth.headers_get request "authorization" with
    | Some h =>
        match parseAuthInfo (Some (Auth.getAuthTokenFromHeader h)) with
        | Some r => Some r
        | None =>
            match Auth.cookies_get request "auth" with
            | Some v => parseAuthInfo (Some v)
            | None => None
            end
        end
    | None =>
        match Auth.cookies_get request "auth" with
        | Some v => parseAuthInfo (Some v)
        | None => None
        end
    end.
Proof.
  intro request. unfold Auth.getAuthInfoFromCookie.
  destruct (Auth.headers_get request "authorization") as [h |]; [| reflexivity].
  unfold JS.truthy_string.
  destruct (h =? "") eqn:He; [| reflexivity].
  apply String.eqb_eq in He. subst h. reflexivity.
Qed.

(** C10: the record parsed from the Authorization header, when there is a
    header and it parses, is what the reader returns; a header made of the
    word Bearer or Token in any letter case, whitespace and a token, with
    whitespace around, is parsed as its token; when there is no header, or
    it does not parse, the reader returns what the [auth] cookie parses to,
    and [null] when there is no [auth] cookie. *)
Theorem header_over_cookie :
  forall request,
    (forall h r,
       Auth.headers_get request "authorization" = Some h ->
       parseAuthInfo (Some (Auth.getAuthTokenFromHeader h)) = Some r ->
       getAuthInfoFromCookie request = Some r) /\
    (forall l scheme ws token rt r,
       JS.allWhiteSpace l = true ->
       JS.allWhiteSpace rt = true ->
       JS.lowerString scheme = "bearer" \/ JS.lowerString scheme = "token" ->
       ws <> "" ->
       JS.allWhiteSpace ws = true ->
       JS.startsClean token = true ->
       JS.trimEnd token = token ->
       JS.dotsToEnd token = true ->
       Auth.headers_get request "authorization" = Some (l ++ scheme ++ ws ++ token ++ rt) ->
       parseAuthInfo (Some token) = Some r ->
       getAuthInfoFromCookie request = Some r) /\
    (Auth.headers_get request "authorization" = None \/
     (exists h,
        Auth.headers_get request "authorization" = Some h /\
        parseAuthInfo (Some (Auth.getAuthTokenFromHeader h)) = None) ->
     getAuthInfoFromCookie request =
       match Auth.cookies_get request "auth" with
       | Some v => parseAuthInfo (Some v)
       | None => None
       end /\
     (Auth.cookies_get request "auth" = None -> getAuthInfoFromCookie request = None)).
Proof.
  intro request. rewrite getAuthInfoFromCookie_cases.
  split; [| split].
  - intros h r Hh Hp. rewrite Hh, Hp. reflexivity.
  - intros l scheme ws token rt r Hl Hrt Hs Hne Hws Ht He Hd Hh Hp.
    rewrite Hh.
    rewrite (getAuthTokenFromHeader_scheme l scheme ws token rt Hl Hrt Hs Hne Hws Ht He Hd).
    rewrite Hp. reflexivity.
  - intros [Hn | [h [Hh Hp]]].
    + rewrite Hn. split; [reflexivity |]. intros ->. reflexivity.
    + rewrite Hh, Hp. split; [reflexivity |]. intros ->. reflexivity.
Qed.

End HeaderOverCookie.

Lemma header_over_cookie_witness :
  let fromHeader := credential 1000000 605800000 in
  let fromCookie := credential 2000000 606800000 in
  Platform.getAuthInfoFromCookie
    (requestWith
       (Some (JS.noBreakSpace ++ "bEARER" ++ (" " ++ JS.noBreakSpace) ++
              Platform.encodeURIComponent (Platform.JSON_stringify fromHeader) ++
              JS.noBreakSpace))
       (Some (Platform.encodeURIComponent (Platform.JSON_stringify fromCookie)))) =
  Some fromHeader.
Proof.
  refine ((proj1 (proj2 (header_over_cookie
            Platform.decodeURIComponent Platform.JSON_parse
            (requestWith
               (Some (JS.noBreakSpace ++ "bEARER" ++ (" " ++ JS.noBreakSpace) ++
                      Platform.encodeURIComponent
                        (Platform.JSON_stringify (credential 1000000 605800000)) ++
                      JS.noBreakSpace))
               (Some (Platform.encodeURIComponent
                        (Platform.JSON_stringify (credential 2000000 606800000))))))))
            JS.noBreakSpace "bEARER" (" " ++ JS.noBreakSpace)
            (Platform.encodeURIComponent (Platform.JSON_stringify (credential 1000000 605800000)))
            JS.noBreakSpace (credential 1000000 605800000)
            eq_refl eq_refl (or_introl eq_refl) _ eq_refl eq_refl eq_refl eq_refl eq_refl eq_refl).
  discriminate.
Defined.

(** The whitespace of a header need not be ASCII: a NO-BREAK SPACE after the
    scheme separates it from the token as a SPACE does, and one at either end
    of the header is trimmed away. *)
Example getAuthTokenFromHeader_no_break_space :
  Auth.getAuthTokenFromHeader ("Bearer" ++ JS.noBreakSpace ++ "abc") = "abc" /\
  Auth.getAuthTokenFromHeader (JS.noBreakSpace ++ "abc" ++ JS.noBreakSpace) = "abc" /\
  Auth.getAuthTokenFromHeader ("Token" ++ JS.noBreakSpace ++ JS.noBreakSpace) = "Token".
Proof. repeat split; reflexivity. Qed.

(** * Further properties *)

Import Paths.

(** ** The response handler, way by way *)

Lemma handleResponse_handled :
  forall (W : Type) (h : Handler W) (w : W) input init response,
    Handled input init response
      (result (run h (handleResponse input init response) w))
      (trace (run h (handleResponse input init response) w)).
Proof.
  intros W h w input init response. unfold handleResponse.
  destruct (status response =? 401)%Z eqn:Hs.
  2:{ apply Z.eqb_neq in Hs. apply handled_other. exact Hs. }
  apply Z.eqb_eq in Hs. simpl.
  destruct (h _ LocationPathname w) as [path w1].
  destruct (path =? "/login") eqn:Hp.
  { apply String.eqb_eq in Hp. subst path. apply handled_on_login. exact Hs. }
  apply String.eqb_neq in Hp.
  destruct (text response) as [body |] eqn:Ht.
  2:{ apply handled_unreadable; assumption. }
  destruct (isAuthError body) eqn:Hm.
  2:{ apply (handled_unrecognized input init response path body); assumption. }
  simpl. destruct (h bool AwaitRefreshToken w1) as [[] w2].
  2:{ apply (handled_not_renewed input init response path body); assumption. }
  simpl. destruct (h _ (OriginalFetch input init) w2) as [[response' |] w3].
  2:{ apply (handled_replay_failed input init response path body); assumption. }
  destruct (status response' =? 401)%Z eqn:Hs'.
  2:{ apply Z.eqb_neq in Hs'.
      apply (handled_replayed input init response path body response'); assumption. }
  apply Z.eqb_eq in Hs'. simpl.
  destruct (h _ LocationPathname w3) as [path' w4].
  destruct (path' =? "/login") eqn:Hp'.
  { apply String.eqb_eq in Hp'. subst path'.
    apply (handled_replay_on_login input init response path body response'); assumption. }
  apply String.eqb_neq in Hp'. simpl.
  destruct (h _ (OriginalFetch logoutInput postWithCredentials) w4) as [r w5].
  destruct r as [resp |]; simpl.
  - destruct (h unit SetLocationHref w5) as [[] w6].
    apply (handled_terminated input init response path body response' path'
             (Fulfilled resp)); assumption.
  - destruct (h unit ClearAuthCookie w5) as [[] w6].
    destruct (h unit SetLocationHref w6) as [[] w7].
    apply (handled_terminated input init response path body response' path'
             Rejected); assumption.
Qed.

Lemma handled_counts :
  forall input init response res tr,
    Handled input init response res tr ->
    count isRenewal tr <= 1 /\ count isRedirect tr <= 1.
Proof.
  intros input init response res tr H.
  destruct H; try (split; unfold count; simpl; lia).
  destruct r; split; unfold count; simpl; lia.
Qed.

Lemma handled_result :
  forall input init response res tr,
    Handled input init response res tr ->
    res = Fulfilled response \/
    exists response',
      res = Fulfilled response' /\
      In (Ev (OriginalFetch input init) (Fulfilled response')) tr.
Proof.
  intros input init response res tr H.
  destruct H; try (left; reflexivity);
    right; eexists; (split; [reflexivity | simpl; tauto]).
Qed.

(** The check before the request renews at most once, terminates at most
    once, and never does both. *)
Lemma refreshProactively_counts :
  forall cfg (W : Type) (h : Handler W) (w : W),
    count isRenewal (trace (run h (refreshProactively cfg (windowFetch cfg)) w)) +
    count isRedirect (trace (run h (refreshProactively cfg (windowFetch cfg)) w)) <= 1.
Proof.
  intros cfg W h w.
  destruct (refreshProactively_trace cfg W h w)
    as [[x ->] | [[x [n ->]] | [[x [n [b ->]]] | [x [n [r ->]]]]]];
    try (unfold count; simpl; lia).
  destruct r; unfold count; simpl; lia.
Qed.

(** X1.  A request that is not excluded and whose response is not a 401:
    the caller gets that response, and the response is not acted upon.  The
    response handler does nothing at all, so the effects of the call are
    those of the check made before the request and the one request, counted
    whatever their order in time: no renewal, no read of the page address,
    no second request on account of the response. *)
Theorem other_status_passthrough :
  forall cfg (W : Type) (h : Handler W) (w w1 w2 : W) tr1 input init response,
    isExcluded (urlOf input) = false ->
    run h (refreshProactively cfg (windowFetch cfg)) w = (tt, w1, tr1) ->
    h _ (OriginalFetch input init) w1 = (Fulfilled response, w2) ->
    status response <> 401%Z ->
    result (run h (windowFetch cfg input init) w) = Fulfilled response /\
    run h (handleResponse input init response) w2 = (Fulfilled response, w2, []) /\
    (forall f : Event -> bool,
       count f (trace (run h (windowFetch cfg input init) w)) =
       count f tr1 + count f [Ev (OriginalFetch input init) (Fulfilled response)]).
Proof.
  intros cfg W h w w1 w2 tr1 input init response Hex Hpre Hr Hs.
  assert (Hh : run h (handleResponse input init response) w2 =
               (Fulfilled response, w2, [])).
  { unfold handleResponse. apply Z.eqb_neq in Hs. rewrite Hs. reflexivity. }
  rewrite (run_windowFetch cfg W h w w1 tr1 input init Hex Hpre), Hr, Hh.
  split; [reflexivity |]. split; [reflexivity |].
  intro f. unfold trace. cbn [fst snd]. apply count_app.
Qed.

Lemma other_status_passthrough_witness :
  result (run browse
            (windowFetch scenarioConfig (InputURL "https://tv.example/api/search?q=a") None)
            (mkBrowser (Some (credential 1000000 605800000)) 1180000 []
               [Fulfilled (mkResponse 503 (Some "Unauthorized"))] [])) =
  Fulfilled (mkResponse 503 (Some "Unauthorized")).
Proof.
  exact (proj1
           (other_status_passthrough scenarioConfig Browser browse
              (mkBrowser (Some (credential 1000000 605800000)) 1180000 []
                 [Fulfilled (mkResponse 503 (Some "Unauthorized"))] [])
              _ _ _ (InputURL "https://tv.example/api/search?q=a") None
              (mkResponse 503 (Some "Unauthorized"))
              eq_refl eq_refl eq_refl ltac:(discriminate))).
Defined.

(** X2.  The promise of a wrapped call rejects exactly when the first
    sending of the request rejects: a replay that fails and a logout that
    fails are never passed on as errors; and what the caller gets is the
    first response or the response of the replay. *)
Theorem wrapper_rejects_with_request :
  forall cfg (W : Type) (h : Handler W) (w w1 w2 : W) tr1 input init r,
    isExcluded (urlOf input) = false ->
    run h (refreshProactively cfg (windowFetch cfg)) w = (tt, w1, tr1) ->
    h _ (OriginalFetch input init) w1 = (r, w2) ->
    (result (run h (windowFetch cfg input init) w) = Rejected <-> r = Rejected) /\
    (forall response,
       r = Fulfilled response ->
       result (run h (windowFetch cfg input init) w) = Fulfilled response \/
       exists response',
         result (run h (windowFetch cfg input init) w) = Fulfilled response' /\
         In (Ev (OriginalFetch input init) (Fulfilled response'))
            (trace (run h (windowFetch cfg input init) w))).
Proof.
  intros cfg W h w w1 w2 tr1 input init r Hex Hpre Hr.
  rewrite (run_windowFetch cfg W h w w1 tr1 input init Hex Hpre), Hr.
  destruct r as [response |].
  - pose proof (handleResponse_handled W h w2 input init response) as Hh.
    destruct (run h (handleResponse input init response) w2) as [[res w3] tr3].
    unfold result, trace in *. simpl in *.
    destruct (handled_result _ _ _ _ _ Hh) as [-> | [response' [-> Hin]]].
    + split; [split; discriminate |]. intros resp Heq. left. congruence.
    + split; [split; discriminate |]. intros resp Heq. right.
      exists response'. split; [reflexivity |].
      apply in_or_app. right. right. exact Hin.
  - unfold result. simpl. split; [split; reflexivity |]. discriminate.
Qed.

Lemma wrapper_rejects_with_request_witness :
  result (run browse
            (windowFetch scenarioConfig (InputString "/api/favorites") None)
            (mkBrowser (Some (credential 1000000 605800000)) 1180000 ["/play"; "/play"]
               [Fulfilled (mkResponse 401 (Some "Unauthorized")); Rejected] [true])) =
    Rejected <->
  Fulfilled (mkResponse 401 (Some "Unauthorized")) = Rejected.
Proof.
  exact (proj1 (wrapper_rejects_with_request scenarioConfig Browser browse
                  (mkBrowser (Some (credential 1000000 605800000)) 1180000
                     ["/play"; "/play"]
                     [Fulfilled (mkResponse 401 (Some "Unauthorized")); Rejected] [true])
                  _ _ _ (InputString "/api/favorites") None _
                  eq_refl eq_refl eq_refl)).
Defined.

(** X3.  A 401 with a marker, away from the login page, and a renewal that
    fails: the caller gets the 401 as it came; the request is not sent
    again and the wrapper neither logs out nor redirects. *)
Theorem failed_renewal_returns_first_response :
  forall (W : Type) (h : Handler W) (w w1 w2 : W) input init response body path,
    status response = 401%Z ->
    text response = Some body ->
    isAuthError body = true ->
    h _ LocationPathname w = (path, w1) ->
    path <> "/login" ->
    h _ AwaitRefreshToken w1 = (false, w2) ->
    run h (handleResponse input init response) w =
      (Fulfilled response, w2, [Ev LocationPathname path; Ev AwaitRefreshToken false]).
Proof.
  intros W h w w1 w2 input init response body path Hs Ht Hm Hp Hnl Ha.
  apply String.eqb_neq in Hnl.
  unfold handleResponse. rewrite Hs, Ht, Hm. simpl. rewrite Hp, Hnl. simpl.
  rewrite Ha. reflexivity.
Qed.

Lemma failed_renewal_returns_first_response_witness :
  run browse
    (handleResponse (InputString "/api/favorites") None
       (mkResponse 401 (Some "Access token expired")))
    (mkBrowser None 0 ["/play"] [Fulfilled (mkResponse 200 None)] [false]) =
  (Fulfilled (mkResponse 401 (Some "Access token expired")),
   mkBrowser None 0 [] [Fulfilled (mkResponse 200 None)] [],
   [Ev LocationPathname "/play"; Ev AwaitRefreshToken false]).
Proof.
  refine (failed_renewal_returns_first_response Browser browse
            (mkBrowser None 0 ["/play"] [Fulfilled (mkResponse 200 None)] [false])
            _ _ (InputString "/api/favorites") None
            (mkResponse 401 (Some "Access token expired")) "Access token expired" "/play"
            eq_refl eq_refl eq_refl eq_refl _ eq_refl).
  discriminate.
Defined.

(** X4.  After a renewal that succeeded the request is sent again.  When
    that replay fails on the network the caller still gets the first 401,
    not an error; when it is answered by anything but a 401 the caller gets
    that answer; either way nothing is terminated. *)
Theorem replay_outcome :
  forall (W : Type) (h : Handler W) (w w1 w2 w3 : W) input init response body path retried,
    status response = 401%Z ->
    text response = Some body ->
    isAuthError body = true ->
    h _ LocationPathname w = (path, w1) ->
    path <> "/login" ->
    h _ AwaitRefreshToken w1 = (true, w2) ->
    h _ (OriginalFetch input init) w2 = (retried, w3) ->
    (forall response', retried = Fulfilled response' -> status response' <> 401%Z) ->
    run h (handleResponse input init response) w =
      (match retried with
       | Rejected => Fulfilled response
       | Fulfilled response' => Fulfilled response'
       end,
       w3,
       [Ev LocationPathname path; Ev AwaitRefreshToken true;
        Ev (OriginalFetch input init) retried]).
Proof.
  intros W h w w1 w2 w3 input init response body path retried Hs Ht Hm Hp Hnl Ha Hr Hok.
  apply String.eqb_neq in Hnl.
  unfold handleResponse. rewrite Hs, Ht, Hm. simpl. rewrite Hp, Hnl. simpl.
  rewrite Ha. simpl. rewrite Hr.
  destruct retried as [response' |]; [| reflexivity].
  specialize (Hok response' eq_refl). apply Z.eqb_neq in Hok. rewrite Hok. reflexivity.
Qed.

Lemma replay_outcome_witness :
  result (run browse
            (handleResponse (InputString "/api/favorites") None
               (mkResponse 401 (Some "Unauthorized")))
            (mkBrowser None 0 ["/play"] [Rejected] [true])) =
  Fulfilled (mkResponse 401 (Some "Unauthorized")).
Proof.
  refine (f_equal result
            (replay_outcome Browser browse
               (mkBrowser None 0 ["/play"] [Rejected] [true])
               _ _ _ (InputString "/api/favorites") None
               (mkResponse 401 (Some "Unauthorized")) "Unauthorized" "/play" Rejected
               eq_refl eq_refl eq_refl eq_refl _ eq_refl eq_refl _));
    [discriminate | intros response' Hr; discriminate Hr].
Defined.

(** X5.  The response handler awaits a renewal only for a 401 whose body
    was read and holds one of the markers, and then once. *)
Theorem reactive_renewal_needs_marker :
  forall (W : Type) (h : Handler W) (w : W) input init response,
    1 <= count isRenewal (trace (run h (handleResponse input init response) w)) ->
    count isRenewal (trace (run h (handleResponse input init response) w)) = 1 /\
    status response = 401%Z /\
    exists body, text response = Some body /\ isAuthError body = true.
Proof.
  intros W h w input init response.
  pose proof (handleResponse_handled W h w input init response) as Hh.
  destruct (run h (handleResponse input init response) w) as [[res w'] tr].
  unfold result, trace in *. simpl in *.
  destruct Hh; unfold count; simpl; intro Hc; try lia;
    try (split; [reflexivity |]; split; [assumption |]; eexists; split; eassumption).
  destruct r; simpl in *;
    (split; [reflexivity |]; split; [assumption |]; eexists; split; eassumption).
Qed.

Lemma reactive_renewal_needs_marker_witness :
  status (mkResponse 401 (Some "Refresh token expired")) = 401%Z /\
  exists body,
    text (mkResponse 401 (Some "Refresh token expired")) = Some body /\
    isAuthError body = true.
Proof.
  refine (proj2 (reactive_renewal_needs_marker Browser browse
                   (mkBrowser None 0 ["/play"] [] [false])
                   (InputString "/api/favorites") None
                   (mkResponse 401 (Some "Refresh token expired")) _)).
  vm_compute. lia.
Defined.

(** X6.  The response handler logs out and redirects only after a renewal
    that succeeded and a replay that was answered 401, which is then what
    the caller gets; and it does so once. *)
Theorem termination_follows_replay_401 :
  forall (W : Type) (h : Handler W) (w : W) input init response,
    1 <= count isRedirect (trace (run h (handleResponse input init response) w)) ->
    count isRedirect (trace (run h (handleResponse input init response) w)) = 1 /\
    In (Ev AwaitRefreshToken true) (trace (run h (handleResponse input init response) w)) /\
    exists response',
      status response' = 401%Z /\
      result (run h (handleResponse input init response) w) = Fulfilled response' /\
      In (Ev (OriginalFetch input init) (Fulfilled response'))
         (trace (run h (handleResponse input init response) w)).
Proof.
  intros W h w input init response.
  pose proof (handleResponse_handled W h w input init response) as Hh.
  destruct (run h (handleResponse input init response) w) as [[res w'] tr].
  unfold result, trace in *. simpl in *.
  destruct Hh; unfold count; simpl; intro Hc; try lia.
  split; [destruct r; reflexivity |].
  split; [tauto |].
  exists response'. split; [assumption |]. split; [reflexivity | tauto].
Qed.

Lemma termination_follows_replay_401_witness :
  In (Ev AwaitRefreshToken true)
     (trace (run browse
               (handleResponse (InputString "/api/favorites") None
                  (mkResponse 401 (Some "Unauthorized")))
               (mkBrowser None 0 ["/play"; "/play"]
                  [Fulfilled (mkResponse 401 None); Rejected] [true]))).
Proof.
  refine (proj1 (proj2 (termination_follows_replay_401 Browser browse
                   (mkBrowser None 0 ["/play"; "/play"]
                      [Fulfilled (mkResponse 401 None); Rejected] [true])
                   (InputString "/api/favorites") None
                   (mkResponse 401 (Some "Unauthorized")) _))).
  vm_compute. lia.
Defined.

(** X7.  Whatever the browser answers, a wrapped call on an address that is
    not excluded sends its request at least once, so a renewal that fails
    before the request does not hold it back; it awaits at most two
    renewals and redirects at most twice. *)
Theorem wrapper_effect_bounds :
  forall cfg (W : Type) (h : Handler W) (w : W) input init,
    isExcluded (urlOf input) = false ->
    1 <= count (isRequest input init) (trace (run h (windowFetch cfg input init) w)) /\
    count isRenewal (trace (run h (windowFetch cfg input init) w)) <= 2 /\
    count isRedirect (trace (run h (windowFetch cfg input init) w)) <= 2.
Proof.
  intros cfg W h w input init Hex.
  pose proof (refreshProactively_counts cfg W h w) as Hpc.
  destruct (run h (refreshProactively cfg (windowFetch cfg)) w) as [[[] w1] tr1] eqn:Hpre.
  unfold trace in Hpc. simpl in Hpc.
  rewrite (run_windowFetch cfg W h w w1 tr1 input init Hex Hpre).
  destruct (h _ (OriginalFetch input init) w1) as [[response |] w2].
  - pose proof (handleResponse_handled W h w2 input init response) as Hh.
    destruct (run h (handleResponse input init response) w2) as [[res w3] tr3].
    unfold result, trace in *. simpl in *.
    destruct (handled_counts _ _ _ _ _ Hh) as [H1 H2].
    rewrite !count_app, !count_cons, isRequest_refl. simpl. lia.
  - unfold trace. simpl.
    rewrite !count_app, !count_cons, isRequest_refl. unfold count at 2 4 6. simpl. lia.
Qed.

Lemma wrapper_effect_bounds_witness :
  1 <= count (isRequest (InputString "/api/favorites") None)
         (trace (run browse
                   (windowFetch scenarioConfig (InputString "/api/favorites") None)
                   (mkBrowser (Some (credential 1000000 605800000)) 1360000 []
                      [Fulfilled (mkResponse 200 None)] [false]))).
Proof.
  exact (proj1 (wrapper_effect_bounds scenarioConfig Browser browse
                  (mkBrowser (Some (credential 1000000 605800000)) 1360000 []
                     [Fulfilled (mkResponse 200 None)] [false])
                  (InputString "/api/favorites") None eq_refl)).
Defined.

(** ** The expiry policy, further *)

(** X8.  Once renewal is due it stays due until [refreshExpires]: if the
    check answers [true] at one instant, it answers [true] at every later
    instant before [refreshExpires], for the same cookie. *)
Theorem renewal_due_is_monotone :
  forall cfg (W : Type) (h h' : Handler W) (wf : Fetch) (w w1 w2 v v1 v2 : W)
         a re now now',
    h _ GetAuthInfoFromBrowserCookie w = (Some a, w1) ->
    h _ DateNow w1 = (now, w2) ->
    h' _ GetAuthInfoFromBrowserCookie v = (Some a, v1) ->
    h' _ DateNow v1 = (now', v2) ->
    Auth.refreshExpires a = Some re ->
    (now <= now')%Z ->
    (now' < re)%Z ->
    result (run h (shouldRefreshToken cfg wf) w) = true ->
    result (run h' (shouldRefreshToken cfg wf) v) = true.
Proof.
  intros cfg W h h' wf w w1 w2 v v1 v2 a re now now' Hc Hn Hc' Hn' Hre Hle Hlt.
  rewrite (shouldRefreshToken_result cfg W h wf w w1 w2 (Some a) now Hc Hn).
  rewrite (shouldRefreshToken_result cfg W h' wf v v1 v2 (Some a) now' Hc' Hn').
  rewrite Hre. destruct (Auth.timestamp a) as [ts |]; [| discriminate].
  rewrite !andb_true_iff, !Z.ltb_lt. intros [[[H1 H2] H3] H4].
  repeat split; try assumption; lia.
Qed.

Lemma renewal_due_is_monotone_witness :
  result (run browse
            (shouldRefreshToken scenarioConfig (windowFetch scenarioConfig))
            (mkBrowser (Some (credential 1000000 605800000)) 1360000 [] [] [])) = true /\
  result (run browse
            (shouldRefreshToken scenarioConfig (windowFetch scenarioConfig))
            (mkBrowser (Some (credential 1000000 605800000)) 5000000 [] [] [])) = true.
Proof.
  split; [reflexivity |].
  refine (renewal_due_is_monotone scenarioConfig Browser browse browse
            (windowFetch scenarioConfig)
            (mkBrowser (Some (credential 1000000 605800000)) 1360000 [] [] []) _ _
            (mkBrowser (Some (credential 1000000 605800000)) 5000000 [] [] []) _ _
            (credential 1000000 605800000) 605800000%Z 1360000%Z 5000000%Z
            eq_refl eq_refl eq_refl eq_refl eq_refl _ _ _); [lia | lia | reflexivity].
Defined.

Lemma shouldRefreshToken_effects :
  forall cfg (W : Type) (h : Handler W) (w : W),
    count isRenewal (trace (run h (shouldRefreshToken cfg (windowFetch cfg)) w)) = 0 /\
    (result (run h (shouldRefreshToken cfg (windowFetch cfg)) w) = true ->
     count isRedirect (trace (run h (shouldRefreshToken cfg (windowFetch cfg)) w)) = 0).
Proof.
  intros cfg W h w. unfold shouldRefreshToken. simpl.
  destruct (h _ GetAuthInfoFromBrowserCookie w) as [[a |] w1];
    [| split; [reflexivity | discriminate]].
  destruct (JS.truthy_number (Auth.timestamp a));
    [| split; [reflexivity | discriminate]].
  destruct (JS.truthy_number (Auth.refreshExpires a));
    [| split; [reflexivity | discriminate]].
  simpl.
  destruct (Auth.timestamp a) as [ts |]; [| split; [reflexivity | discriminate]].
  destruct (Auth.refreshExpires a) as [re |]; [| split; [reflexivity | discriminate]].
  simpl. destruct (h _ DateNow w1) as [now w2].
  destruct (now >=? re)%Z; [| split; reflexivity].
  simpl.
  destruct (h _ (OriginalFetch logoutInput postWithCredentials) w2) as [[resp |] w3]; simpl.
  - destruct (h unit SetLocationHref w3) as [[] w4]. split; [reflexivity | discriminate].
  - destruct (h unit ClearAuthCookie w3) as [[] w4].
    destruct (h unit SetLocationHref w4) as [[] w5]. split; [reflexivity | discriminate].
Qed.

Lemma run_refreshProactively :
  forall cfg (W : Type) (h : Handler W) (wf : Fetch) (w : W),
    trace (run h (refreshProactively cfg wf) w) =
    (trace (run h (shouldRefreshToken cfg wf) w) ++
     if result (run h (shouldRefreshToken cfg wf) w)
     then [Ev AwaitRefreshToken
             (fst (h _ AwaitRefreshToken (snd (fst (run h (shouldRefreshToken cfg wf) w)))))]
     else [])%list.
Proof.
  intros cfg W h wf w. unfold refreshProactively. rewrite run_bind.
  unfold result, trace.
  destruct (run h (shouldRefreshToken cfg wf) w) as [[b w1] t]. simpl.
  destruct b; simpl.
  - destruct (h bool AwaitRefreshToken w1) as [x w2]. reflexivity.
  - reflexivity.
Qed.

(** X9.  A credential that has the threshold or more of its lifetime left
    is not renewed before a request: whatever else the record holds, the
    check answers [false] and the wrapper awaits no renewal. *)
Theorem fresh_credential_is_not_renewed :
  forall cfg (W : Type) (h : Handler W) (w w1 w2 : W) a ts now,
    h _ GetAuthInfoFromBrowserCookie w = (Some a, w1) ->
    h _ DateNow w1 = (now, w2) ->
    Auth.timestamp a = Some ts ->
    (ACCESS_TOKEN_AGE cfg - (now - ts) >= RENEWAL_THRESHOLD cfg)%Z ->
    result (run h (shouldRefreshToken cfg (windowFetch cfg)) w) = false /\
    count isRenewal (trace (run h (refreshProactively cfg (windowFetch cfg)) w)) = 0.
Proof.
  intros cfg W h w w1 w2 a ts now Hc Hn Hts Hfresh.
  assert (Hres : result (run h (shouldRefreshToken cfg (windowFetch cfg)) w) = false).
  { rewrite (shouldRefreshToken_result cfg W h _ w w1 w2 (Some a) now Hc Hn), Hts.
    destruct (Auth.refreshExpires a) as [re |]; [| reflexivity].
    replace (ACCESS_TOKEN_AGE cfg - (now - ts) <? RENEWAL_THRESHOLD cfg)%Z with false
      by (symmetry; apply Z.ltb_ge; lia).
    apply andb_false_r. }
  split; [exact Hres |].
  rewrite run_refreshProactively, Hres, app_nil_r.
  exact (proj1 (shouldRefreshToken_effects cfg W h w)).
Qed.

Lemma fresh_credential_is_not_renewed_witness :
  result (run browse
            (shouldRefreshToken scenarioConfig (windowFetch scenarioConfig))
            (mkBrowser (Some (credential 1000000 605800000)) 1180000 [] [] [true])) = false /\
  count isRenewal
    (trace (run browse
              (refreshProactively scenarioConfig (windowFetch scenarioConfig))
              (mkBrowser (Some (credential 1000000 605800000)) 1180000 [] [] [true]))) = 0.
Proof.
  refine (fresh_credential_is_not_renewed scenarioConfig Browser browse
            (mkBrowser (Some (credential 1000000 605800000)) 1180000 [] [] [true]) _ _
            (credential 1000000 605800000) 1000000%Z 1180000%Z
            eq_refl eq_refl eq_refl _).
  simpl. lia.
Defined.

(** X10.  Before a request the wrapper awaits a renewal exactly when the
    check answers [true], and a check that answers [true] has terminated
    nothing: the check before the request never both ends the session and
    renews. *)
Theorem proactive_renewal_follows_check :
  forall cfg (W : Type) (h : Handler W) (w : W),
    count isRenewal (trace (run h (refreshProactively cfg (windowFetch cfg)) w)) =
      (if result (run h (shouldRefreshToken cfg (windowFetch cfg)) w) then 1 else 0) /\
    count isRenewal (trace (run h (refreshProactively cfg (windowFetch cfg)) w)) +
    count isRedirect (trace (run h (refreshProactively cfg (windowFetch cfg)) w)) <= 1.
Proof.
  intros cfg W h w. split.
  - rewrite run_refreshProactively, count_app.
    rewrite (proj1 (shouldRefreshToken_effects cfg W h w)).
    destruct (result (run h (shouldRefreshToken cfg (windowFetch cfg)) w)); reflexivity.
  - apply refreshProactively_counts.
Qed.

(** ** The renewal coordinator, further *)

(** X11.  A renewal answered by a successful response resolves [true]; one
    that fails on the network, or is answered by a status that is neither
    successful nor 401 nor 403, resolves [false]; in all these cases the
    renewal call is all that happens: no logout, no redirect. *)
Theorem renewal_failures_that_keep_the_session :
  forall cfg (W : Type) (h : Handler W) (w w1 : W) r,
    h _ (OriginalFetch refreshInput postWithCredentials) w = (r, w1) ->
    (r = Rejected \/
     exists response,
       r = Fulfilled response /\ status response <> 401%Z /\ status response <> 403%Z) ->
    run h (refreshBody (windowFetch cfg)) w =
      (renewalOutcome r, w1, [Ev (OriginalFetch refreshInput postWithCredentials) r]).
Proof.
  intros cfg W h w w1 r Hr Hcase.
  unfold refreshBody. rewrite windowFetch_refresh. simpl. rewrite Hr.
  destruct Hcase as [-> | [response [-> [H1 H3]]]]; [reflexivity |].
  simpl. destruct (ok response); [reflexivity |].
  apply Z.eqb_neq in H1. apply Z.eqb_neq in H3. rewrite H1, H3. reflexivity.
Qed.

Lemma renewal_failures_that_keep_the_session_witness :
  run browse (refreshBody (windowFetch scenarioConfig))
    (mkBrowser None 0 ["/play"] [Fulfilled (mkResponse 500 None)] []) =
  (false, mkBrowser None 0 ["/play"] [] [],
   [Ev (OriginalFetch refreshInput postWithCredentials) (Fulfilled (mkResponse 500 None))]).
Proof.
  refine (renewal_failures_that_keep_the_session scenarioConfig Browser browse
            (mkBrowser None 0 ["/play"] [Fulfilled (mkResponse 500 None)] []) _ _
            eq_refl (or_intror (ex_intro _ (mkResponse 500 None) (conj eq_refl (conj _ _)))));
    discriminate.
Defined.

(** X12.  A renewal the server refuses with 401 or 403 while the page is
    not the login page resolves [false] after one termination sequence: the
    logout call, the local clearing when that call fails, the redirect. *)
Theorem refused_renewal_terminates :
  forall cfg (W : Type) (h : Handler W) (w w1 w2 w3 : W) response path r,
    h _ (OriginalFetch refreshInput postWithCredentials) w = (Fulfilled response, w1) ->
    status response = 401%Z \/ status response = 403%Z ->
    h _ LocationPathname w1 = (path, w2) ->
    path <> "/login" ->
    h _ (OriginalFetch logoutInput postWithCredentials) w2 = (r, w3) ->
    result (run h (refreshBody (windowFetch cfg)) w) = false /\
    trace (run h (refreshBody (windowFetch cfg)) w) =
      Ev (OriginalFetch refreshInput postWithCredentials) (Fulfilled response) ::
      Ev LocationPathname path :: terminationEvents r.
Proof.
  intros cfg W h w w1 w2 w3 response path r Hr Hs Hp Hnl Hl.
  apply String.eqb_neq in Hnl.
  unfold refreshBody. rewrite windowFetch_refresh, logoutAndRedirect_window.
  simpl. rewrite Hr.
  assert (Hok : ok response = false).
  { unfold ok. destruct Hs as [-> | ->]; reflexivity. }
  assert (Hst : ((status response =? 401) || (status response =? 403))%Z = true).
  { destruct Hs as [-> | ->]; reflexivity. }
  rewrite Hok, Hst. simpl. rewrite Hp, Hnl. simpl. rewrite Hl.
  unfold terminationEvents. destruct r as [resp |]; simpl.
  - destruct (h unit SetLocationHref w3) as [[] w4]. split; reflexivity.
  - destruct (h unit ClearAuthCookie w3) as [[] w4].
    destruct (h unit SetLocationHref w4) as [[] w5]. split; reflexivity.
Qed.

Lemma refused_renewal_terminates_witness :
  trace (run browse (refreshBody (windowFetch scenarioConfig))
           (mkBrowser None 0 ["/play"] [Fulfilled (mkResponse 403 None); Rejected] [])) =
  [Ev (OriginalFetch refreshInput postWithCredentials) (Fulfilled (mkResponse 403 None));
   Ev LocationPathname "/play";
   Ev (OriginalFetch logoutInput postWithCredentials) Rejected;
   Ev ClearAuthCookie tt;
   Ev SetLocationHref tt].
Proof.
  refine (proj2 (refused_renewal_terminates scenarioConfig Browser browse
                   (mkBrowser None 0 ["/play"] [Fulfilled (mkResponse 403 None); Rejected] [])
                   _ _ _ (mkResponse 403 None) "/play" Rejected
                   eq_refl (or_intror eq_refl) eq_refl _ eq_refl)).
  discriminate.
Defined.

Lemma inFlight_start :
  forall (W : Type) (w : W), inFlight (start w).
Proof. intros. reflexivity. Qed.

Lemma inFlight_refreshToken :
  forall cfg (W : Type) (h : Handler W) (s : Coordinator W),
    inFlight s -> inFlight (snd (refreshToken cfg h s)).
Proof.
  intros cfg W h s Hi.
  destruct (refreshToken_cases W s) as [[p [Hf Hp]] | Hidle].
  - rewrite (refreshToken_join cfg W h s p Hf Hp). exact Hi.
  - destruct (refreshToken_fresh cfg W h s Hidle) as [k [_ [_ Heq]]].
    rewrite Heq. unfold inFlight, isPending. simpl.
    rewrite nth_error_app2 by lia. rewrite Nat.sub_diag. split; reflexivity.
Qed.

Lemma inFlight_deliver :
  forall (W : Type) (h : Handler W) (s : Coordinator W) p r,
    coherent s -> inFlight s -> inFlight (deliver h p r s).
Proof.
  intros W h s p r Hc Hi.
  destruct (isPending s p) eqn:Hpend;
    [| rewrite (deliver_idle W h s p r Hpend); exact Hi].
  destruct (pending_task W s p Hpend) as [X [e [k Hp]]].
  destruct (answerTo e r) as [x |] eqn:Ha;
    [| unfold deliver; rewrite Hp, Ha; exact Hi].
  rewrite (deliver_pending W h s p r X e k x Hp Ha).
  destruct (proj1 Hc p Hpend) as [Hf Hrp].
  assert (Hlen : (p <? List.length (promises s))%nat = true).
  { apply Nat.ltb_lt. apply nth_error_Some. rewrite Hp. discriminate. }
  destruct (fst (fst (runToAwait h (k x) (browser s)))) as [X' e' k' | b].
  - unfold inFlight, isPending. simpl. rewrite Hrp, Hf.
    rewrite nth_error_setNth, Nat.eqb_refl, Hlen. split; reflexivity.
  - reflexivity.
Qed.

Lemma reachable_invariants :
  forall cfg (W : Type) (h : Handler W) steps (s : Coordinator W),
    coherent s -> inFlight s ->
    coherent (fst (exec cfg h steps s)) /\ inFlight (fst (exec cfg h steps s)).
Proof.
  intros cfg W h steps. induction steps as [| [| p r] rest IH]; intros s Hc Hi; simpl.
  - split; assumption.
  - pose proof (coherent_refreshToken cfg W h s Hc) as Hc1.
    pose proof (inFlight_refreshToken cfg W h s Hi) as Hi1.
    destruct (refreshToken cfg h s) as [q s1]. simpl in Hc1, Hi1.
    specialize (IH s1 Hc1 Hi1). destruct (exec cfg h rest s1) as [s2 ps]. exact IH.
  - apply IH; [apply coherent_deliver | apply inFlight_deliver]; assumption.
Qed.

(** X13.  In every state the coordinator can reach, at most one renewal has
    not settled; [isRefreshing] is set exactly while there is one, and
    [refreshPromise] holds exactly that one. *)
Theorem one_renewal_in_flight :
  forall cfg (W : Type) (h : Handler W) (w : W) (steps : list Step),
    let s := fst (exec cfg h steps (start w)) in
    (forall p q, isPending s p = true -> isPending s q = true -> p = q) /\
    (isRefreshing s = true <-> exists p, isPending s p = true) /\
    (forall p, refreshPromise s = Some p <-> isPending s p = true).
Proof.
  intros cfg W h w steps s.
  destruct (reachable_invariants cfg W h steps (start w)
              (coherent_start W w) (inFlight_start W w)) as [Hc Hi].
  fold s in Hc, Hi. unfold inFlight in Hi.
  split; [| split].
  - intros p q Hp Hq.
    destruct (proj1 Hc p Hp) as [_ H1]. destruct (proj1 Hc q Hq) as [_ H2]. congruence.
  - split.
    + intro Hf. destruct (refreshPromise s) as [p |]; [| congruence].
      exists p. exact (proj2 Hi).
    + intros [p Hp]. exact (proj1 (proj1 Hc p Hp)).
  - intro p. split.
    + intro Hrp. rewrite Hrp in Hi. exact (proj2 Hi).
    + intro Hp. exact (proj2 (proj1 Hc p Hp)).
Qed.

Lemma renewal_calls_refreshToken :
  forall cfg (W : Type) (h : Handler W) (s : Coordinator W),
    count isRenewalCall (log s) = List.length (promises s) ->
    count isRenewalCall (log (snd (refreshToken cfg h s))) =
    List.length (promises (snd (refreshToken cfg h s))).
Proof.
  intros cfg W h s Heq.
  destruct (refreshToken_cases W s) as [[q [Hf Hp]] | Hidle].
  - rewrite (refreshToken_join cfg W h s q Hf Hp). exact Heq.
  - destruct (refreshToken_fresh cfg W h s Hidle) as [k [_ [_ Hr]]].
    rewrite Hr. simpl. rewrite count_app, length_app, Heq. reflexivity.
Qed.

Lemma length_setNth :
  forall (A : Type) (l : list A) (p : nat) (x : A),
    List.length (setNth p x l) = List.length l.
Proof.
  intros A l. induction l as [| y t IH]; intros p x; destruct p; simpl;
    try reflexivity.
  rewrite IH. reflexivity.
Qed.

Lemma length_promises_deliver :
  forall (W : Type) (h : Handler W) (s : Coordinator W) p r,
    List.length (promises (deliver h p r s)) = List.length (promises s).
Proof.
  intros W h s p r. unfold deliver.
  destruct (nth_error (promises s) p) as [[X e k | b] |]; try reflexivity.
  destruct (answerTo e r) as [x |]; [| reflexivity].
  destruct (runToAwait h (k x) (browser s)) as [[t w] tr].
  destruct t; simpl; apply length_setNth.
Qed.

(** X15.  In every state the coordinator can reach, as many renewal calls
    were sent as renewals were started: a caller that joins a renewal in
    flight sends none, and what follows a renewal call (logout, redirect)
    sends none. *)
Theorem one_renewal_call_per_renewal :
  forall cfg (W : Type) (h : Handler W) (w : W) (steps : list Step),
    count isRenewalCall (log (fst (exec cfg h steps (start w)))) =
    List.length (promises (fst (exec cfg h steps (start w)))).
Proof.
  intros cfg W h w steps.
  assert (H : forall steps (s : Coordinator W),
             coherent s ->
             count isRenewalCall (log s) = List.length (promises s) ->
             count isRenewalCall (log (fst (exec cfg h steps s))) =
             List.length (promises (fst (exec cfg h steps s)))).
  { clear steps. intro steps.
    induction steps as [| [| p r] rest IH]; intros s Hc Heq; simpl.
    - exact Heq.
    - pose proof (coherent_refreshToken cfg W h s Hc) as Hc1.
      pose proof (renewal_calls_refreshToken cfg W h s Heq) as H1.
      destruct (refreshToken cfg h s) as [q s1]. simpl in Hc1, H1.
      specialize (IH s1 Hc1 H1). destruct (exec cfg h rest s1) as [s2 ps]. exact IH.
    - destruct (coherent_deliver W h s p r Hc) as [Hc' Hlog].
      apply IH; [exact Hc' |].
      rewrite Hlog, length_promises_deliver. exact Heq. }
  apply H; [apply coherent_start | reflexivity].
Qed.

(** ** The excluded addresses *)

Lemma startsWith_prefix :
  forall t s, JS.startsWith s t = true <-> exists b, s = (t ++ b)%string.
Proof.
  induction t as [| c t IH]; intro s; simpl.
  - split; [intros _; exists s; reflexivity | reflexivity].
  - destruct s as [| d s].
    + split; [discriminate | intros [b Hb]; discriminate].
    + rewrite andb_true_iff, IH. split.
      * intros [Hc [b ->]]. apply Ascii.eqb_eq in Hc. subst d. exists b. reflexivity.
      * intros [b Hb]. injection Hb as -> ->.
        split; [apply Ascii.eqb_refl | exists b; reflexivity].
Qed.

Lemma includes_substring :
  forall s t, JS.includes s t = true <-> exists a b, s = (a ++ t ++ b)%string.
Proof.
  intros s t. split.
  - induction s as [| c s IH]; simpl.
    + destruct (JS.startsWith "" t) eqn:Hs; [| discriminate].
      intros _. apply startsWith_prefix in Hs. destruct Hs as [b Hb].
      exists "", b. exact Hb.
    + destruct (JS.startsWith (String c s) t) eqn:Hs.
      * intros _. apply startsWith_prefix in Hs. destruct Hs as [b Hb].
        exists "", b. exact Hb.
      * intro Hi. destruct (IH Hi) as [a [b ->]].
        exists (String c a), b. reflexivity.
  - intros [a [b ->]]. induction a as [| c a IH].
    + assert (Hs : JS.startsWith (t ++ b) t = true)
        by (apply startsWith_prefix; exists b; reflexivity).
      simpl. destruct (t ++ b)%string; simpl in *; rewrite Hs; reflexivity.
    + simpl. rewrite IH. destruct (JS.startsWith _ t); reflexivity.
Qed.

(** X16.  The exclusion test is a test for a fragment anywhere in the
    address: an address is excluded exactly when one of the five fragments
    occurs somewhere in it, in its path or after it, and then the wrapper is
    the original request function. *)
Theorem exclusion_is_substring_match :
  forall cfg input init,
    (isExcluded (urlOf input) = true <->
     exists frag a b,
       In frag excludedFragments /\ urlOf input = (a ++ frag ++ b)%string) /\
    ((exists frag a b,
        In frag excludedFragments /\ urlOf input = (a ++ frag ++ b)%string) ->
     windowFetch cfg input init = originalFetch input init).
Proof.
  intros cfg input init.
  assert (Hiff : isExcluded (urlOf input) = true <->
                 exists frag a b,
                   In frag excludedFragments /\ urlOf input = (a ++ frag ++ b)%string).
  { rewrite isExcluded_iff, !includes_substring. unfold excludedFragments. split.
    - intros [H | [H | [H | [H | H]]]]; destruct H as [a [b Hab]];
        eexists _, a, b; (split; [| exact Hab]); simpl; tauto.
    - intros [frag [a [b [Hin Hab]]]]. simpl in Hin.
      destruct Hin as [<- | [<- | [<- | [<- | [<- | []]]]]];
        [left | right; left | right; right; left | right; right; right; left
         | right; right; right; right];
        exists a, b; exact Hab. }
  split; [exact Hiff |].
  intro H. apply Hiff in H.
  unfold windowFetch, wrapFetch. rewrite H. reflexivity.
Qed.

Lemma exclusion_is_substring_match_witness :
  windowFetch scenarioConfig (InputString "/api/login-history?page=2") None =
  originalFetch (InputString "/api/login-history?page=2") None.
Proof.
  refine (proj2 (exclusion_is_substring_match scenarioConfig
                   (InputString "/api/login-history?page=2") None)
            (ex_intro _ "/api/login"
               (ex_intro _ "" (ex_intro _ "-history?page=2" (conj _ eq_refl))))).
  simpl. tauto.
Defined.

(** ** The credential reader, further *)

Import AuthClient.

Lemma trimEnd_cons :
  forall c s,
    JS.trimEnd (String c s) =
    match JS.trimEnd s with
    | EmptyString => if JS.isWhiteSpace c then EmptyString else String c EmptyString
    | String d t => String c (String d t)
    end.
Proof. reflexivity. Qed.

Lemma trimEnd_idempotent :
  forall s, JS.trimEnd (JS.trimEnd s) = JS.trimEnd s.
Proof.
  induction s as [| c s IH]; [reflexivity |].
  rewrite trimEnd_cons. destruct (JS.trimEnd s) as [| d t] eqn:Ht.
  - destruct (JS.isWhiteSpace c) eqn:Hc; [reflexivity |].
    rewrite trimEnd_cons. simpl. rewrite Hc. reflexivity.
  - rewrite trimEnd_cons, IH. reflexivity.
Qed.

Lemma trimStart_shape :
  forall s, JS.trimStart s = "" \/ JS.startsClean (JS.trimStart s) = true.
Proof.
  induction s as [| c s IH]; [left; reflexivity |].
  simpl. destruct (JS.isWhiteSpace c) eqn:Hc; [exact IH |].
  right. simpl. rewrite Hc. reflexivity.
Qed.

Lemma trimEnd_shape :
  forall s,
    s = "" \/ JS.startsClean s = true ->
    JS.trimEnd s = "" \/ JS.startsClean (JS.trimEnd s) = true.
Proof.
  intros [| c s] [H | H]; try discriminate H; [left; reflexivity |].
  simpl in *. destruct (JS.trimEnd s).
  - rewrite (proj1 (negb_true_iff _) H). right. exact H.
  - right. exact H.
Qed.

Lemma trim_idempotent :
  forall s, JS.trim (JS.trim s) = JS.trim s.
Proof.
  intro s. unfold JS.trim.
  assert (Hs : JS.trimStart (JS.trimEnd (JS.trimStart s)) = JS.trimEnd (JS.trimStart s)).
  { destruct (trimEnd_shape _ (trimStart_shape s)) as [-> | Hc];
      [reflexivity | apply trimStart_clean; exact Hc]. }
  rewrite Hs. apply trimEnd_idempotent.
Qed.

(** X17.  What [getAuthTokenFromHeader] returns has no whitespace at its
    ends, whatever the header: trimming it again changes nothing. *)
Theorem header_token_is_trimmed :
  forall value,
    JS.trim (Auth.getAuthTokenFromHeader value) = Auth.getAuthTokenFromHeader value.
Proof.
  intro value. unfold Auth.getAuthTokenFromHeader.
  destruct (JS.trim value =? ""); [reflexivity |].
  destruct (JS.matchScheme "Bearer" (JS.trim value)); [apply trim_idempotent |].
  destruct (JS.matchScheme "Token" (JS.trim value)); apply trim_idempotent.
Qed.

Lemma trimStart_all_whitespace :
  forall s, JS.allWhiteSpace s = true -> JS.trimStart s = "".
Proof.
  induction s as [| c s IH]; intro H; simpl in *; [reflexivity |].
  apply andb_true_iff in H. destruct H as [Hc Hs]. rewrite Hc. apply IH. exact Hs.
Qed.

Lemma noWhiteSpace_trimEnd :
  forall s, noWhiteSpace s = true -> JS.trimEnd s = s.
Proof.
  induction s as [| c s IH]; intro H; [reflexivity |].
  unfold noWhiteSpace in *. simpl in *.
  apply andb_true_iff in H. destruct H as [Hc Hs].
  rewrite (IH Hs). apply negb_true_iff in Hc. rewrite Hc.
  destruct s; reflexivity.
Qed.

Lemma noWhiteSpace_trim :
  forall s, noWhiteSpace s = true -> JS.trim s = s.
Proof.
  intros s H. unfold JS.trim.
  assert (Hs : JS.trimStart s = s).
  { destruct s as [| c s]; [reflexivity |].
    unfold noWhiteSpace in H. simpl in *.
    apply andb_true_iff in H. destruct H as [Hc _].
    apply negb_true_iff in Hc. rewrite Hc. reflexivity. }
  rewrite Hs. apply noWhiteSpace_trimEnd. exact H.
Qed.

Lemma stripKeyword_noWhiteSpace :
  forall kw s rest,
    JS.stripKeyword kw s = Some rest -> noWhiteSpace s = true -> noWhiteSpace rest = true.
Proof.
  induction kw as [| a kw IH]; intros s rest H Hs; simpl in H.
  - injection H as <-. exact Hs.
  - destruct s as [| b s]; [discriminate |].
    destruct (Ascii.eqb (JS.toLowerAscii a) (JS.toLowerAscii b)); [| discriminate].
    apply (IH s rest H). unfold noWhiteSpace in *. simpl in Hs.
    apply andb_true_iff in Hs. exact (proj2 Hs).
Qed.

Lemma matchScheme_noWhiteSpace :
  forall kw s, noWhiteSpace s = true -> JS.matchScheme kw s = None.
Proof.
  intros kw s Hs. unfold JS.matchScheme.
  destruct (JS.stripKeyword kw s) as [[| c rest] |] eqn:Hk; try reflexivity.
  pose proof (stripKeyword_noWhiteSpace kw s _ Hk Hs) as Hr.
  unfold noWhiteSpace in Hr. simpl in Hr.
  apply andb_true_iff in Hr. destruct Hr as [Hc _].
  apply negb_true_iff in Hc. rewrite Hc. reflexivity.
Qed.

(** X18.  A header without any whitespace is taken whole as the token, also
    when it starts with the word Bearer or Token: a scheme is removed only
    when whitespace follows it. *)
Theorem header_without_whitespace_is_the_token :
  forall value,
    noWhiteSpace value = true ->
    Auth.getAuthTokenFromHeader value = value.
Proof.
  intros value H. unfold Auth.getAuthTokenFromHeader.
  rewrite (noWhiteSpace_trim value H).
  destruct (value =? "") eqn:He; [apply String.eqb_eq in He; congruence |].
  rewrite !(matchScheme_noWhiteSpace _ value H). reflexivity.
Qed.

Lemma header_without_whitespace_is_the_token_witness :
  Auth.getAuthTokenFromHeader "BearerAbc123" = "BearerAbc123".
Proof.
  exact (header_without_whitespace_is_the_token "BearerAbc123" eq_refl).
Defined.

Section ReaderEdges.

Variable decodeURIComponent : string -> option string.
Variable JSON_parse : string -> option Auth.AuthInfo.

Local Abbreviation parseAuthInfo := (Auth.parseAuthInfo decodeURIComponent JSON_parse).
Local Abbreviation getAuthInfoFromCookie :=
  (Auth.getAuthInfoFromCookie decodeURIComponent JSON_parse).

(** X19.  A header that is empty or only whitespace gives the empty token,
    which is no credential: the reader goes on to the [auth] cookie. *)
Theorem blank_header_falls_back_to_cookie :
  forall request h,
    Auth.headers_get request "authorization" = Some h ->
    JS.allWhiteSpace h = true ->
    Auth.getAuthTokenFromHeader h = "" /\
    getAuthInfoFromCookie request =
      match Auth.cookies_get request "auth" with
      | Some v => parseAuthInfo (Some v)
      | None => None
      end.
Proof.
  intros request h Hh Hws.
  assert (Ht : Auth.getAuthTokenFromHeader h = "").
  { unfold Auth.getAuthTokenFromHeader, JS.trim.
    rewrite (trimStart_all_whitespace h Hws). reflexivity. }
  split; [exact Ht |].
  rewrite getAuthInfoFromCookie_cases, Hh, Ht. reflexivity.
Qed.

(** X20.  When the first decoding of a text throws, the reader parses the
    text as it was given: a text that is not percent-encoded loses nothing
    by holding a percent sign that starts no escape. *)
Theorem undecodable_text_is_parsed_raw :
  forall value,
    decodeURIComponent value = None ->
    parseAuthInfo (Some value) = if value =? "" then None else JSON_parse value.
Proof.
  intros value Hd. unfold Auth.parseAuthInfo. rewrite Hd.
  destruct (value =? ""); [reflexivity |].
  destruct (JS.includes value "%"); [rewrite Hd |]; reflexivity.
Qed.

End ReaderEdges.

Lemma blank_header_falls_back_to_cookie_witness :
  Platform.getAuthInfoFromCookie
    (requestWith (Some "   ")
       (Some (Platform.JSON_stringify (credential 2000000 606800000)))) =
  Some (credential 2000000 606800000).
Proof.
  exact (proj2 (blank_header_falls_back_to_cookie
                  Platform.decodeURIComponent Platform.JSON_parse
                  (requestWith (Some "   ")
                     (Some (Platform.JSON_stringify (credential 2000000 606800000))))
                  "   " eq_refl eq_refl)).
Defined.

Lemma undecodable_text_is_parsed_raw_witness :
  let r := Auth.mkAuthInfo None (Some "100%") None None None None None None in
  Platform.parseAuthInfo (Some (Platform.JSON_stringify r)) = Some r.
Proof.
  exact (undecodable_text_is_parsed_raw
           Platform.decodeURIComponent Platform.JSON_parse
           (Platform.JSON_stringify
              (Auth.mkAuthInfo None (Some "100%") None None None None None None))
           eq_refl).
Defined.

Section ReaderDepth.

Variable decodeURIComponent : string -> option string.
Variable encodeURIComponent : string -> string.
Variable JSON_parse : string -> option Auth.AuthInfo.

Hypothesis decode_encode :
  forall s, decodeURIComponent (encodeURIComponent s) = Some s.
Hypothesis decode_plain :
  forall s, JS.includes s "%" = false -> decodeURIComponent s = Some s.

Local Abbreviation parseAuthInfo := (Auth.parseAuthInfo decodeURIComponent JSON_parse).

(** X21.  The reader decodes twice and no more: from a text encoded three
    times it parses the text encoded once. *)
Theorem third_encoding_is_not_undone :
  forall j,
    j <> "" ->
    parseAuthInfo
      (Some (encodeURIComponent (encodeURIComponent (encodeURIComponent j)))) =
    JSON_parse (encodeURIComponent j).
Proof.
  intros j Hne.
  pose proof (encoded_not_empty decodeURIComponent encodeURIComponent
                decode_encode decode_plain) as Hen.
  rewrite (parseAuthInfo_not_empty decodeURIComponent JSON_parse _
             (Hen _ (Hen _ (Hen _ Hne)))).
  rewrite decode_encode. cbv zeta.
  destruct (JS.includes (encodeURIComponent (encodeURIComponent j)) "%") eqn:Hp.
  - rewrite decode_encode. reflexivity.
  - pose proof (decode_plain _ Hp) as H1. rewrite decode_encode in H1.
    injection H1 as H1. rewrite <- H1. reflexivity.
Qed.

End ReaderDepth.

Lemma third_encoding_is_not_undone_witness :
  let j := Platform.JSON_stringify (credential 1000000 605800000) in
  Platform.parseAuthInfo
    (Some (Platform.encodeURIComponent
             (Platform.encodeURIComponent (Platform.encodeURIComponent j)))) =
  Platform.JSON_parse (Platform.encodeURIComponent j).
Proof.
  refine (third_encoding_is_not_undone
            Platform.decodeURIComponent Platform.encodeURIComponent Platform.JSON_parse
            platform_decode_encode platform_decode_plain
            (Platform.JSON_stringify (credential 1000000 605800000)) _).
  discriminate.
Defined.

(** *** The browser cookie *)

Lemma allChars_app :
  forall f a b, allChars f (a ++ b) = allChars f a && allChars f b.
Proof.
  intros f a b. induction a as [| c a IH]; simpl; [reflexivity |].
  rewrite IH, andb_assoc. reflexivity.
Qed.

Lemma allChars_weaken :
  forall (f g : ascii -> bool) s,
    (forall c, f c = true -> g c = true) -> allChars f s = true -> allChars g s = true.
Proof.
  intros f g s Hfg. induction s as [| c s IH]; simpl; [reflexivity |].
  rewrite !andb_true_iff. intros [Hc Hs]. split; [apply Hfg; exact Hc | apply IH; exact Hs].
Qed.

Lemma split_single :
  forall x, semicolonFree x = true -> split ";" x = [x].
Proof.
  unfold semicolonFree. induction x as [| c x IH]; intro H; simpl in *; [reflexivity |].
  apply andb_true_iff in H. destruct H as [Hc Hx].
  apply negb_true_iff in Hc. rewrite Hc, (IH Hx). reflexivity.
Qed.

Lemma split_app :
  forall x y,
    semicolonFree x = true ->
    split ";" (x ++ String ";" y) = x :: split ";" y.
Proof.
  unfold semicolonFree. induction x as [| c x IH]; intros y H; simpl in *; [reflexivity |].
  apply andb_true_iff in H. destruct H as [Hc Hx].
  apply negb_true_iff in Hc. rewrite Hc, (IH y Hx). reflexivity.
Qed.

Lemma string_length_app :
  forall a b, String.length (a ++ b) = String.length a + String.length b.
Proof.
  induction a as [| c a IH]; intro b; simpl; [reflexivity |]. rewrite IH. reflexivity.
Qed.

Lemma indexOf_key :
  forall k v,
    allChars (fun c => negb (Ascii.eqb c "=")) k = true ->
    indexOf "=" (k ++ String "=" v) = Z.of_nat (String.length k).
Proof.
  induction k as [| c k IH]; intros v H; simpl in *; [reflexivity |].
  apply andb_true_iff in H. destruct H as [Hc Hk].
  apply negb_true_iff in Hc. rewrite Hc, (IH v Hk).
  replace (Z.of_nat (String.length k) <? 0)%Z with false by (symmetry; apply Z.ltb_ge; lia).
  lia.
Qed.

Lemma std_substring_all :
  forall v, String.substring 0 (String.length v) v = v.
Proof.
  induction v as [| c v IH]; simpl; [reflexivity |]. rewrite IH. reflexivity.
Qed.

Lemma std_substring_prefix :
  forall k r, String.substring 0 (String.length k) (k ++ r) = k.
Proof.
  induction k as [| c k IH]; intro r; simpl.
  - destruct r; reflexivity.
  - rewrite IH. reflexivity.
Qed.

Lemma std_substring_skip :
  forall k r m, String.substring (String.length k) m (k ++ r) = String.substring 0 m r.
Proof.
  induction k as [| c k IH]; intros r m; simpl; [reflexivity |]. apply IH.
Qed.

Lemma substring_key :
  forall k v,
    substring (k ++ String "=" v) 0 (Z.of_nat (String.length k)) = k.
Proof.
  intros k v. unfold substring. rewrite string_length_app. simpl String.length.
  replace (Z.max 0 (Z.min 0 (Z.of_nat (String.length k + S (String.length v))))) with 0%Z
    by lia.
  replace (Z.max 0 (Z.min (Z.of_nat (String.length k))
                      (Z.of_nat (String.length k + S (String.length v)))))
    with (Z.of_nat (String.length k)) by lia.
  replace (Z.min 0 (Z.of_nat (String.length k))) with 0%Z by lia.
  replace (Z.max 0 (Z.of_nat (String.length k)) - 0)%Z with (Z.of_nat (String.length k))
    by lia.
  rewrite Nat2Z.id. apply std_substring_prefix.
Qed.

Lemma substring_value :
  forall k v,
    substringFrom (k ++ String "=" v) (Z.of_nat (String.length k) + 1) = v.
Proof.
  intros k v. unfold substringFrom, substring. rewrite string_length_app.
  simpl String.length.
  set (n := String.length k). set (m := String.length v).
  replace (Z.max 0 (Z.min (Z.of_nat n + 1) (Z.of_nat (n + S m))))
    with (Z.of_nat (S n)) by lia.
  replace (Z.max 0 (Z.min (Z.of_nat (n + S m)) (Z.of_nat (n + S m))))
    with (Z.of_nat (n + S m)) by lia.
  replace (Z.min (Z.of_nat (S n)) (Z.of_nat (n + S m))) with (Z.of_nat (S n)) by lia.
  replace (Z.max (Z.of_nat (S n)) (Z.of_nat (n + S m)) - Z.of_nat (S n))%Z
    with (Z.of_nat m) by lia.
  rewrite !Nat2Z.id.
  replace (k ++ String "=" v)%string with ((k ++ "=") ++ v)%string
    by (rewrite string_app_assoc; reflexivity).
  replace (S n) with (String.length (k ++ "="))
    by (rewrite string_length_app; simpl; unfold n; lia).
  rewrite std_substring_skip. apply std_substring_all.
Qed.

Lemma cookieValue_facts :
  forall v,
    cookieValue v = true ->
    v <> "" /\ noWhiteSpace v = true /\ semicolonFree v = true.
Proof.
  intros v H. unfold cookieValue in H. apply andb_true_iff in H. destruct H as [Hne Hc].
  split; [| split].
  - apply negb_true_iff in Hne. apply String.eqb_neq. exact Hne.
  - unfold noWhiteSpace. revert Hc. apply allChars_weaken.
    intros c Hc. apply andb_true_iff in Hc. exact (proj1 Hc).
  - unfold semicolonFree. revert Hc. apply allChars_weaken.
    intros c Hc. apply andb_true_iff in Hc. exact (proj2 Hc).
Qed.

Lemma whitespace_semicolonFree :
  forall l, JS.allWhiteSpace l = true -> semicolonFree l = true.
Proof.
  unfold semicolonFree. induction l as [| c l IH]; intro H; simpl in *; [reflexivity |].
  apply andb_true_iff in H. destruct H as [Hc Hl]. rewrite (IH Hl), andb_true_r.
  destruct (Ascii.eqb c ";") eqn:He; [| reflexivity].
  apply Ascii.eqb_eq in He. subst c. discriminate Hc.
Qed.

Lemma string_app_nil_r :
  forall s : string, (s ++ "")%string = s.
Proof.
  induction s as [| c s IH]; simpl; [reflexivity |]. rewrite IH. reflexivity.
Qed.

Lemma noWhiteSpace_startsClean :
  forall s, s <> "" -> noWhiteSpace s = true -> JS.startsClean s = true.
Proof.
  intros [| c s] Hne H; [contradiction |].
  unfold noWhiteSpace in H. simpl in H. apply andb_true_iff in H. exact (proj1 H).
Qed.

(** What [trim] leaves of a cookie with whitespace around it. *)
Lemma trim_segment :
  forall l k v r,
    JS.allWhiteSpace l = true ->
    JS.allWhiteSpace r = true ->
    cookiePair (k, v) = true ->
    JS.trim (l ++ k ++ "=" ++ v ++ r) = (k ++ String "=" v)%string.
Proof.
  intros l k v r Hl Hr Hp.
  unfold cookiePair, cookieName in Hp. simpl in Hp.
  apply andb_true_iff in Hp. destruct Hp as [Hk Hv].
  apply andb_true_iff in Hk. destruct Hk as [Hk _].
  destruct (cookieValue_facts k Hk) as [Hkne [Hkws _]].
  destruct (cookieValue_facts v Hv) as [_ [Hvws _]].
  assert (Hws : noWhiteSpace (k ++ String "=" v) = true).
  { unfold noWhiteSpace in *. rewrite allChars_app. simpl. rewrite Hkws, Hvws. reflexivity. }
  assert (Hne : (k ++ String "=" v)%string <> "").
  { destruct k; [contradiction | discriminate]. }
  replace (k ++ "=" ++ v ++ r)%string with ((k ++ String "=" v) ++ r)%string
    by (rewrite string_app_assoc; reflexivity).
  unfold JS.trim. rewrite (trimStart_whitespace l _ Hl).
  rewrite (trimStart_clean _
             (startsClean_app _ r (noWhiteSpace_startsClean _ Hne Hws))).
  rewrite (trimEnd_app_whitespace _ r Hr).
  apply noWhiteSpace_trimEnd. exact Hws.
Qed.

(** One segment of the cookie text that is a well-formed pair, with
    whitespace around it, is stored under its name. *)
Lemma addCookie_segment :
  forall acc s,
    segmentOk s = true ->
    addCookie acc (segmentText s) = namedValue s :: acc.
Proof.
  intros acc [l [k v] r] H. unfold segmentOk in H. cbn [padBefore namedValue padAfter] in H.
  apply andb_true_iff in H. destruct H as [H Hr].
  apply andb_true_iff in H. destruct H as [Hl Hp].
  unfold segmentText. cbn [padBefore namedValue padAfter fst snd].
  unfold addCookie. rewrite (trim_segment l k v r Hl Hr Hp). cbv zeta.
  unfold cookiePair, cookieName in Hp. simpl in Hp.
  apply andb_true_iff in Hp. destruct Hp as [Hk Hv].
  apply andb_true_iff in Hk. destruct Hk as [Hk Heq].
  destruct (cookieValue_facts k Hk) as [Hkne _].
  destruct (cookieValue_facts v Hv) as [Hvne _].
  rewrite (indexOf_key k v Heq), substring_key, substring_value.
  assert (Hlen : (Z.of_nat (String.length k) >? 0)%Z = true).
  { destruct k; [contradiction |]. simpl. reflexivity. }
  rewrite Hlen.
  apply String.eqb_neq in Hkne. apply String.eqb_neq in Hvne.
  rewrite Hkne, Hvne. reflexivity.
Qed.

Lemma segmentText_semicolonFree :
  forall s, segmentOk s = true -> semicolonFree (segmentText s) = true.
Proof.
  intros [l [k v] r] H. unfold segmentOk in H. cbn [padBefore namedValue padAfter] in H.
  apply andb_true_iff in H. destruct H as [H Hr].
  apply andb_true_iff in H. destruct H as [Hl Hp].
  unfold cookiePair, cookieName in Hp. simpl in Hp.
  apply andb_true_iff in Hp. destruct Hp as [Hk Hv].
  apply andb_true_iff in Hk. destruct Hk as [Hk _].
  destruct (cookieValue_facts k Hk) as [_ [_ Hks]].
  destruct (cookieValue_facts v Hv) as [_ [_ Hvs]].
  pose proof (whitespace_semicolonFree l Hl) as Hls.
  pose proof (whitespace_semicolonFree r Hr) as Hrs.
  unfold segmentText. cbn [padBefore namedValue padAfter fst snd].
  unfold semicolonFree in *. rewrite !allChars_app. simpl.
  rewrite Hls, Hks, Hvs, Hrs. reflexivity.
Qed.

Lemma fold_renderSegments :
  forall ss s acc,
    forallb segmentOk (s :: ss) = true ->
    fold_left addCookie (split ";" (renderSegments (s :: ss))) acc =
    (rev (map namedValue (s :: ss)) ++ acc)%list.
Proof.
  induction ss as [| t ss IH]; intros s acc Hall.
  - simpl in Hall. rewrite andb_true_r in Hall.
    change (renderSegments [s]) with (segmentText s).
    rewrite (split_single _ (segmentText_semicolonFree s Hall)).
    simpl. apply addCookie_segment. exact Hall.
  - change (forallb segmentOk (s :: t :: ss))
      with (segmentOk s && forallb segmentOk (t :: ss)) in Hall.
    apply andb_true_iff in Hall. destruct Hall as [Hs Hrest].
    change (renderSegments (s :: t :: ss))
      with (segmentText s ++ String ";" (renderSegments (t :: ss)))%string.
    rewrite (split_app _ _ (segmentText_semicolonFree s Hs)).
    cbn [fold_left]. rewrite (addCookie_segment acc s Hs).
    rewrite (IH t (namedValue s :: acc) Hrest).
    change (rev (map namedValue (s :: t :: ss)))
      with (rev (map namedValue (t :: ss)) ++ [namedValue s])%list.
    rewrite <- app_assoc. reflexivity.
Qed.

Lemma get_app :
  forall key (a b : Cookies),
    get key (a ++ b)%list =
    match get key a with
    | Some x => Some x
    | None => get key b
    end.
Proof.
  intros key a b. induction a as [| [k v] a IH]; simpl; [reflexivity |].
  destruct (k =? key); [reflexivity | exact IH].
Qed.

Lemma get_rev :
  forall key pairs, get key (rev pairs) = lastValue key pairs.
Proof.
  intros key pairs. induction pairs as [| [k v] rest IH]; simpl; [reflexivity |].
  rewrite get_app, IH. destruct (lastValue key rest); reflexivity.
Qed.

(** The cookies gathered from a text of well-formed pairs with whitespace
    around them, read at a name: the last pair of that name. *)
Lemma cookies_of_segments :
  forall segs key,
    forallb segmentOk segs = true ->
    get key (fold_left addCookie (split ";" (renderSegments segs)) []) =
    lastValue key (map namedValue segs).
Proof.
  intros [| s ss] key Hall; [reflexivity |].
  rewrite (fold_renderSegments ss s [] Hall), app_nil_r. apply get_rev.
Qed.

Lemma segmentText_plain :
  forall q : string * string,
    segmentText (mkSegment "" q "") = (fst q ++ "=" ++ snd q)%string.
Proof.
  intros [k v]. unfold segmentText. simpl. rewrite string_app_nil_r. reflexivity.
Qed.

Lemma segmentText_spaced :
  forall q : string * string,
    segmentText (mkSegment " " q "") = (" " ++ fst q ++ "=" ++ snd q)%string.
Proof.
  intros [k v]. unfold segmentText. simpl. rewrite string_app_nil_r. reflexivity.
Qed.

Lemma concat_spaced_segments :
  forall ps q,
    String.concat ";" (map segmentText (map (fun q => mkSegment " " q "") (q :: ps))) =
    (" " ++ String.concat "; " (map (fun p => fst p ++ "=" ++ snd p) (q :: ps)))%string.
Proof.
  induction ps as [| q' ps IH]; intro q.
  - cbn [map String.concat]. apply segmentText_spaced.
  - specialize (IH q'). cbn [map String.concat] in *.
    rewrite IH, segmentText_spaced.
    rewrite !string_app_assoc. reflexivity.
Qed.

(** The text a browser gives is such a text. *)
Lemma renderCookies_segments :
  forall pairs,
    renderCookies pairs = renderSegments (browserSegments pairs) /\
    map namedValue (browserSegments pairs) = pairs /\
    forallb segmentOk (browserSegments pairs) = forallb cookiePair pairs.
Proof.
  intros [| p ps]; [repeat split |].
  assert (Hok : forall l (q : string * string),
             JS.allWhiteSpace l = true ->
             segmentOk (mkSegment l q "") = cookiePair q).
  { intros l q Hl. unfold segmentOk. simpl. rewrite Hl, andb_true_r. reflexivity. }
  unfold browserSegments. split; [| split].
  - unfold renderCookies, renderSegments.
    destruct ps as [| q ps].
    + cbn [map String.concat]. rewrite segmentText_plain. reflexivity.
    + pose proof (concat_spaced_segments ps q) as H.
      cbn [map String.concat] in *. rewrite H, segmentText_plain.
      rewrite !string_app_assoc. reflexivity.
  - cbn [map namedValue]. f_equal. induction ps as [| q ps IH]; [reflexivity |].
    simpl. rewrite IH. reflexivity.
  - cbn [map forallb]. rewrite (Hok "" p eq_refl). f_equal.
    induction ps as [| q ps IH]; [reflexivity |].
    cbn [map forallb]. rewrite (Hok " " q eq_refl), IH. reflexivity.
Qed.

Section BrowserCookie.

Variable decodeURIComponent : string -> option string.
Variable JSON_parse : string -> option Auth.AuthInfo.

Local Abbreviation parseAuthInfo := (Auth.parseAuthInfo decodeURIComponent JSON_parse).

(** X22.  From a cookie text, that is from cookies [name=value] joined by
    semicolons, each with any whitespace before and after it (names and
    values are not empty and hold no whitespace and no semicolon, names no
    equals sign), the reader returns what [parseAuthInfo] makes of the value
    of the last cookie named [auth], whatever other cookies surround it and
    also when that value holds equals signs; with no cookie named [auth] it
    returns [null].  The text a browser gives, [name=value; name=value], is
    such a text. *)
Theorem browser_cookie_reader :
  (forall segs,
     forallb segmentOk segs = true ->
     getAuthInfoFromBrowserCookie decodeURIComponent JSON_parse
       (Some (renderSegments segs)) =
     match lastValue "auth" (map namedValue segs) with
     | Some v => parseAuthInfo (Some v)
     | None => None
     end) /\
  (forall pairs,
     forallb cookiePair pairs = true ->
     getAuthInfoFromBrowserCookie decodeURIComponent JSON_parse
       (Some (renderCookies pairs)) =
     match lastValue "auth" pairs with
     | Some v => parseAuthInfo (Some v)
     | None => None
     end).
Proof.
  assert (H : forall segs,
             forallb segmentOk segs = true ->
             getAuthInfoFromBrowserCookie decodeURIComponent JSON_parse
               (Some (renderSegments segs)) =
             match lastValue "auth" (map namedValue segs) with
             | Some v => parseAuthInfo (Some v)
             | None => None
             end).
  { intros segs Hall. unfold getAuthInfoFromBrowserCookie. cbv zeta.
    rewrite (cookies_of_segments segs "auth" Hall).
    destruct (lastValue "auth" (map namedValue segs)) as [v |]; [| reflexivity].
    destruct (v =? "") eqn:He; [| reflexivity].
    apply String.eqb_eq in He. subst v. reflexivity. }
  split; [exact H |].
  intros pairs Hall.
  destruct (renderCookies_segments pairs) as [Ht [Hm Hok]].
  pose proof (H (browserSegments pairs)) as H'.
  rewrite Hm, Hok in H'. rewrite Ht. exact (H' Hall).
Qed.

(** X23.  The provider takes the user for logged in exactly when the last
    cookie named [auth] of the cookie text parses to a record with a user
    name that is not empty; without such a cookie the user is not logged
    in. *)
Theorem login_status_of_cookies :
  forall segs,
    forallb segmentOk segs = true ->
    checkLoginStatus decodeURIComponent JSON_parse (Some (renderSegments segs)) = true <->
    exists v a name,
      lastValue "auth" (map namedValue segs) = Some v /\
      parseAuthInfo (Some v) = Some a /\
      Auth.username a = Some name /\ name <> "".
Proof.
  intros segs Hall. unfold checkLoginStatus, getAuthInfoFromBrowserCookie. cbv zeta.
  rewrite (cookies_of_segments segs "auth" Hall).
  assert (Hempty : forall v, (if v =? "" then None else parseAuthInfo (Some v)) =
                             parseAuthInfo (Some v)).
  { intro v. destruct (v =? "") eqn:He; [| reflexivity].
    apply String.eqb_eq in He. subst v. reflexivity. }
  split.
  - destruct (lastValue "auth" (map namedValue segs)) as [v |]; [| discriminate].
    rewrite Hempty.
    destruct (parseAuthInfo (Some v)) as [a |] eqn:Hp; [| discriminate].
    unfold JS.truthy_string.
    destruct (Auth.username a) as [name |] eqn:Hu; [| discriminate].
    intro Hn. apply negb_true_iff in Hn. apply String.eqb_neq in Hn.
    exists v, a, name. repeat split; assumption.
  - intros [v [a [name [Hv [Hp [Hu Hn]]]]]].
    rewrite Hv, Hempty, Hp. unfold JS.truthy_string. rewrite Hu.
    apply negb_true_iff. apply String.eqb_neq. exact Hn.
Qed.

End BrowserCookie.

Lemma browser_cookie_reader_witness :
  let token := Platform.encodeURIComponent
                 (Platform.JSON_stringify (credential 1000000 605800000)) in
  getAuthInfoFromBrowserCookie Platform.decodeURIComponent Platform.JSON_parse
    (Some (renderSegments
             [mkSegment "" ("theme", "dark") "";
              mkSegment " " ("auth", "stale==") JS.noBreakSpace;
              mkSegment JS.noBreakSpace ("auth", token) (JS.noBreakSpace ++ " ");
              mkSegment " " ("lang", "en") ""])) =
  Some (credential 1000000 605800000).
Proof.
  exact (proj1 (browser_cookie_reader Platform.decodeURIComponent Platform.JSON_parse)
           [mkSegment "" ("theme", "dark") "";
            mkSegment " " ("auth", "stale==") JS.noBreakSpace;
            mkSegment JS.noBreakSpace
              ("auth", Platform.encodeURIComponent
                         (Platform.JSON_stringify (credential 1000000 605800000)))
              (JS.noBreakSpace ++ " ");
            mkSegment " " ("lang", "en") ""] eq_refl).
Defined.

Lemma login_status_of_cookies_witness :
  let token := Platform.encodeURIComponent
                 (Platform.JSON_stringify (credential 1000000 605800000)) in
  checkLoginStatus Platform.decodeURIComponent Platform.JSON_parse
    (Some (renderSegments
             [mkSegment "" ("theme", "dark") "";
              mkSegment " " ("auth", token) JS.noBreakSpace])) = true.
Proof.
  intro token.
  refine (proj2 (login_status_of_cookies Platform.decodeURIComponent Platform.JSON_parse
                   [mkSegment "" ("theme", "dark") "";
                    mkSegment " " ("auth", token) JS.noBreakSpace] eq_refl) _).
  exists token, (credential 1000000 605800000), "viewer".
  repeat split; discriminate.
Defined.

(** ** The provider: loading the configuration *)

Import WatchRoom.

(** Every way through [loadConfig], by the answers it gets: the innermost
    question is settled first. *)
Ltac settle_question :=
  match goal with
  | |- context [match ?x with _ => _ end] =>
      lazymatch x with
      | context [match _ with _ => _ end] => fail
      | _ => destruct x eqn:?
      end
  end.

Ltac load_config_cases :=
  unfold loadConfig, loadExternalAuth, connectIfEnabled, giveUp, configOfData,
    disable, withAuth;
  repeat (cbn [enabled serverType externalServerUrl externalServerAuth
               fst snd andb negb app];
          settle_question);
  cbn [enabled serverType externalServerUrl externalServerAuth fst snd andb negb app].

(** X24.  [loadConfig] connects only with a configuration that enables the
    watch room, after the socket manager was loaded, and that configuration
    is the one it has stored; it connects at most once. *)
Theorem connects_only_when_enabled :
  forall isLoggedIn env c,
    In (Connect c) (loadConfig isLoggedIn env) ->
    enabled c = true /\
    importSucceeds env = true /\
    In (SetConfig c) (loadConfig isLoggedIn env) /\
    List.length (filter isConnect (loadConfig isLoggedIn env)) = 1.
Proof.
  intros isLoggedIn env c.
  load_config_cases; intro H; simpl in H;
    repeat (destruct H as [H | H]; try discriminate H); try contradiction;
    injection H as <-; repeat split; simpl; try tauto; try reflexivity; try assumption.
Qed.

Lemma connects_only_when_enabled_witness :
  let c := mkWatchRoomConfig true "internal" None None in
  enabled c = true /\
  importSucceeds
    (mkAnswers (Answered (mkReply 200 (JsonData (Some (mkWatchRoomData (Some true) None None)))))
       Failed true true) = true.
Proof.
  pose proof (connects_only_when_enabled false
                (mkAnswers
                   (Answered (mkReply 200
                      (JsonData (Some (mkWatchRoomData (Some true) None None)))))
                   Failed true true)
                (mkWatchRoomConfig true "internal" None None)) as H.
  simpl in H. destruct (H ltac:(tauto)) as [H1 [H2 _]]. split; assumption.
Defined.

(** X25.  Whatever the answers, [loadConfig] leaves the two states in
    step: the last value given to [setIsEnabled] is the [enabled] member of
    the last configuration given to [setConfig]. *)
Theorem enabled_state_matches_config :
  forall isLoggedIn env,
    exists c,
      lastConfig (loadConfig isLoggedIn env) = Some c /\
      lastIsEnabled (loadConfig isLoggedIn env) = Some (enabled c).
Proof.
  intros isLoggedIn env.
  load_config_cases; eexists; split; reflexivity.
Qed.

(** X26.  The watch room ends enabled exactly when the configuration was
    loaded and enables it, the socket manager was loaded and the connection
    was made.  Whatever throws on the way (the configuration request or its
    data, the import, the connection) and a configuration request that is
    refused each leave the default configuration stored and the watch room
    disabled, also when it had been enabled a moment before. *)
Theorem enabled_only_after_connecting :
  forall isLoggedIn env,
    (lastIsEnabled (loadConfig isLoggedIn env) = Some true <->
     importSucceeds env = true /\
     connectSucceeds env = true /\
     exists c, In (Connect c) (loadConfig isLoggedIn env) /\ enabled c = true) /\
    (serverConfig env = Failed \/
     (exists response,
        serverConfig env = Answered response /\
        (replyOk response = false \/ replyJson response = JsonFails)) \/
     (In ImportSocketManager (loadConfig isLoggedIn env) /\
      (importSucceeds env = false \/ connectSucceeds env = false)) ->
     lastConfig (loadConfig isLoggedIn env) = Some defaultConfig /\
     lastIsEnabled (loadConfig isLoggedIn env) = Some false).
Proof.
  intros isLoggedIn env. split.
  - split.
    + load_config_cases; intro H; try discriminate H;
        (split; [assumption || reflexivity |]; split; [assumption || reflexivity |]);
        eexists; (split; [simpl; eauto 8 | reflexivity]).
    + intros [Hi [Hc [c [Hin _]]]]. revert Hin.
      load_config_cases; intro H; simpl in H;
        repeat (destruct H as [H | H]; try discriminate H);
        try contradiction; try congruence; reflexivity.
  - intros [Hf | [[response [Ha Hr]] | [Hin Hr]]].
    + unfold loadConfig. rewrite Hf. split; reflexivity.
    + unfold loadConfig. rewrite Ha.
      destruct Hr as [Hr | Hr]; rewrite Hr; [split; reflexivity |].
      destruct (replyOk response); split; reflexivity.
    + revert Hin.
      load_config_cases; intro H; simpl in H;
        repeat (destruct H as [H | H]; try discriminate H);
        try contradiction;
        try (split; reflexivity);
        destruct Hr as [Hr | Hr]; congruence.
Qed.

Lemma enabled_only_after_connecting_witness :
  let env :=
    mkAnswers
      (Answered (mkReply 200
         (JsonData (Some (mkWatchRoomData (Some true) (Some "external") None)))))
      (Answered (mkReply 200 (JsonData (Some "secret")))) true false in
  In (SetIsEnabled true) (loadConfig true env) /\
  lastConfig (loadConfig true env) = Some defaultConfig /\
  lastIsEnabled (loadConfig true env) = Some false.
Proof.
  intro env. split; [simpl; tauto |].
  refine (proj2 (enabled_only_after_connecting true env) _).
  right. right. split; [simpl; tauto | right; reflexivity].
Defined.

(** X27.  The credentials of an external server are requested only for a
    user who is logged in; and when that request fails, is refused, or
    gives data that do not parse, the watch room is disabled and no
    connection is attempted. *)
Theorem external_auth_needs_login :
  forall isLoggedIn env,
    In RequestWatchRoomAuth (loadConfig isLoggedIn env) ->
    isLoggedIn = true /\
    ((watchRoomAuth env = Failed \/
      exists authResponse,
        watchRoomAuth env = Answered authResponse /\
        (replyOk authResponse = false \/ replyJson authResponse = JsonFails)) ->
     lastIsEnabled (loadConfig isLoggedIn env) = Some false /\
     filter isConnect (loadConfig isLoggedIn env) = []).
Proof.
  intros isLoggedIn env. unfold loadConfig, loadExternalAuth, connectIfEnabled, giveUp.
  destruct (serverConfig env) as [response |];
    [| simpl; intro H; repeat (destruct H as [H | H]; try discriminate H); contradiction].
  destruct (replyOk response);
    [| simpl; intro H; repeat (destruct H as [H | H]; try discriminate H); contradiction].
  destruct (replyJson response) as [| data];
    [simpl; intro H; repeat (destruct H as [H | H]; try discriminate H); contradiction |].
  destruct ((serverType (configOfData data) =? "external") && enabled (configOfData data))
    eqn:Hext.
  - destruct isLoggedIn; simpl.
    + intros _. split; [reflexivity |].
      intros [Hf | [authResponse [Ha [Hok | Hj]]]].
      * rewrite Hf. simpl. split; reflexivity.
      * rewrite Ha, Hok. simpl. split; reflexivity.
      * rewrite Ha, Hj. destruct (replyOk authResponse); simpl; split; reflexivity.
    + intro H. exfalso.
      destruct H as [H | [H | [H | H]]]; try discriminate H.
      destruct (enabled (configOfData data)); simpl in H.
      * destruct (importSucceeds env); simpl in H;
          [destruct (connectSucceeds env); simpl in H |];
          repeat (destruct H as [H | H]; try discriminate H); contradiction.
      * contradiction.
  - simpl. intro H. exfalso.
    destruct H as [H | [H | [H | H]]]; try discriminate H.
    destruct (enabled (configOfData data)); simpl in H.
    + destruct (importSucceeds env); simpl in H;
        [destruct (connectSucceeds env); simpl in H |];
        repeat (destruct H as [H | H]; try discriminate H); contradiction.
    + contradiction.
Qed.

Lemma external_auth_needs_login_witness :
  lastIsEnabled
    (loadConfig true
       (mkAnswers
          (Answered (mkReply 200
             (JsonData (Some (mkWatchRoomData (Some true) (Some "external") None)))))
          (Answered (mkReply 403 JsonFails)) true true)) = Some false.
Proof.
  refine (proj1 (proj2 (external_auth_needs_login true
            (mkAnswers
               (Answered (mkReply 200
                  (JsonData (Some (mkWatchRoomData (Some true) (Some "external") None)))))
               (Answered (mkReply 403 JsonFails)) true true) _) _)).
  - simpl. tauto.
  - right. eexists. split; [reflexivity | left; reflexivity].
Defined.

(** ** The provider: reconnecting by hand *)


(** ** Putting the wrapper in place and taking it out *)

Import Install.

Lemma mount_keeps_setting :
  forall w, storageTypeSetting (fst (mount w)) = storageTypeSetting w.
Proof.
  intro w. unfold mount. destruct (storageType w =? "localstorage"); reflexivity.
Qed.

(** X29.  However often the component is mounted, running the cleanups it
    returned, the latest first, puts back the [window.fetch] that was there
    before the first mount; and in the local-storage mode, which is also the
    mode when [STORAGE_TYPE] is missing or empty, mounting changes nothing
    and returns no cleanup. *)
Theorem cleanups_restore_fetch :
  forall n w,
    runCleanups (snd (mountTimes n w)) (fst (mountTimes n w)) = w /\
    (storageTypeSetting w = None \/ storageTypeSetting w = Some "" \/
     storageTypeSetting w = Some "localstorage" ->
     mountTimes n w = (w, [])).
Proof.
  intros n w. split.
  - induction n as [| n IH]; [reflexivity |].
    simpl. destruct (mountTimes n w) as [w1 cs]. simpl in IH.
    unfold mount. destruct (storageType w1 =? "localstorage"); simpl; [exact IH |].
    unfold runCleanups in *. simpl. unfold runCleanup at 2. simpl.
    destruct w1 as [st slot]. exact IH.
  - intro Hmode.
    assert (Hlocal : storageType w = "localstorage").
    { unfold storageType. destruct Hmode as [-> | [-> | ->]]; reflexivity. }
    induction n as [| n IH]; [reflexivity |].
    simpl. rewrite IH. unfold mount. rewrite Hlocal. reflexivity.
Qed.

Lemma cleanups_restore_fetch_witness :
  mountTimes 3 (mkWindow None Native) = (mkWindow None Native, []).
Proof.
  exact (proj2 (cleanups_restore_fetch 3 (mkWindow None Native)) (or_introl eq_refl)).
Defined.
